(** * contact-backend: the LLM response pipeline

    A shallow embedding of [src/app/llm_service.py] (intent classification,
    the transformation call, the response parser and the contact-signal
    normaliser), of [src/config.py] (the category set), of the marker
    parser of [src/simple_test_parsing.py], of [src/app/security.py] (API
    keys and the rate limit) and of the endpoint of
    [src/app/routers/process.py], together with the part of the Python
    runtime they rest on: truthiness, [int()], [bool()], the string
    methods and [json.loads].

    Conventions.
    - A Python [str] is a Rocq [string] holding its UTF-8 bytes.  Every
      delimiter the code looks for is ASCII, so searching, splitting and
      slicing commute with the encoding.  [str.strip] and [str.lower] are
      modelled on the ASCII range; code points above U+007F are left alone.
      The key check of [security.py] uses [ustrip], which takes off the
      white space of all of Unicode.
    - A Python computation that may raise has type [result A]; an exception
      is its class name and the text [str(e)] yields.
    - Logging calls have no effect on results and are left out. *)

From Stdlib Require Import ZArith List String Ascii Bool Lia Floats.
From Stdlib Require Import DecimalString.
From Stdlib Require DecimalPos DecimalFacts.
Import ListNotations.

Open Scope string_scope.
Open Scope Z_scope.

Set Warnings "-register-all".

(** ** Exceptions and the error monad *)

Record exn : Type := Exn { exn_class : string; exn_str : string }.

Inductive result (A : Type) : Type :=
| Return (a : A)
| Raise (e : exn).

Arguments Return {A} a.
Arguments Raise {A} e.

Definition bind {A B} (m : result A) (k : A -> result B) : result B :=
  match m with
  | Return a => k a
  | Raise e => Raise e
  end.

(** [try: body / except Exception as e: handler e] *)
Definition try_except {A} (body : result A) (handler : exn -> result A) : result A :=
  match body with
  | Return a => Return a
  | Raise e => handler e
  end.

Declare Scope py_scope.
Delimit Scope py_scope with py.
Notation "x <- m ;; k" := (bind m (fun x => k))
  (at level 61, m at next level, right associativity) : py_scope.
Notation "' pat <- m ;; k" := (bind m (fun x => match x with pat => k end))
  (at level 61, pat pattern, m at next level, right associativity) : py_scope.
Open Scope py_scope.

Definition returns {A} (m : result A) : Prop := exists a, m = Return a.
Definition raises {A} (m : result A) : Prop := exists e, m = Raise e.

(** ** Python values

    The values a decoded JSON document or a request body can hold. *)

Inductive value : Type :=
| VNone
| VBool (b : bool)
| VInt (n : Z)
| VFloat (f : float)
| VStr (s : string)
| VList (items : list value)
| VDict (items : list (string * value)).

(** [Dict[str, Any]]: the items in insertion order.  A dict Python can
    build has pairwise distinct keys. *)
Definition Dict : Type := list (string * value).

(** [List[Dict[str, Any]]] *)
Definition Table : Type := list Dict.

Definition of_table (t : Table) : value := VList (map VDict t).

Definition wf_dict (d : Dict) : Prop := NoDup (map fst d).
Definition wf_table (t : Table) : Prop := Forall wf_dict t.

(** [type(v).__name__] *)
Definition type_name (v : value) : string :=
  match v with
  | VNone => "NoneType"
  | VBool _ => "bool"
  | VInt _ => "int"
  | VFloat _ => "float"
  | VStr _ => "str"
  | VList _ => "list"
  | VDict _ => "dict"
  end.

(** [bool(v)], the truth value [or] and [if] test. *)
Definition truthy (v : value) : bool :=
  match v with
  | VNone => false
  | VBool b => b
  | VInt n => negb (n =? 0)
  | VFloat f => negb (PrimFloat.eqb f 0%float)
  | VStr s => negb (String.eqb s "")
  | VList l => match l with [] => false | _ => true end
  | VDict d => match d with [] => false | _ => true end
  end.

(** [a or b], with [b] evaluated only when [a] is falsy. *)
Definition py_or (a : value) (b : result value) : result value :=
  if truthy a then Return a else b.

(** *** Dictionaries *)

Fixpoint dict_lookup (d : Dict) (key : string) : option value :=
  match d with
  | [] => None
  | (k, v) :: d' => if String.eqb k key then Some v else dict_lookup d' key
  end.

(** [d[key] = v]: an existing key keeps its place, a new one goes last. *)
Fixpoint dict_set (d : Dict) (key : string) (v : value) : Dict :=
  match d with
  | [] => [(key, v)]
  | (k, w) :: d' =>
      if String.eqb k key then (k, v) :: d' else (k, w) :: dict_set d' key v
  end.

(** [dict(pairs)] *)
Definition dict_of_pairs (pairs : list (string * value)) : Dict :=
  fold_left (fun d kv => dict_set d (fst kv) (snd kv)) pairs [].

Definition AttributeError (v : value) (attr : string) : exn :=
  Exn "AttributeError"
      ("'" ++ type_name v ++ "' object has no attribute '" ++ attr ++ "'").

(** [obj.get(key, default)]; only a dict has the method. *)
Definition py_get (obj : value) (key : string) (default : value) : result value :=
  match obj with
  | VDict d =>
      match dict_lookup d key with
      | Some v => Return v
      | None => Return default
      end
  | _ => Raise (AttributeError obj "get")
  end.

(** [xs[0]] *)
Definition py_first {A} (xs : list A) : result A :=
  match xs with
  | x :: _ => Return x
  | [] => Raise (Exn "IndexError" "list index out of range")
  end.

(** ** Strings

    [str] methods used by the service and the scripts. *)

Definition str1 (c : ascii) : string := String c EmptyString.

(** The double quote, to build JSON text. *)
Definition dq : ascii := "034"%char.

(** [js s] is [s] with every apostrophe turned into a double quote, so that
    JSON documents can be written down readably:
    [js "{'a': 1}"] is the text [{"a": 1}]. *)
Fixpoint js (s : string) : string :=
  match s with
  | EmptyString => EmptyString
  | String c s' => String (if Ascii.eqb c "'" then dq else c) (js s')
  end.

Fixpoint drop (n : nat) (s : string) : string :=
  match n, s with
  | O, _ => s
  | S n', String _ s' => drop n' s'
  | S _, EmptyString => EmptyString
  end.

Fixpoint take (n : nat) (s : string) : string :=
  match n, s with
  | S n', String c s' => String c (take n' s')
  | _, _ => EmptyString
  end.

Fixpoint str_rev_onto (s acc : string) : string :=
  match s with
  | EmptyString => acc
  | String c s' => str_rev_onto s' (String c acc)
  end.

Definition str_rev (s : string) : string := str_rev_onto s EmptyString.

(** [str.isspace] on one ASCII character: tab to carriage return, the four
    separators 0x1c to 0x1f, and the space. *)
Definition is_space (c : ascii) : bool :=
  let n := nat_of_ascii c in
  ((9 <=? n) && (n <=? 13) || (28 <=? n) && (n <=? 32))%nat.

Fixpoint lstrip (s : string) : string :=
  match s with
  | String c s' => if is_space c then lstrip s' else s
  | EmptyString => EmptyString
  end.

Definition rstrip (s : string) : string := str_rev (lstrip (str_rev s)).

(** [s.strip()] *)
Definition strip (s : string) : string := rstrip (lstrip s).

Definition lower_ascii (c : ascii) : ascii :=
  let n := nat_of_ascii c in
  if ((65 <=? n) && (n <=? 90))%nat then ascii_of_nat (n + 32) else c.

(** [s.lower()] *)
Fixpoint lower (s : string) : string :=
  match s with
  | EmptyString => EmptyString
  | String c s' => String (lower_ascii c) (lower s')
  end.

(** [x in xs] for a list of strings. *)
Fixpoint str_in (x : string) (xs : list string) : bool :=
  match xs with
  | [] => false
  | y :: ys => String.eqb x y || str_in x ys
  end.

(** [sep.join(xs)] *)
Fixpoint join (sep : string) (xs : list string) : string :=
  match xs with
  | [] => ""
  | [x] => x
  | x :: xs' => x ++ sep ++ join sep xs'
  end.

(** [s.partition(sep)] when [sep] occurs in [s]: the text before its first
    occurrence and the text after it. *)
Fixpoint partition (sep s : string) : option (string * string) :=
  if String.prefix sep s then Some ("", drop (String.length sep) s)
  else
    match s with
    | EmptyString => None
    | String c s' =>
        match partition sep s' with
        | Some (a, b) => Some (String c a, b)
        | None => None
        end
    end.

(** [sub in s] *)
Definition contains (sub s : string) : bool :=
  match partition sub s with
  | Some _ => true
  | None => false
  end.

(** [s.find(c)] for a one-character needle; [None] stands for [-1].  The
    index counts bytes, and so does [drop], the slice taken from it. *)
Fixpoint find_char (c : ascii) (s : string) : option nat :=
  match s with
  | EmptyString => None
  | String d s' =>
      if Ascii.eqb d c then Some O
      else match find_char c s' with
           | Some i => Some (S i)
           | None => None
           end
  end.

(** [s.split(sep)] for a non-empty [sep]: cut at the occurrences of [sep]
    found from left to right, none overlapping the one before.  Every cut
    shortens the text, so [length s] cuts are enough. *)
Fixpoint split_upto (n : nat) (sep s : string) : list string :=
  match n with
  | O => [s]
  | S n' =>
      match partition sep s with
      | Some (a, b) => a :: split_upto n' sep b
      | None => [s]
      end
  end.

Definition split (sep s : string) : list string :=
  split_upto (String.length s) sep s.

(** [xs[i]] on a list known to be long enough. *)
Definition item (xs : list string) (i : nat) : string := nth i xs "".

(** [xs[-1]] *)
Definition last_item (xs : list string) : string := last xs "".

(** Decimal text of an integer, as [str(n)] and [%d] give it. *)
Definition str_of_Z (n : Z) : string :=
  match n with
  | Z0 => "0"
  | Zpos p => NilEmpty.string_of_uint (Pos.to_uint p)
  | Zneg p => "-" ++ NilEmpty.string_of_uint (Pos.to_uint p)
  end.

(** [repr(s)] of a string, as error messages quote it: apostrophes around
    the text unless it holds an apostrophe and no double quote; backslash,
    the chosen quote, tab, newline and carriage return escaped; the other
    control characters and DEL as [\xNN].  Code points above U+007F are
    taken to be printable and kept. *)
Definition hex_char (n : nat) : ascii :=
  if (n <? 10)%nat then ascii_of_nat (48 + n) else ascii_of_nat (87 + n).

Fixpoint repr_body (quote : ascii) (s : string) : string :=
  match s with
  | EmptyString => EmptyString
  | String c s' =>
      let n := nat_of_ascii c in
      (if Ascii.eqb c quote || Ascii.eqb c "\" then String "\" (str1 c)
       else if Ascii.eqb c "009" then "\t"
       else if Ascii.eqb c "010" then "\n"
       else if Ascii.eqb c "013" then "\r"
       else if ((n <? 32) || (n =? 127))%nat
            then String "\" (String "x" (String (hex_char (n / 16)) (str1 (hex_char (n mod 16)))))
       else str1 c) ++ repr_body quote s'
  end.

Definition py_repr_str (s : string) : string :=
  let quote :=
    if contains "'" s && negb (contains (str1 dq) s) then dq else "'"%char in
  String quote (repr_body quote s ++ str1 quote).

(** ** Numbers *)

Definition is_digit (c : ascii) : bool :=
  let n := nat_of_ascii c in ((48 <=? n) && (n <=? 57))%nat.

Definition digit_val (c : ascii) : Z := Z.of_nat (nat_of_ascii c) - 48.

(** The number a string of decimal digits denotes. *)
Definition Z_of_digits (ds : string) : Z :=
  fold_left (fun acc c => 10 * acc + digit_val c) (list_ascii_of_string ds) 0.

(** [sys.get_int_max_str_digits()], as CPython 3.11 ships it. *)
Definition int_max_str_digits : nat := 4300.

Definition digit_limit_error (ndigits : nat) : exn :=
  Exn "ValueError"
      ("Exceeds the limit (4300 digits) for integer string conversion: value has "
       ++ str_of_Z (Z.of_nat ndigits)
       ++ " digits; use sys.set_int_max_str_digits() to increase the limit").

(** The double nearest to [n * 10^k], ties to even: what [float()] makes
    of a decimal literal.  A negative [k] divides; the quotient keeps more
    than 64 bits and one sticky bit, which decide the rounding.  From
    [10^311] on every number overflows to infinity, and below [2^-1075]
    every number rounds to zero: the two tests ahead spare the powers of
    ten no double needs. *)
Definition float_of_decimal (neg : bool) (n k : Z) : float :=
  if n =? 0 then (if neg then neg_zero else zero)
  else if 310 <? k then (if neg then neg_infinity else infinity)
  else if (k <? 0) && (Z.log2 n + 1076 <=? 3 * (- k))
       then (if neg then neg_zero else zero)
  else
    let sign (m : Z) := if neg then - m else m in
    if 0 <=? k then
      SF2Prim (binary_normalize prec emax (sign (n * 10 ^ k)) 0 false)
    else
      let d := 10 ^ (- k) in
      let s := Z.max 0 (65 + Z.log2_up d - Z.log2 n) in
      let q := (n * 2 ^ s) / d in
      let sticky := if (n * 2 ^ s) mod d =? 0 then 0 else 1 in
      SF2Prim (binary_normalize prec emax (sign (2 * q + sticky)) (- s - 1) false).

(** [int(f)] for a float: the integer part, towards zero. *)
Definition int_of_float (f : float) : result Z :=
  match Prim2SF f with
  | S754_nan => Raise (Exn "ValueError" "cannot convert float NaN to integer")
  | S754_infinity _ =>
      Raise (Exn "OverflowError" "cannot convert float infinity to integer")
  | S754_zero _ => Return 0
  | S754_finite s m e =>
      let a := if 0 <=? e then Zpos m * 2 ^ e else Zpos m / 2 ^ (- e) in
      Return (if s then - a else a)
  end.

(** [int(s)] for a string, base 10: blanks around, one optional sign,
    digits with single underscores between them.  The digits and spaces
    Unicode has outside ASCII are not modelled. *)
Definition is_blank (c : ascii) : bool :=
  let n := nat_of_ascii c in ((9 <=? n) && (n <=? 13) || (n =? 32))%nat.

Fixpoint skip_blanks (s : string) : string :=
  match s with
  | String c s' => if is_blank c then skip_blanks s' else s
  | EmptyString => EmptyString
  end.

(** The digits of [s] with the underscores taken out, when [s] is digits
    separated by single underscores and, perhaps, followed by blanks only.
    [after_digit] tells whether the character before was a digit. *)
Fixpoint int_digits (after_digit : bool) (s : string) : option string :=
  match s with
  | EmptyString => if after_digit then Some "" else None
  | String c s' =>
      if is_digit c then
        match int_digits true s' with
        | Some ds => Some (String c ds)
        | None => None
        end
      else if Ascii.eqb c "_" then
        if after_digit then
          match s' with
          | String d _ => if is_digit d then int_digits false s' else None
          | EmptyString => None
          end
        else None
      else if after_digit && is_blank c then
        match skip_blanks s' with
        | EmptyString => Some ""
        | _ => None
        end
      else None
  end.

Definition int_of_str (s : string) : result Z :=
  let invalid :=
    Exn "ValueError" ("invalid literal for int() with base 10: " ++ py_repr_str s) in
  let t := skip_blanks s in
  let '(neg, body) :=
    match t with
    | String "-" r => (true, r)
    | String "+" r => (false, r)
    | _ => (false, t)
    end in
  match int_digits false body with
  | None => Raise invalid
  | Some ds =>
      if (int_max_str_digits <? String.length ds)%nat
      then Raise (digit_limit_error (String.length ds))
      else Return (if neg then - Z_of_digits ds else Z_of_digits ds)
  end.

(** ** [json.loads]

    The decoder of CPython 3.11 ([json/decoder.py] over the C scanner), with
    its default settings: strict strings, [NaN] and [Infinity] accepted, an
    object read as a dict in which a repeated key keeps its first place and
    its last value.  A failure is a [JSONDecodeError] whose text names the
    offset, line and column.  The interpreter's bound on nesting depth is
    not modelled: the recursion budget below is the length of the text,
    which is enough for every text. *)

Module json.

(** What scanning a piece of text yields: a value and the text after it, a
    syntax error at the text [rest] starts (the offset is counted from the
    end of the document), an integer literal over the digit limit, or no
    result when the recursion budget ran out. *)
Inductive scanned (A : Type) : Type :=
| Scanned (a : A) (rest : string)
| Fails (msg : string) (rest : string)
| DigitLimit (ndigits : nat)
| Exhausted.

Arguments Scanned {A} a rest.
Arguments Fails {A} msg rest.
Arguments DigitLimit {A} ndigits.
Arguments Exhausted {A}.

Definition smap {A B} (f : A -> B) (r : scanned A) : scanned B :=
  match r with
  | Scanned a rest => Scanned (f a) rest
  | Fails msg rest => Fails msg rest
  | DigitLimit n => DigitLimit n
  | Exhausted => Exhausted
  end.

Definition is_ws (c : ascii) : bool :=
  Ascii.eqb c " " || Ascii.eqb c "009" || Ascii.eqb c "010" || Ascii.eqb c "013".

Fixpoint skip_ws (s : string) : string :=
  match s with
  | String c s' => if is_ws c then skip_ws s' else s
  | EmptyString => EmptyString
  end.

(** *** Strings *)

Definition hex_val (c : ascii) : option Z :=
  let n := nat_of_ascii c in
  if ((48 <=? n) && (n <=? 57))%nat then Some (Z.of_nat n - 48)
  else if ((65 <=? n) && (n <=? 70))%nat then Some (Z.of_nat n - 55)
  else if ((97 <=? n) && (n <=? 102))%nat then Some (Z.of_nat n - 87)
  else None.

Definition hex4 (a b c d : ascii) : option Z :=
  match hex_val a, hex_val b, hex_val c, hex_val d with
  | Some x, Some y, Some z, Some w => Some (((x * 16 + y) * 16 + z) * 16 + w)
  | _, _, _, _ => None
  end.

Definition byte (n : Z) : ascii := ascii_of_N (Z.to_N n).

(** UTF-8 bytes of a code point; a lone surrogate gets the three-byte form. *)
Definition utf8 (n : Z) : string :=
  if n <? 128 then str1 (byte n)
  else if n <? 2048 then
    String (byte (192 + n / 64)) (str1 (byte (128 + n mod 64)))
  else if n <? 65536 then
    String (byte (224 + n / 4096))
      (String (byte (128 + (n / 64) mod 64)) (str1 (byte (128 + n mod 64))))
  else
    String (byte (240 + n / 262144))
      (String (byte (128 + (n / 4096) mod 64))
         (String (byte (128 + (n / 64) mod 64)) (str1 (byte (128 + n mod 64))))).

Definition is_high_surrogate (n : Z) : bool := (55296 <=? n) && (n <=? 56319).
Definition is_low_surrogate (n : Z) : bool := (56320 <=? n) && (n <=? 57343).

Definition push (bytes : string) (r : scanned string) : scanned string :=
  smap (fun s => bytes ++ s) r.

(** The character a one-letter escape stands for. *)
Definition simple_escape (e : ascii) : option ascii :=
  if Ascii.eqb e dq then Some dq
  else if Ascii.eqb e "\" then Some "\"%char
  else if Ascii.eqb e "/" then Some "/"%char
  else if Ascii.eqb e "b" then Some "008"%char
  else if Ascii.eqb e "f" then Some "012"%char
  else if Ascii.eqb e "n" then Some "010"%char
  else if Ascii.eqb e "r" then Some "013"%char
  else if Ascii.eqb e "t" then Some "009"%char
  else None.

(** [scanstring]: [s] is the text after the opening quote, [start] the text
    from that quote on.  A [\uXXXX] escape needs four hexadecimal digits
    and one more character behind them; a high surrogate followed by such
    an escape of a low surrogate makes one code point with it. *)
Fixpoint scanstring (start s : string) : scanned string :=
  match s with
  | EmptyString => Fails "Unterminated string starting at" start
  | String c r =>
      if Ascii.eqb c dq then Scanned "" r
      else if Ascii.eqb c "\" then
        match r with
        | EmptyString => Fails "Unterminated string starting at" start
        | String e r' =>
            if Ascii.eqb e "u" then
              match r' with
              | String a (String b (String h (String d ((String _ _) as r1)))) =>
                  match hex4 a b h d with
                  | None => Fails "Invalid \uXXXX escape" r
                  | Some hi =>
                      let lone := push (utf8 hi) (scanstring start r1) in
                      match r1 with
                      | String bs (String u (String a2 (String b2 (String h2
                          (String d2 ((String _ _) as r2)))))) =>
                          if Ascii.eqb bs "\" && Ascii.eqb u "u" then
                            match hex4 a2 b2 h2 d2 with
                            | Some lo =>
                                if is_high_surrogate hi && is_low_surrogate lo
                                then push (utf8 (65536 + (hi - 55296) * 1024 + (lo - 56320)))
                                          (scanstring start r2)
                                else lone
                            | None => lone
                            end
                          else lone
                      | _ => lone
                      end
                  end
              | _ => Fails "Invalid \uXXXX escape" r
              end
            else
              match simple_escape e with
              | Some x => push (str1 x) (scanstring start r')
              | None => Fails "Invalid \escape" s
              end
        end
      else if (nat_of_ascii c <? 32)%nat then Fails "Invalid control character at" s
      else push (str1 c) (scanstring start r)
  end.

(** *** Numbers

    An optional minus sign; a zero, or a non-zero digit and more digits; an
    optional fraction (a dot and digits); an optional exponent ([e] or [E],
    an optional sign, digits). *)

Fixpoint span_digits (s : string) : string * string :=
  match s with
  | String c s' =>
      if is_digit c then let '(ds, rest) := span_digits s' in (String c ds, rest)
      else ("", s)
  | EmptyString => ("", "")
  end.

Record number : Type := Number {
  num_neg : bool;
  num_int : string;
  num_frac : option string;
  num_exp : option (bool * string)
}.

(** After the integer part: a dot and digits, if any. *)
Definition match_fraction (s : string) : option string * string :=
  match s with
  | String c r =>
      if Ascii.eqb c "." then
        match span_digits r with
        | (EmptyString, _) => (None, s)
        | (fs, r') => (Some fs, r')
        end
      else (None, s)
  | EmptyString => (None, s)
  end.

(** After the fraction: [e] or [E], an optional sign and digits, if any. *)
Definition match_exponent (s : string) : option (bool * string) * string :=
  match s with
  | String e r =>
      if Ascii.eqb e "e" || Ascii.eqb e "E" then
        let '(eneg, r1) :=
          match r with
          | String sg r' =>
              if Ascii.eqb sg "-" then (true, r')
              else if Ascii.eqb sg "+" then (false, r')
              else (false, r)
          | EmptyString => (false, r)
          end in
        match span_digits r1 with
        | (EmptyString, _) => (None, s)
        | (es, r') => (Some (eneg, es), r')
        end
      else (None, s)
  | EmptyString => (None, s)
  end.

Definition match_number (s : string) : option (number * string) :=
  let '(neg, s1) :=
    match s with
    | String c r => if Ascii.eqb c "-" then (true, r) else (false, s)
    | EmptyString => (false, s)
    end in
  let int_part :=
    match s1 with
    | String c r =>
        if Ascii.eqb c "0" then Some ("0", r)
        else if is_digit c then Some (span_digits s1)
        else None
    | EmptyString => None
    end in
  match int_part with
  | None => None
  | Some (ip, s2) =>
      let '(frac, s3) := match_fraction s2 in
      let '(ex, s4) := match_exponent s3 in
      Some (Number neg ip frac ex, s4)
  end.

(** [int(...)] or [float(...)] of the matched literal. *)
Definition number_value (n : number) (rest : string) : scanned value :=
  match num_frac n, num_exp n with
  | None, None =>
      if (int_max_str_digits <? String.length (num_int n))%nat
      then DigitLimit (String.length (num_int n))
      else
        let m := Z_of_digits (num_int n) in
        Scanned (VInt (if num_neg n then - m else m)) rest
  | frac, ex =>
      let fs := match frac with Some fs => fs | None => "" end in
      let e := match ex with
               | Some (eneg, es) => if eneg then - Z_of_digits es else Z_of_digits es
               | None => 0
               end in
      Scanned (VFloat (float_of_decimal (num_neg n)
                         (Z_of_digits (num_int n ++ fs))
                         (e - Z.of_nat (String.length fs)))) rest
  end.

(** *** Arrays and objects

    [scan] reads one value; both loops stop at the first error.  Every
    round of a loop consumes text, and [n] bounds the rounds. *)

Section Containers.
Variable scan : string -> scanned value.

Fixpoint array_items (n : nat) (s : string) : scanned (list value) :=
  match n with
  | O => Exhausted
  | S n' =>
      match scan s with
      | Scanned v rest =>
          match skip_ws rest with
          | String c r =>
              if Ascii.eqb c "]" then Scanned [v] r
              else if Ascii.eqb c ","
                   then smap (cons v) (array_items n' (skip_ws r))
                   else Fails "Expecting ',' delimiter" (String c r)
          | EmptyString => Fails "Expecting ',' delimiter" EmptyString
          end
      | Fails msg rest => Fails msg rest
      | DigitLimit k => DigitLimit k
      | Exhausted => Exhausted
      end
  end.

(** [s] is the text after the opening bracket. *)
Definition JSONArray (n : nat) (s : string) : scanned value :=
  match skip_ws s with
  | String c r =>
      if Ascii.eqb c "]" then Scanned (VList []) r
      else smap VList (array_items n (String c r))
  | EmptyString => smap VList (array_items n EmptyString)
  end.

(** What follows a key and its value: the end of the object, or a comma
    and the next pair. *)
Fixpoint object_pairs (n : nat) (s : string) : scanned (list (string * value)) :=
  match n with
  | O => Exhausted
  | S n' =>
      match s with
      | String c r =>
          if Ascii.eqb c dq then
            match scanstring s r with
            | Scanned key rest =>
                match skip_ws rest with
                | String c1 r1 =>
                    if Ascii.eqb c1 ":" then
                      match scan (skip_ws r1) with
                      | Scanned v rest2 =>
                          match skip_ws rest2 with
                          | String c2 r2 =>
                              if Ascii.eqb c2 "}" then Scanned [(key, v)] r2
                              else if Ascii.eqb c2 ","
                                   then smap (cons (key, v)) (object_pairs n' (skip_ws r2))
                                   else Fails "Expecting ',' delimiter" (String c2 r2)
                          | EmptyString => Fails "Expecting ',' delimiter" EmptyString
                          end
                      | Fails msg at_ => Fails msg at_
                      | DigitLimit k => DigitLimit k
                      | Exhausted => Exhausted
                      end
                    else Fails "Expecting ':' delimiter" (String c1 r1)
                | EmptyString => Fails "Expecting ':' delimiter" EmptyString
                end
            | Fails msg at_ => Fails msg at_
            | DigitLimit k => DigitLimit k
            | Exhausted => Exhausted
            end
          else Fails "Expecting property name enclosed in double quotes" s
      | EmptyString => Fails "Expecting property name enclosed in double quotes" s
      end
  end.

(** [s] is the text after the opening brace. *)
Definition JSONObject (n : nat) (s : string) : scanned value :=
  match skip_ws s with
  | String c r =>
      if Ascii.eqb c "}" then Scanned (VDict []) r
      else smap (fun pairs => VDict (dict_of_pairs pairs)) (object_pairs n (String c r))
  | EmptyString =>
      smap (fun pairs => VDict (dict_of_pairs pairs)) (object_pairs n EmptyString)
  end.
End Containers.

(** *** One value *)

Fixpoint scan_once (fuel : nat) (s : string) : scanned value :=
  match fuel with
  | O => Exhausted
  | S fuel' =>
      match s with
      | EmptyString => Fails "Expecting value" s
      | String c r =>
          if Ascii.eqb c dq then smap VStr (scanstring s r)
          else if Ascii.eqb c "{" then JSONObject (scan_once fuel') fuel' r
          else if Ascii.eqb c "[" then JSONArray (scan_once fuel') fuel' r
          else if String.prefix "null" s then Scanned VNone (drop 4 s)
          else if String.prefix "true" s then Scanned (VBool true) (drop 4 s)
          else if String.prefix "false" s then Scanned (VBool false) (drop 5 s)
          else if String.prefix "NaN" s then Scanned (VFloat nan) (drop 3 s)
          else if String.prefix "Infinity" s then Scanned (VFloat infinity) (drop 8 s)
          else if String.prefix "-Infinity" s then Scanned (VFloat neg_infinity) (drop 9 s)
          else
            match match_number s with
            | Some (n, rest) => number_value n rest
            | None => Fails "Expecting value" s
            end
      end
  end.

(** *** Error text *)

Definition is_continuation (c : ascii) : bool :=
  let n := nat_of_ascii c in ((128 <=? n) && (n <? 192))%nat.

(** Code points in a piece of UTF-8 text. *)
Fixpoint code_points (s : string) : nat :=
  match s with
  | EmptyString => O
  | String c s' => if is_continuation c then code_points s' else S (code_points s')
  end.

(** Line number and column of the end of [before], the text in front of
    the error: one more than its newlines, and one more than the code
    points after its last newline. *)
Fixpoint line_col (before : string) (line col : nat) : nat * nat :=
  match before with
  | EmptyString => (line, col)
  | String c s' =>
      if Ascii.eqb c "010" then line_col s' (S line) 1%nat
      else if is_continuation c then line_col s' line col
      else line_col s' line (S col)
  end.

Definition JSONDecodeError (msg doc : string) (rest : string) : exn :=
  let before := take (String.length doc - String.length rest) doc in
  let '(line, col) := line_col before 1%nat 1%nat in
  Exn "JSONDecodeError"
      (msg ++ ": line " ++ str_of_Z (Z.of_nat line)
           ++ " column " ++ str_of_Z (Z.of_nat col)
           ++ " (char " ++ str_of_Z (Z.of_nat (code_points before)) ++ ")").

Definition RecursionError : exn :=
  Exn "RecursionError" "maximum recursion depth exceeded".

(** The byte order mark U+FEFF in UTF-8. *)
Definition BOM : string := String "239" (String "187" (String "191" EmptyString)).

(** *** [json.loads(s)] *)

Definition loads (s : string) : result value :=
  if String.prefix BOM s
  then Raise (JSONDecodeError "Unexpected UTF-8 BOM (decode using utf-8-sig)" s s)
  else
    match scan_once (S (String.length s)) (skip_ws s) with
    | Scanned v rest =>
        match skip_ws rest with
        | EmptyString => Return v
        | extra => Raise (JSONDecodeError "Extra data" s extra)
        end
    | Fails msg at_ => Raise (JSONDecodeError msg s at_)
    | DigitLimit n => Raise (digit_limit_error n)
    | Exhausted => Raise RecursionError
    end.

End json.

(** ** Configuration ([src/config.py])

    Of the settings only the category list bears on the service; the rest
    is read from the environment by the transport layer. *)

Record Settings : Type := { INTENT_CATEGORIES : list string }.

Module config.
Definition settings : Settings :=
  {| INTENT_CATEGORIES := ["data_transformation"] |}.
End config.

(** ** The LLM service ([src/app/llm_service.py]) *)

Inductive Message : Type :=
| SystemMessage (content : string)
| HumanMessage (content : string).

(** The text of the prompts, character for character ([js] puts the double
    quotes of the transformation prompt back). *)
Definition classify_system_prompt (categories : list string) : string :=
  "
            You are an intent classification system. Classify the user's request into one of these categories:
            " ++ join ", " categories ++ "
            
            Return only the category name, nothing else.
            ".

Definition filter_system_prompt : string :=
  "
        You are a data filtering assistant. Based on the user's request, filter the provided table data.
        Return the filtered data in JSON format and provide a brief explanation of what was filtered.
        
        Format your response as:
        FILTERED_DATA: [json array of filtered items]
        EXPLANATION: [brief explanation of filtering applied]
        ".

Definition transform_system_prompt : string :=
  "
        You are a data transformation assistant. Based on the user's request, modify the provided table data.
        " ++ js "User query will require you to create additional field(s) in order to fulfill users requests. This can be done by addition of key-value pair in each of the data object inside of the array.
        
        CRITICAL JSON FORMATTING RULES:
        1. Return ONLY valid JSON array format
        2. Do NOT add any extra text, explanations, or comments within the JSON
        3. Do NOT add content after the JSON array
        4. Ensure all JSON is properly formatted with correct commas and brackets
        5. Every transformation must include a 'reasoning' field explaining the changes
        
        For example, if table_data input is:
        [
          {
            'name': 'kabir'
          },
          {
            'name': 'ivan'
          }
        ]
        
        And user requests 'categorize each name based on likeliest nationality', return:
        [
          {
            'name': 'kabir',
            'name_nationality': 'Indian',
            'reasoning': 'Kabir is a common name in India'
          },
          {
            'name': 'ivan',
            'name_nationality': 'Russian',
            'reasoning': 'Ivan is a common name for Russian boys'
          }
        ]
        
        Format your response EXACTLY as:
        {
          'TRANSFORMED_DATA': [valid JSON array only]
          'EXPLANATION': [brief explanation of transformations applied]
        }
        ".

Definition analyze_system_prompt : string :=
  "
        You are a data analysis assistant. Based on the user's request, analyze the provided table data.
        Return the original data with any additional analysis columns, and provide insights.
        
        Format your response as:
        ANALYZED_DATA: [json array with original data plus analysis]
        EXPLANATION: [brief explanation of analysis performed]
        ".

(** *** [_parse_llm_response] *)

Module re.

(** The text from the first opening brace on. *)
Fixpoint from_first_brace (s : string) : option string :=
  match s with
  | EmptyString => None
  | String c s' => if Ascii.eqb c "{" then Some s else from_first_brace s'
  end.

(** The longest prefix that ends with a closing brace. *)
Fixpoint upto_last_brace (s : string) : option string :=
  match s with
  | EmptyString => None
  | String c s' =>
      match upto_last_brace s' with
      | Some m => Some (String c m)
      | None => if Ascii.eqb c "}" then Some (str1 c) else None
      end
  end.

(** [re.search(r'\{.*\}', s, re.DOTALL)], as [match.group(0)]: the dot
    matches every character and the star is greedy, so the match runs from
    the first opening brace to the last closing brace behind it. *)
Definition search_braces (s : string) : option string :=
  match from_first_brace s with
  | Some (String c r) =>
      match upto_last_brace r with
      | Some m => Some (String c m)
      | None => None
      end
  | _ => None
  end.

End re.

(** Lines 201 to 205: the data under the first key whose value is truthy,
    else the fallback table; the explanation, else the empty string. *)
Definition extract_keys (jsonData : value) (fallback_data : Table)
  : result (value * value) :=
  transformed_data <-
    (a <- py_get jsonData "TRANSFORMED_DATA" VNone ;;
     py_or a
       (b <- py_get jsonData "FILTERED_DATA" VNone ;;
        py_or b
          (c <- py_get jsonData "ANALYZED_DATA" VNone ;;
           py_or c (Return (of_table fallback_data))))) ;;
  explanation <- py_get jsonData "EXPLANATION" (VStr "") ;;
  Return (explanation, transformed_data).

Definition could_not_parse : string := "Could not parse LLM response as JSON.".

Definition _parse_llm_response (response_content : string) (fallback_data : Table)
  : result (value * value) :=
  match json.loads response_content with
  | Return jsonData => extract_keys jsonData fallback_data
  | Raise _ =>
      match re.search_braces response_content with
      | Some group0 =>
          jsonData <- json.loads group0 ;;
          extract_keys jsonData fallback_data
      | None => Return (VStr could_not_parse, of_table fallback_data)
      end
  end.

(** *** [_normalize_contact_signals] *)

Definition is_str (v : value) : bool :=
  match v with VStr _ => true | _ => false end.

(** [isinstance(v, (str, float))] *)
Definition is_str_or_float (v : value) : bool :=
  match v with VStr _ | VFloat _ => true | _ => false end.

(** [isinstance(v, (str, int))]; [bool] is a subclass of [int]. *)
Definition is_str_or_int (v : value) : bool :=
  match v with VStr _ | VInt _ | VBool _ => true | _ => false end.

(** [int(v)] *)
Definition py_int (v : value) : result value :=
  match v with
  | VStr s => n <- int_of_str s ;; Return (VInt n)
  | VFloat f => n <- int_of_float f ;; Return (VInt n)
  | VInt n => Return (VInt n)
  | VBool b => Return (VInt (if b then 1 else 0))
  | _ =>
      Raise (Exn "TypeError"
               ("int() argument must be a string, a bytes-like object or a real number, not '"
                ++ type_name v ++ "'"))
  end.

(** [bool(v)] *)
Definition py_bool (v : value) : value := VBool (truthy v).

(** [str(v)] of a string. *)
Definition py_str (v : value) : value := v.

(** The branch one [key, value] pair takes in the inner loop. *)
Definition normalize_field (key : string) (v : value) : result value :=
  if String.eqb key "confidence" then
    if is_str_or_float v then py_int v else Return v
  else if str_in key ["actionTaken"; "isNew"] then
    Return (if is_str_or_int v then py_bool v else v)
  else if String.eqb key "timestamp" && is_str v then
    Return (py_str v)
  else Return v.

(** [for key, value in item.items(): normalized_item[key] = ...] *)
Fixpoint normalize_items (items : list (string * value)) (normalized_item : Dict)
  : result Dict :=
  match items with
  | [] => Return normalized_item
  | (key, v) :: items' =>
      v' <- normalize_field key v ;;
      normalize_items items' (dict_set normalized_item key v')
  end.

Fixpoint _normalize_contact_signals (data : Table) : result Table :=
  match data with
  | [] => Return []
  | item :: data' =>
      normalized_item <- normalize_items item [] ;;
      normalized <- _normalize_contact_signals data' ;;
      Return (normalized_item :: normalized)
  end.

(** *** The calls to the model

    [ainvoke messages] stands for [(await self.llm.ainvoke(messages)).content]:
    the reply text, a [str], or the exception the call raised, an instance
    of [Exception] as [except Exception] catches them.  [str_of_table] is
    Python's [str()] of the table, as the prompt quotes it.  [settings] is
    the global of [config.py]. *)

Section LLMService.

Variable settings : Settings.
Variable ainvoke : list Message -> result string.
Variable str_of_table : Table -> string.

Definition classify_messages (user_prompt : string) : list Message :=
  [SystemMessage (classify_system_prompt settings.(INTENT_CATEGORIES));
   HumanMessage user_prompt].

Definition classify_intent (user_prompt : string) : result string :=
  try_except
    (content <- ainvoke (classify_messages user_prompt) ;;
     let intent := lower (strip content) in
     if negb (str_in intent settings.(INTENT_CATEGORIES))
     then py_first settings.(INTENT_CATEGORIES)
     else Return intent)
    (fun e => py_first settings.(INTENT_CATEGORIES)).

Definition full_prompt (user_prompt : string) (table_data : Table) : string :=
  "User request: " ++ user_prompt ++ "

Table data: " ++ str_of_table table_data.

Definition _filter_data (user_prompt : string) (table_data : Table)
  : result (value * value) :=
  let messages := [SystemMessage filter_system_prompt;
                   HumanMessage (full_prompt user_prompt table_data)] in
  content <- ainvoke messages ;;
  _parse_llm_response content table_data.

Definition transform_messages (user_prompt : string) (table_data : Table)
  : list Message :=
  [SystemMessage transform_system_prompt;
   HumanMessage (full_prompt user_prompt table_data)].

Definition _transform_data (user_prompt : string) (table_data : Table)
  : result (value * value) :=
  content <- ainvoke (transform_messages user_prompt table_data) ;;
  _parse_llm_response content table_data.

Definition _analyze_data (user_prompt : string) (table_data : Table)
  : result (value * value) :=
  let messages := [SystemMessage analyze_system_prompt;
                   HumanMessage (full_prompt user_prompt table_data)] in
  content <- ainvoke messages ;;
  _parse_llm_response content table_data.

Definition error_message (e : exn) : string :=
  "I encountered an error while processing your request: " ++ exn_str e.

(** Every request goes through [_transform_data]; [intent] is only logged. *)
Definition process_data (intent user_prompt : string) (table_data : Table)
  : result (value * value) :=
  try_except
    ('(ai_message, processed_data) <- _transform_data user_prompt table_data ;;
     Return (ai_message, processed_data))
    (fun e => Return (VStr (error_message e), of_table table_data)).

End LLMService.

(** ** The marker parser ([src/simple_test_parsing.py]) *)

Module simple_test_parsing.

Definition default_explanation : string := "Data processed successfully.".

(** The loop over [after_transformed[bracket_start:]]: [seen] is the part
    of the slice already read, [rest] the part to come.  Each time the
    count comes back to zero the text read so far is decoded; a
    [JSONDecodeError] is logged and the loop goes on, any other exception
    leaves the function. *)
Fixpoint scan_brackets (seen rest : string) (bracket_count : Z)
  : result (option value) :=
  match rest with
  | EmptyString => Return None
  | String char rest' =>
      let seen' := seen ++ str1 char in
      if Ascii.eqb char "[" then scan_brackets seen' rest' (bracket_count + 1)
      else if Ascii.eqb char "]" then
        let bracket_count := bracket_count - 1 in
        if bracket_count =? 0 then
          match json.loads seen' with
          | Return data => Return (Some data)
          | Raise e =>
              if String.eqb (exn_class e) "JSONDecodeError"
              then scan_brackets seen' rest' bracket_count
              else Raise e
          end
        else scan_brackets seen' rest' bracket_count
      else scan_brackets seen' rest' bracket_count
  end.

Definition parse_llm_response (response_content : string) (fallback_data : Table)
  : result (value * value) :=
  let explanation :=
    if contains "EXPLANATION:" response_content
    then strip (last_item (split "EXPLANATION:" response_content))
    else default_explanation in
  let data := of_table fallback_data in
  if contains "TRANSFORMED_DATA:" response_content then
    let after_transformed := item (split "TRANSFORMED_DATA:" response_content) 1 in
    match find_char "[" after_transformed with
    | Some bracket_start =>
        found <- scan_brackets "" (drop bracket_start after_transformed) 0 ;;
        match found with
        | Some parsed => Return (VStr explanation, parsed)
        | None => Return (VStr explanation, data)
        end
    | None => Return (VStr explanation, data)
    end
  else Return (VStr explanation, data).

End simple_test_parsing.

(** ** Vocabulary of the statements

    Notions the properties below are stated with; none of them is part of
    the program. *)

(** [r] is not [Exhausted], and when it is a value the text left over is
    shorter than [n]. *)
Definition short_of {A} (n : nat) (r : json.scanned A) : Prop :=
  match r with
  | json.Scanned _ rest => (String.length rest < n)%nat
  | json.Exhausted => False
  | _ => True
  end.

(** The class of the exception a computation raised, if it did. *)
Definition raised_class {A} (r : result A) : option string :=
  match r with
  | Raise e => Some (exn_class e)
  | Return _ => None
  end.

(** What [d.get(key)] yields. *)
Definition get_or_none (d : Dict) (key : string) : value :=
  match dict_lookup d key with
  | Some v => v
  | None => VNone
  end.

(** The value the chain of [or] picks on a decoded object. *)
Definition first_truthy (d : Dict) (fallback_data : Table) : value :=
  if truthy (get_or_none d "TRANSFORMED_DATA") then get_or_none d "TRANSFORMED_DATA"
  else if truthy (get_or_none d "FILTERED_DATA") then get_or_none d "FILTERED_DATA"
  else if truthy (get_or_none d "ANALYZED_DATA") then get_or_none d "ANALYZED_DATA"
  else of_table fallback_data.

Definition explanation_of (d : Dict) : value :=
  match dict_lookup d "EXPLANATION" with
  | Some v => v
  | None => VStr ""
  end.

(** The object the parser works on: the whole text decoded, or else its
    span from the first opening to the last closing brace decoded. *)
Definition decodes_to (raw : string) (d : Dict) : Prop :=
  json.loads raw = Return (VDict d) \/
  exists e group0,
    json.loads raw = Raise e /\
    re.search_braces raw = Some group0 /\
    json.loads group0 = Return (VDict d).

Definition keys (d : Dict) : list string := map fst d.

(** Every field of [d] is one the normaliser leaves as it is. *)
Definition stable (d : Dict) : Prop :=
  Forall (fun kv => normalize_field (fst kv) (snd kv) = Return (snd kv)) d.

(** [items'] holds the fields of [items], key by key in the same order,
    each value replaced by what [normalize_field] made of it. *)
Definition fieldwise (items items' : list (string * value)) : Prop :=
  Forall2 (fun kv kv' =>
             fst kv' = fst kv /\
             normalize_field (fst kv) (snd kv) = Return (snd kv'))
          items items'.

(** Some record holds a [confidence] that [int()] rejects. *)
Definition invalid_confidence (T : Table) : Prop :=
  exists row v,
    In row T /\ In ("confidence", v) row /\
    is_str_or_float v = true /\ raises (py_int v).

(** No proper, non-empty suffix of [sep] starts [sep]: two occurrences of
    such a separator cannot overlap. *)
Definition no_border (sep : string) : bool :=
  forallb (fun k => negb (String.prefix (drop k sep) sep))
          (seq 1 (String.length sep - 1)).

(** The array text as the specification isolates it: from an opening
    bracket, scan forward counting nested brackets until the count is back
    at zero.  [depth] is the count before [s]. *)
Fixpoint balanced_from (depth : nat) (s : string) : option string :=
  match s with
  | EmptyString => None
  | String c s' =>
      if Ascii.eqb c "[" then option_map (String c) (balanced_from (S depth) s')
      else if Ascii.eqb c "]" then
        match depth with
        | O => None
        | S O => Some (str1 c)
        | S d => option_map (String c) (balanced_from d s')
        end
      else option_map (String c) (balanced_from depth s')
  end.

(** Locate the marker, then the next opening bracket after it, then the
    balancing closing bracket. *)
Definition isolated_array (marker raw : string) : option string :=
  match partition marker raw with
  | Some (_, after) =>
      match find_char "[" after with
      | Some i => balanced_from 0 (drop i after)
      | None => None
      end
  | None => None
  end.

(** ** Sample data *)

Definition sample_table : Table :=
  [[("name", VStr "kabir")]; [("name", VStr "ivan")]].

Definition reply_with_string_confidence : string :=
  js "{'TRANSFORMED_DATA': [{'name': 'kabir', 'confidence': '80'}], 'EXPLANATION': 'scored'}".


Definition signals : Table :=
  [[("name", VStr "kabir"); ("confidence", VStr "80"); ("actionTaken", VStr "false")];
   [("confidence", VFloat 0.5); ("isNew", VInt 2); ("timestamp", VStr "2025-08-20T15:51:33.591Z")]].

Definition signals_normalized : Table :=
  [[("name", VStr "kabir"); ("confidence", VInt 80); ("actionTaken", VBool true)];
   [("confidence", VInt 0); ("isNew", VBool true); ("timestamp", VStr "2025-08-20T15:51:33.591Z")]].

Definition reply_with_marker : string :=
  js "Here is the result. TRANSFORMED_DATA: [{'name': 'kabir', 'tags': ['a', 'b']}] Hope this helps.".

Definition reply_with_filter_marker : string :=
  js "Here is the result. FILTERED_DATA: [{'name': 'kabir', 'tags': ['a', 'b']}] Hope this helps.".

Definition marker_array : string := js "[{'name': 'kabir', 'tags': ['a', 'b']}]".

Definition marker_records : value :=
  VList [VDict [("name", VStr "kabir"); ("tags", VList [VStr "a"; VStr "b"])]].

(** * Further code *)

(** ** Dictionaries of any value type *)

(** [key in d] and [d.get(key)] on the items of a dict. *)
Fixpoint dget {A} (d : list (string * A)) (key : string) : option A :=
  match d with
  | [] => None
  | (k, v) :: d' => if String.eqb k key then Some v else dget d' key
  end.

(** [d[key] = v] *)
Fixpoint dset {A} (d : list (string * A)) (key : string) (v : A) : list (string * A) :=
  match d with
  | [] => [(key, v)]
  | (k, w) :: d' =>
      if String.eqb k key then (k, v) :: d' else (k, w) :: dset d' key v
  end.

(** [del d[key]] for a key of [d]. *)
Fixpoint ddel {A} (d : list (string * A)) (key : string) : list (string * A) :=
  match d with
  | [] => []
  | (k, w) :: d' => if String.eqb k key then d' else (k, w) :: ddel d' key
  end.

(** ** White space beyond ASCII

    [str.strip] and the [\s] of a regular expression take off every
    character [str.isspace] accepts.  Outside ASCII these are U+0085,
    U+00A0, U+1680, U+2000 to U+200A, U+2028, U+2029, U+202F, U+205F and
    U+3000; in UTF-8 each is two or three bytes. *)

Definition byte_is (n : nat) (c : ascii) : bool := (nat_of_ascii c =? n)%nat.

Definition is_space2 (a b : ascii) : bool :=
  byte_is 194 a && (byte_is 133 b || byte_is 160 b).

Definition is_space3 (a b c : ascii) : bool :=
  let n := nat_of_ascii c in
  byte_is 225 a && byte_is 154 b && byte_is 128 c
  || byte_is 226 a && byte_is 128 b
     && ((128 <=? n) && (n <=? 138) || (n =? 168) || (n =? 169) || (n =? 175))%nat
  || byte_is 226 a && byte_is 129 b && byte_is 159 c
  || byte_is 227 a && byte_is 128 b && byte_is 128 c.

(** [s.lstrip()] *)
Fixpoint ulstrip (s : string) : string :=
  match s with
  | EmptyString => EmptyString
  | String a r =>
      if is_space a then ulstrip r
      else
        match r with
        | EmptyString => s
        | String b r' =>
            if is_space2 a b then ulstrip r'
            else
              match r' with
              | EmptyString => s
              | String c r'' => if is_space3 a b c then ulstrip r'' else s
              end
        end
  end.

(** [s.rstrip()]: the text is cut where nothing but white space follows.
    No character of UTF-8 ends with the bytes of another, so the test is
    right at every byte. *)
Fixpoint urstrip (s : string) : string :=
  match s with
  | EmptyString => EmptyString
  | String c s' =>
      match ulstrip s with
      | EmptyString => EmptyString
      | _ => String c (urstrip s')
      end
  end.

(** [s.strip()] *)
Definition ustrip (s : string) : string := urstrip (ulstrip s).

(** ** API keys and the rate limit ([src/app/security.py])

    [rate_limit_storage] is a module global: every function that touches it
    takes the storage and gives the storage back, also when it raises.  The
    clock enters [check_rate_limit] through [minute_window], the value of
    [int(time.time() // 60)], which is taken as an argument; being the
    integer part of a double it lies below [2^1024].  [rate_limit] stands
    for [settings.RATE_LIMIT_PER_MINUTE]. *)

Module security.

(** The counters of one key, by window, and the counters of all keys. *)
Definition Limits : Type := list (string * Z).
Definition Storage : Type := list (string * Limits).

(** Starlette's [HTTPException]; [str(e)] is the status and the detail. *)
Definition HTTPException (status_code : Z) (detail : string) : exn :=
  Exn "HTTPException" (str_of_Z status_code ++ ": " ++ detail).

Definition validate_api_key (api_key : option string) : bool :=
  match api_key with
  | None => false
  | Some k =>
      if String.eqb k "" then false
      else (0 <? String.length (ustrip k))%nat
  end.

(** The loop over [list(user_limits.keys())]: windows older than the one
    before the current are deleted.  [int(window)] may raise; what was
    deleted until then stays deleted. *)
Fixpoint clean_windows (windows : list string) (user_limits : Limits) (minute_window : Z)
  : Limits * result unit :=
  match windows with
  | [] => (user_limits, Return tt)
  | window :: windows' =>
      match int_of_str window with
      | Return w =>
          clean_windows windows'
            (if w <? minute_window - 1 then ddel user_limits window else user_limits)
            minute_window
      | Raise e => (user_limits, Raise e)
      end
  end.

Definition check_rate_limit
    (rate_limit : Z) (storage : Storage) (api_key : string) (minute_window : Z)
  : Storage * result bool :=
  let storage1 :=
    match dget storage api_key with
    | Some _ => storage
    | None => dset storage api_key []
    end in
  let user_limits :=
    match dget storage1 api_key with
    | Some l => l
    | None => []
    end in
  match clean_windows (map fst user_limits) user_limits minute_window with
  | (user_limits1, Raise e) => (dset storage1 api_key user_limits1, Raise e)
  | (user_limits1, Return _) =>
      let current_requests :=
        match dget user_limits1 (str_of_Z minute_window) with
        | Some n => n
        | None => 0
        end in
      if rate_limit <=? current_requests
      then (dset storage1 api_key user_limits1, Return false)
      else (dset storage1 api_key
              (dset user_limits1 (str_of_Z minute_window) (current_requests + 1)),
            Return true)
  end.

Definition get_api_key_from_header (header : option string) : option string :=
  match header with
  | None => None
  | Some h =>
      if String.eqb h "" then None
      else if String.prefix "Bearer " h then Some (drop 7 h)
      else Some h
  end.

Definition verify_api_key
    (rate_limit : Z) (storage : Storage) (api_key : option string) (minute_window : Z)
  : Storage * result string :=
  match api_key with
  | Some k =>
      if validate_api_key api_key then
        match check_rate_limit rate_limit storage k minute_window with
        | (storage', Return true) => (storage', Return k)
        | (storage', Return false) =>
            (storage', Raise (HTTPException 429 "Rate limit exceeded. Please try again later."))
        | (storage', Raise e) => (storage', Raise e)
        end
      else (storage, Raise (HTTPException 401 "Invalid or missing API key"))
  | None => (storage, Raise (HTTPException 401 "Invalid or missing API key"))
  end.

End security.

(** ** The endpoint ([src/app/routers/process.py])

    [POST /api/v1/process].  FastAPI has validated the request before the
    handler runs: [user_prompt] is a string of 1 to 1000 characters and
    [table_data] a list of dicts.  [api_key] is the [X-API-Key] header,
    [None] when the request has none.

    Three things of the handler lie outside the repository and are taken
    as they are: [ChatGoogleGenerativeAI], which builds the client whose
    [ainvoke] the service calls, or raises; [ProcessResponse], the pydantic
    constructor of the response model, which validates the message and the
    table, or raises; and the clock behind [minute_window].
    [GOOGLE_API_KEY] and [RATE_LIMIT_PER_MINUTE] are the settings of
    [config.py] of those names. *)

Module process.

Section Router.

Variable settings : Settings.
Variable GOOGLE_API_KEY : string.
Variable RATE_LIMIT_PER_MINUTE : Z.
Variable ChatGoogleGenerativeAI : string -> result (list Message -> result string).
Variable str_of_table : Table -> string.
Variable Response : Type.
Variable ProcessResponse : value -> value -> result Response.

(** [LLMService()], lines 17 to 26 of [llm_service.py]: the service is its
    client. *)
Definition LLMService : result (list Message -> result string) :=
  if String.eqb GOOGLE_API_KEY ""
  then Raise (Exn "ValueError" "GOOGLE_API_KEY is required")
  else ChatGoogleGenerativeAI GOOGLE_API_KEY.

Definition internal_server_error : exn :=
  security.HTTPException 500 "Internal server error occurred while processing your request".

Definition process_data
    (storage : security.Storage) (minute_window : Z)
    (user_prompt : string) (table_data : Table) (api_key : option string)
  : security.Storage * result Response :=
  let '(storage', verified) :=
    security.verify_api_key RATE_LIMIT_PER_MINUTE storage
      (security.get_api_key_from_header api_key) minute_window in
  (storage',
   try_except
     (_ <- verified ;;
      ainvoke <- LLMService ;;
      intent <- classify_intent settings ainvoke user_prompt ;;
      '(ai_message, processed_data) <-
         process_data ainvoke str_of_table intent user_prompt table_data ;;
      ProcessResponse ai_message processed_data)
     (fun e =>
        if String.eqb (exn_class e) "HTTPException" then Raise e
        else Raise internal_server_error)).

End Router.

End process.

(** ** Vocabulary of the further statements

    Notions the further properties are stated with; none of them is part
    of the program. *)

(** Nothing but white space, or nothing at all. *)
Definition blank (s : string) : Prop := ulstrip s = "".

(** A key of a counter dict as [check_rate_limit] writes it: [str(w)] of a
    window number whose decimal text [int()] takes back. *)
Definition window_key (key : string) : Prop :=
  exists w, key = str_of_Z w /\ Z.abs w < 10 ^ 4300.

(** The counters of one key: distinct window keys, each one written by
    [str()]. *)
Definition wf_limits (l : security.Limits) : Prop :=
  NoDup (map fst l) /\ Forall window_key (map fst l).

Definition wf_storage (storage : security.Storage) : Prop :=
  Forall (fun kl => wf_limits (snd kl)) storage.

(** [rate_limit_storage[api_key]], empty when the key was never seen. *)
Definition limits_of (storage : security.Storage) (api_key : string) : security.Limits :=
  match dget storage api_key with
  | Some l => l
  | None => []
  end.

(** The requests counted for [api_key] in window [w]. *)
Definition count_of (storage : security.Storage) (api_key : string) (w : Z) : Z :=
  match dget (limits_of storage api_key) (str_of_Z w) with
  | Some n => n
  | None => 0
  end.

(** The storages the process can be in: empty at import, then changed by
    [check_rate_limit] alone. *)
Inductive reachable (rate_limit : Z) : security.Storage -> Prop :=
| reachable_empty : reachable rate_limit []
| reachable_call (storage : security.Storage) (api_key : string) (minute_window : Z) :
    reachable rate_limit storage ->
    Z.abs minute_window < 10 ^ 4300 ->
    reachable rate_limit
      (fst (security.check_rate_limit rate_limit storage api_key minute_window)).

(** [n] calls of [check_rate_limit] for one key within one window: the
    storage after the last and the answers in order. *)
Fixpoint calls (rate_limit : Z) (storage : security.Storage) (api_key : string)
    (minute_window : Z) (n : nat) : security.Storage * list (result bool) :=
  match n with
  | O => (storage, [])
  | S n' =>
      let '(storage1, answer) :=
        security.check_rate_limit rate_limit storage api_key minute_window in
      let '(storage2, answers) := calls rate_limit storage1 api_key minute_window n' in
      (storage2, answer :: answers)
  end.

(** No key was sent, or one of white space only. *)
Definition missing (api_key : option string) : Prop :=
  match api_key with
  | None => True
  | Some k => blank k
  end.

Definition unauthorized : exn :=
  security.HTTPException 401 "Invalid or missing API key".

Definition too_many_requests : exn :=
  security.HTTPException 429 "Rate limit exceeded. Please try again later.".

(** The window of [key] lies before the one preceding [minute_window]. *)
Definition is_old (minute_window : Z) (key : string) : bool :=
  match int_of_str key with
  | Return w => w <? minute_window - 1
  | Raise _ => false
  end.

(** * Properties *)

(** ** Lists of strings *)

Lemma str_in_In (x : string) (xs : list string) : str_in x xs = true -> In x xs.
Proof.
  induction xs as [|y ys IH]; simpl; intros H.
  - discriminate H.
  - apply orb_true_iff in H. destruct H as [H|H].
    + left. symmetry. apply String.eqb_eq. exact H.
    + right. apply IH. exact H.
Qed.

(** ** The decoder's recursion budget *)

Lemma short_of_smap {A B} (f : A -> B) (n : nat) (r : json.scanned A) :
  short_of n r -> short_of n (json.smap f r).
Proof. destruct r; simpl; auto. Qed.

Lemma short_of_le {A} (n m : nat) (r : json.scanned A) :
  (n <= m)%nat -> short_of n r -> short_of m r.
Proof. destruct r; simpl; auto. lia. Qed.

Lemma skip_ws_length (s : string) :
  (String.length (json.skip_ws s) <= String.length s)%nat.
Proof.
  induction s as [|c s IH]; simpl; [lia|].
  destruct (json.is_ws c); simpl; lia.
Qed.

Lemma scanstring_short (n : nat) :
  forall s start,
    (String.length s <= n)%nat ->
    short_of (String.length s) (json.scanstring start s).
Proof.
  induction n as [|n IH]; intros s start Hn.
  - destruct s; [exact I | simpl in Hn; lia].
  - assert (Hrec : forall bytes t,
               (String.length t < String.length s)%nat ->
               short_of (String.length s) (json.push bytes (json.scanstring start t))).
    { intros bytes t Ht. apply short_of_smap.
      apply (short_of_le (String.length t)); [lia|]. apply IH. lia. }
    destruct s as [|c r]; [exact I|].
    simpl json.scanstring.
    destruct (Ascii.eqb c dq); [simpl; lia|].
    destruct (Ascii.eqb c "\").
    + destruct r as [|e r']; [exact I|].
      destruct (Ascii.eqb e "u").
      * destruct r' as [|a [|b [|h [|d [|x y]]]]]; try exact I.
        destruct (json.hex4 a b h d) as [hi|]; [|exact I].
        assert (Hlone : short_of (String.length (String c (String e (String a
                          (String b (String h (String d (String x y))))))))
                          (json.push (json.utf8 hi) (json.scanstring start (String x y))))
          by (apply Hrec; simpl; lia).
        destruct y as [|u [|a2 [|b2 [|h2 [|d2 [|x2 y2]]]]]]; try exact Hlone.
        destruct (Ascii.eqb x "\" && Ascii.eqb u "u"); [|exact Hlone].
        destruct (json.hex4 a2 b2 h2 d2) as [lo|]; [|exact Hlone].
        destruct (json.is_high_surrogate hi && json.is_low_surrogate lo); [|exact Hlone].
        apply Hrec. simpl. lia.
      * destruct (json.simple_escape e); [|exact I].
        apply Hrec. simpl. lia.
    + destruct (nat_of_ascii c <? 32)%nat; [exact I|].
      apply Hrec. simpl. lia.
Qed.

Lemma span_digits_length (s : string) :
  (String.length (snd (json.span_digits s)) <= String.length s)%nat.
Proof.
  induction s as [|c s IH]; simpl; [lia|].
  destruct (is_digit c); simpl; [|lia].
  destruct (json.span_digits s) as [ds rest]. simpl in *. lia.
Qed.

Lemma match_fraction_length (s : string) :
  (String.length (snd (json.match_fraction s)) <= String.length s)%nat.
Proof.
  destruct s as [|c r]; simpl; [lia|].
  destruct (Ascii.eqb c "."); simpl; [|lia].
  pose proof (span_digits_length r) as H.
  destruct (json.span_digits r) as [[|d ds] rest]; simpl in *; lia.
Qed.

Lemma match_exponent_length (s : string) :
  (String.length (snd (json.match_exponent s)) <= String.length s)%nat.
Proof.
  destruct s as [|e r]; simpl; [lia|].
  destruct (Ascii.eqb e "e" || Ascii.eqb e "E"); simpl; [|lia].
  assert (H : forall (eneg : bool) r1,
             (String.length r1 <= String.length r)%nat ->
             (String.length
                (snd (match json.span_digits r1 with
                      | (EmptyString, _) => (@None (bool * string), String e r)
                      | (es, r') => (Some (eneg, es), r')
                      end)) <= S (String.length r))%nat).
  { intros eneg r1 Hr1. pose proof (span_digits_length r1) as H.
    destruct (json.span_digits r1) as [[|d ds] rest]; simpl in *; lia. }
  destruct r as [|sg r']; simpl.
  - lia.
  - destruct (Ascii.eqb sg "-").
    + apply (H true r'). simpl. lia.
    + destruct (Ascii.eqb sg "+").
      * apply (H false r'). simpl. lia.
      * apply (H false (String sg r')). simpl. lia.
Qed.

Lemma match_number_short (s : string) (n : json.number) (rest : string) :
  json.match_number s = Some (n, rest) ->
  (String.length rest < String.length s)%nat.
Proof.
  unfold json.match_number.
  assert (Hint : forall s1 ip s2,
             match s1 with
             | String c r =>
                 if Ascii.eqb c "0" then Some ("0", r)
                 else if is_digit c then Some (json.span_digits s1) else None
             | EmptyString => None
             end = Some (ip, s2) ->
             (String.length s2 < String.length s1)%nat).
  { intros s1 ip s2. destruct s1 as [|c r]; [discriminate|].
    destruct (Ascii.eqb c "0"); [intros H; injection H as _ <-; simpl; lia|].
    destruct (is_digit c) eqn:Hd; [|discriminate].
    simpl. rewrite Hd. pose proof (span_digits_length r) as Hs.
    destruct (json.span_digits r) as [ds rest']. simpl in Hs.
    intros H. injection H as _ <-. simpl. lia. }
  assert (Htail : forall neg s1 ip s2,
             (String.length s2 < String.length s1)%nat ->
             (let '(frac, s3) := json.match_fraction s2 in
              let '(ex, s4) := json.match_exponent s3 in
              Some (json.Number neg ip frac ex, s4)) = Some (n, rest) ->
             (String.length rest < String.length s1)%nat).
  { intros neg s1 ip s2 Hlt.
    pose proof (match_fraction_length s2) as Hf.
    destruct (json.match_fraction s2) as [frac s3]. simpl in Hf.
    pose proof (match_exponent_length s3) as He.
    destruct (json.match_exponent s3) as [ex s4]. simpl in He.
    intros H. injection H as _ <-. lia. }
  destruct s as [|c r].
  - discriminate.
  - destruct (Ascii.eqb c "-").
    + destruct (match r with
                | String c0 r0 =>
                    if Ascii.eqb c0 "0" then Some ("0", r0)
                    else if is_digit c0 then Some (json.span_digits r) else None
                | EmptyString => None
                end) as [[ip s2]|] eqn:Hip; [|discriminate].
      intros H. apply (Hint r) in Hip.
      apply (Htail true r ip s2 Hip) in H. simpl. lia.
    + destruct (match String c r with
                | String c0 r0 =>
                    if Ascii.eqb c0 "0" then Some ("0", r0)
                    else if is_digit c0 then Some (json.span_digits (String c r)) else None
                | EmptyString => None
                end) as [[ip s2]|] eqn:Hip; [|discriminate].
      intros H. apply (Hint (String c r)) in Hip.
      apply (Htail false (String c r) ip s2 Hip) in H. exact H.
Qed.

Lemma number_value_short (k : nat) (n : json.number) (rest : string) :
  (String.length rest < k)%nat -> short_of k (json.number_value n rest).
Proof.
  intros H. unfold json.number_value.
  destruct (json.num_frac n); [exact H|].
  destruct (json.num_exp n); [exact H|].
  destruct (int_max_str_digits <? String.length (json.num_int n))%nat; [exact I|exact H].
Qed.

Lemma prefix_drop_length (p s : string) :
  String.prefix p s = true ->
  (String.length (drop (String.length p) s) + String.length p = String.length s)%nat.
Proof.
  revert s. induction p as [|a p IH]; intros s; simpl.
  - intros _. destruct s; simpl; lia.
  - destruct s as [|b s]; simpl; intros H; [discriminate H|].
    destruct (ascii_dec a b); [|discriminate H].
    apply IH in H. lia.
Qed.

Section ContainerBudget.

Variable scan : string -> json.scanned value.
Variable bound : nat.
Hypothesis scan_short :
  forall s, (String.length s < bound)%nat -> short_of (String.length s) (scan s).

Lemma array_items_short (n : nat) :
  forall s,
    (String.length s < n)%nat -> (String.length s < bound)%nat ->
    short_of (String.length s) (json.array_items scan n s).
Proof.
  induction n as [|n IH]; intros s Hn Hb; [lia|].
  simpl. pose proof (scan_short s Hb) as Hs.
  destruct (scan s) as [v rest| | |]; try exact Hs. simpl in Hs.
  pose proof (skip_ws_length rest) as Hw.
  destruct (json.skip_ws rest) as [|c r]; [exact I|]. simpl in Hw.
  destruct (Ascii.eqb c "]"); [simpl; lia|].
  destruct (Ascii.eqb c ","); [|exact I].
  apply short_of_smap. pose proof (skip_ws_length r) as Hw'.
  apply (short_of_le (String.length (json.skip_ws r))); [lia|].
  apply IH; lia.
Qed.

Lemma JSONArray_short (n : nat) (s : string) :
  (String.length s < n)%nat -> (String.length s < bound)%nat ->
  short_of (S (String.length s)) (json.JSONArray scan n s).
Proof.
  intros Hn Hb. unfold json.JSONArray.
  pose proof (skip_ws_length s) as Hw.
  destruct (json.skip_ws s) as [|c r] eqn:Hs.
  - apply short_of_smap. apply (short_of_le (String.length "")); [simpl; lia|].
    apply array_items_short; simpl; lia.
  - simpl in Hw. destruct (Ascii.eqb c "]"); [simpl; lia|].
    apply short_of_smap. apply (short_of_le (String.length (String c r))); [simpl; lia|].
    apply array_items_short; simpl; lia.
Qed.

Lemma object_pairs_short (n : nat) :
  forall s,
    (String.length s < n)%nat -> (String.length s < bound)%nat ->
    short_of (String.length s) (json.object_pairs scan n s).
Proof.
  induction n as [|n IH]; intros s Hn Hb; [lia|].
  simpl. destruct s as [|c r]; [exact I|].
  destruct (Ascii.eqb c dq); [|exact I].
  pose proof (scanstring_short (String.length r) r (String c r) (le_n _)) as Hk.
  destruct (json.scanstring (String c r) r) as [key rest| | |]; try exact Hk. simpl in Hk.
  pose proof (skip_ws_length rest) as Hw.
  destruct (json.skip_ws rest) as [|c1 r1]; [exact I|]. simpl in Hw.
  destruct (Ascii.eqb c1 ":"); [|exact I].
  pose proof (skip_ws_length r1) as Hw1.
  assert (Hb1 : (String.length (json.skip_ws r1) < bound)%nat) by (simpl in Hb; lia).
  pose proof (scan_short _ Hb1) as Hv.
  destruct (scan (json.skip_ws r1)) as [v rest2| | |]; try exact Hv. simpl in Hv.
  pose proof (skip_ws_length rest2) as Hw2.
  destruct (json.skip_ws rest2) as [|c2 r2]; [exact I|]. simpl in Hw2.
  destruct (Ascii.eqb c2 "}"); [simpl; lia|].
  destruct (Ascii.eqb c2 ","); [|exact I].
  apply short_of_smap. pose proof (skip_ws_length r2) as Hw3.
  apply (short_of_le (String.length (json.skip_ws r2))); [simpl; lia|].
  apply IH; simpl in *; lia.
Qed.

Lemma JSONObject_short (n : nat) (s : string) :
  (String.length s < n)%nat -> (String.length s < bound)%nat ->
  short_of (S (String.length s)) (json.JSONObject scan n s).
Proof.
  intros Hn Hb. unfold json.JSONObject.
  pose proof (skip_ws_length s) as Hw.
  destruct (json.skip_ws s) as [|c r] eqn:Hs.
  - apply short_of_smap. apply (short_of_le (String.length "")); [simpl; lia|].
    apply object_pairs_short; simpl; lia.
  - simpl in Hw. destruct (Ascii.eqb c "}"); [simpl; lia|].
    apply short_of_smap. apply (short_of_le (String.length (String c r))); [simpl; lia|].
    apply object_pairs_short; simpl; lia.
Qed.

End ContainerBudget.

(** With more fuel than characters a value is scanned to the end: the
    budget is never what stops the decoder. *)
Lemma scan_once_short (fuel : nat) :
  forall s,
    (String.length s < fuel)%nat ->
    short_of (String.length s) (json.scan_once fuel s).
Proof.
  induction fuel as [|fuel IH]; intros s Hf; [lia|].
  simpl. destruct s as [|c r]; [exact I|]. simpl in Hf.
  destruct (Ascii.eqb c dq).
  { apply short_of_smap. apply (short_of_le (String.length r)); [simpl; lia|].
    apply (scanstring_short (String.length r)). lia. }
  destruct (Ascii.eqb c "{").
  { apply (JSONObject_short (json.scan_once fuel) fuel IH); lia. }
  destruct (Ascii.eqb c "[").
  { apply (JSONArray_short (json.scan_once fuel) fuel IH); lia. }
  assert (Hlit : forall p, String.prefix p (String c r) = true ->
                 (0 < String.length p)%nat ->
                 (String.length (drop (String.length p) (String c r))
                  < String.length (String c r))%nat).
  { intros p Hp Hlen. pose proof (prefix_drop_length p _ Hp). lia. }
  destruct (String.prefix "null" (String c r)) eqn:H1.
  { apply (Hlit "null" H1). simpl. lia. }
  destruct (String.prefix "true" (String c r)) eqn:H2.
  { apply (Hlit "true" H2). simpl. lia. }
  destruct (String.prefix "false" (String c r)) eqn:H3.
  { apply (Hlit "false" H3). simpl. lia. }
  destruct (String.prefix "NaN" (String c r)) eqn:H4.
  { apply (Hlit "NaN" H4). simpl. lia. }
  destruct (String.prefix "Infinity" (String c r)) eqn:H5.
  { apply (Hlit "Infinity" H5). simpl. lia. }
  destruct (String.prefix "-Infinity" (String c r)) eqn:H6.
  { apply (Hlit "-Infinity" H6). simpl. lia. }
  destruct (json.match_number (String c r)) as [[n rest]|] eqn:Hn; [|exact I].
  apply number_value_short. apply (match_number_short _ _ _ Hn).
Qed.

(** [json.loads] never fails for want of fuel. *)
Lemma loads_within_budget (s : string) :
  json.scan_once (S (String.length s)) (json.skip_ws s) <> json.Exhausted.
Proof.
  pose proof (skip_ws_length s) as Hw.
  pose proof (scan_once_short (S (String.length s)) (json.skip_ws s)) as H.
  intros He. rewrite He in H. apply H. lia.
Qed.

Lemma JSONDecodeError_class (msg doc rest : string) :
  exn_class (json.JSONDecodeError msg doc rest) = "JSONDecodeError".
Proof.
  unfold json.JSONDecodeError.
  destruct (json.line_col _ _ _) as [line col]. reflexivity.
Qed.

(** What [json.loads] raises is a [JSONDecodeError], or the [ValueError]
    of the digit limit. *)
Lemma loads_raised_class (s : string) :
  raised_class (json.loads s) = None \/
  raised_class (json.loads s) = Some "JSONDecodeError" \/
  raised_class (json.loads s) = Some "ValueError".
Proof.
  unfold json.loads.
  destruct (String.prefix json.BOM s).
  { right. left. simpl. rewrite JSONDecodeError_class. reflexivity. }
  pose proof (loads_within_budget s) as Hb.
  destruct (json.scan_once (S (String.length s)) (json.skip_ws s))
    as [v rest|msg at_|k|].
  - destruct (json.skip_ws rest).
    + left. reflexivity.
    + right. left. simpl. rewrite JSONDecodeError_class. reflexivity.
  - right. left. simpl. rewrite JSONDecodeError_class. reflexivity.
  - right. right. reflexivity.
  - contradiction.
Qed.

(** ** Intent classification *)

Section ClassifyIntent.

Variable settings : Settings.
Variable ainvoke : list Message -> result string.

(** With an empty category list even the fallback fails: the handler's own
    [INTENT_CATEGORIES[0]] raises. *)
Lemma classify_intent_no_categories (user_prompt : string) :
  settings.(INTENT_CATEGORIES) = [] ->
  classify_intent settings ainvoke user_prompt
  = Raise (Exn "IndexError" "list index out of range").
Proof.
  intros Hc. unfold classify_intent. rewrite Hc.
  destruct (ainvoke _) as [content|e]; reflexivity.
Qed.

(** C7. With a non-empty category list, [classify_intent] returns normally
    for every instruction and every behaviour of the model, and what it
    returns is a member of the list: the first category when the call
    raised, when the trimmed and lowercased reply is not a member, and when
    that reply is empty (no category being the empty string); the
    normalised reply itself when it is a member. *)
Theorem classify_intent_defaults
    (user_prompt first : string) (others : list string) :
  settings.(INTENT_CATEGORIES) = first :: others ->
  exists category,
    classify_intent settings ainvoke user_prompt = Return category /\
    In category settings.(INTENT_CATEGORIES) /\
    (forall e,
        ainvoke (classify_messages settings user_prompt) = Raise e ->
        category = first) /\
    (forall content,
        ainvoke (classify_messages settings user_prompt) = Return content ->
        str_in (lower (strip content)) settings.(INTENT_CATEGORIES) = false ->
        category = first) /\
    (forall content,
        ainvoke (classify_messages settings user_prompt) = Return content ->
        lower (strip content) = "" ->
        str_in "" settings.(INTENT_CATEGORIES) = false ->
        category = first) /\
    (forall content,
        ainvoke (classify_messages settings user_prompt) = Return content ->
        str_in (lower (strip content)) settings.(INTENT_CATEGORIES) = true ->
        category = lower (strip content)).
Proof.
  intros Hc.
  assert (Hfirst : py_first settings.(INTENT_CATEGORIES) = Return first)
    by (rewrite Hc; reflexivity).
  assert (Hmem : In first settings.(INTENT_CATEGORIES))
    by (rewrite Hc; left; reflexivity).
  unfold classify_intent.
  destruct (ainvoke (classify_messages settings user_prompt)) as [content|e] eqn:Hcall.
  - simpl.
    destruct (str_in (lower (strip content)) settings.(INTENT_CATEGORIES)) eqn:Hin; simpl.
    + exists (lower (strip content)). split; [reflexivity|].
      split; [apply str_in_In; exact Hin|].
      split; [intros e He; discriminate He|].
      split; [intros c Hr Hn; injection Hr as Hr; subst c;
              rewrite Hin in Hn; discriminate Hn|].
      split; [intros c Hr Hempty Hn; injection Hr as Hr; subst c;
              rewrite Hempty, Hn in Hin; discriminate Hin|].
      intros c Hr _. injection Hr as Hr. subst c. reflexivity.
    + rewrite Hfirst. exists first. split; [reflexivity|].
      split; [exact Hmem|].
      split; [reflexivity|].
      split; [reflexivity|].
      split; [reflexivity|].
      intros c Hr Hm. injection Hr as Hr. subst c.
      rewrite Hin in Hm. discriminate Hm.
  - simpl. rewrite Hfirst. exists first. split; [reflexivity|].
    split; [exact Hmem|].
    split; [reflexivity|].
    split; [reflexivity|].
    split; [reflexivity|].
    intros c Hr. discriminate Hr.
Qed.

End ClassifyIntent.

(** With the category list of [config.py], which has one element, every
    instruction is classified as that category. *)
Lemma classify_intent_configured
    (ainvoke : list Message -> result string) (user_prompt : string) :
  classify_intent config.settings ainvoke user_prompt = Return "data_transformation".
Proof.
  unfold classify_intent.
  destruct (ainvoke (classify_messages config.settings user_prompt)) as [content|e];
    simpl; [|reflexivity].
  destruct (String.eqb (lower (strip content)) "data_transformation") eqn:H; simpl.
  - apply String.eqb_eq in H. rewrite H. reflexivity.
  - reflexivity.
Qed.

Lemma classify_intent_defaults_witness :
  config.settings.(INTENT_CATEGORIES) = "data_transformation" :: [] /\
  exists category,
    classify_intent config.settings (fun _ => Return "  Summarise it ") "summarise the table"
    = Return category /\
    In category config.settings.(INTENT_CATEGORIES) /\
    (forall e,
        (fun _ : list Message => Return "  Summarise it ")
          (classify_messages config.settings "summarise the table") = Raise e ->
        category = "data_transformation") /\
    (forall content,
        (fun _ : list Message => Return "  Summarise it ")
          (classify_messages config.settings "summarise the table") = Return content ->
        str_in (lower (strip content)) config.settings.(INTENT_CATEGORIES) = false ->
        category = "data_transformation") /\
    (forall content,
        (fun _ : list Message => Return "  Summarise it ")
          (classify_messages config.settings "summarise the table") = Return content ->
        lower (strip content) = "" ->
        str_in "" config.settings.(INTENT_CATEGORIES) = false ->
        category = "data_transformation") /\
    (forall content,
        (fun _ : list Message => Return "  Summarise it ")
          (classify_messages config.settings "summarise the table") = Return content ->
        str_in (lower (strip content)) config.settings.(INTENT_CATEGORIES) = true ->
        category = lower (strip content)).
Proof.
  split; [reflexivity|].
  apply (classify_intent_defaults config.settings (fun _ => Return "  Summarise it ")
           "summarise the table" "data_transformation" []).
  reflexivity.
Defined.

(** ** The processing stage *)

Section ProcessData.

Variable ainvoke : list Message -> result string.
Variable str_of_table : Table -> string.

Lemma transform_data_invocation_error
    (user_prompt : string) (table_data : Table) (e : exn) :
  ainvoke (transform_messages str_of_table user_prompt table_data) = Raise e ->
  _transform_data ainvoke str_of_table user_prompt table_data = Raise e.
Proof. intros H. unfold _transform_data. rewrite H. reflexivity. Qed.

Lemma transform_data_reply
    (user_prompt : string) (table_data : Table) (content : string) :
  ainvoke (transform_messages str_of_table user_prompt table_data) = Return content ->
  _transform_data ainvoke str_of_table user_prompt table_data
  = _parse_llm_response content table_data.
Proof. intros H. unfold _transform_data. rewrite H. reflexivity. Qed.

Lemma process_data_handler
    (intent user_prompt : string) (table_data : Table) (e : exn) :
  _transform_data ainvoke str_of_table user_prompt table_data = Raise e ->
  process_data ainvoke str_of_table intent user_prompt table_data
  = Return (VStr (error_message e), of_table table_data).
Proof. intros H. unfold process_data. rewrite H. reflexivity. Qed.

Lemma process_data_pass
    (intent user_prompt : string) (table_data : Table) (r : value * value) :
  _transform_data ainvoke str_of_table user_prompt table_data = Return r ->
  process_data ainvoke str_of_table intent user_prompt table_data = Return r.
Proof. intros H. unfold process_data. rewrite H. destruct r. reflexivity. Qed.

(** [process_data] itself never raises. *)
Lemma process_data_returns (intent user_prompt : string) (table_data : Table) :
  returns (process_data ainvoke str_of_table intent user_prompt table_data).
Proof.
  destruct (_transform_data ainvoke str_of_table user_prompt table_data) as [r|e] eqn:H.
  - exists r. apply process_data_pass. exact H.
  - eexists. apply process_data_handler. exact H.
Qed.

(** C6. Whatever exception the processing stage raises, be it the model
    call that failed or the parsing of its reply, [process_data] returns
    the message "I encountered an error while processing your request: "
    followed by the text of that exception, and with it the input table
    itself, row for row. *)
Theorem process_data_failure
    (intent user_prompt : string) (table_data : Table) (e : exn) :
  (ainvoke (transform_messages str_of_table user_prompt table_data) = Raise e \/
   exists content,
     ainvoke (transform_messages str_of_table user_prompt table_data) = Return content /\
     _parse_llm_response content table_data = Raise e) ->
  process_data ainvoke str_of_table intent user_prompt table_data
  = Return (VStr ("I encountered an error while processing your request: " ++ exn_str e),
            of_table table_data).
Proof.
  intros [Hcall | [content [Hcall Hparse]]]; apply process_data_handler.
  - apply transform_data_invocation_error. exact Hcall.
  - rewrite (transform_data_reply _ _ _ Hcall). exact Hparse.
Qed.

(** C3, as the code has it.  When the model call returns a reply and the
    parser returns an explanation and records for it, [process_data]
    returns exactly that pair: the records are the extracted ones, and no
    normalisation step stands between extraction and the result. *)
Theorem process_data_returns_extracted
    (intent user_prompt : string) (table_data : Table)
    (content : string) (explanation records : value) :
  ainvoke (transform_messages str_of_table user_prompt table_data) = Return content ->
  _parse_llm_response content table_data = Return (explanation, records) ->
  process_data ainvoke str_of_table intent user_prompt table_data
  = Return (explanation, records).
Proof.
  intros Hcall Hparse. apply process_data_pass.
  rewrite (transform_data_reply _ _ _ Hcall). exact Hparse.
Qed.

End ProcessData.

Lemma process_data_failure_witness :
  process_data (fun _ => Raise (Exn "TimeoutError" "deadline exceeded")) (fun _ => "")
    "data_transformation" "categorize by likely nationality" sample_table
  = Return (VStr "I encountered an error while processing your request: deadline exceeded",
            of_table sample_table).
Proof.
  apply (process_data_failure
           (fun _ => Raise (Exn "TimeoutError" "deadline exceeded")) (fun _ => "")
           "data_transformation" "categorize by likely nationality" sample_table
           (Exn "TimeoutError" "deadline exceeded")).
  left. reflexivity.
Defined.

Lemma process_data_returns_extracted_witness :
  process_data (fun _ => Return reply_with_string_confidence) (fun _ => "")
    "data_transformation" "score each contact" sample_table
  = Return (VStr "scored",
            VList [VDict [("name", VStr "kabir"); ("confidence", VStr "80")]]).
Proof.
  apply (process_data_returns_extracted
           (fun _ => Return reply_with_string_confidence) (fun _ => "")
           "data_transformation" "score each contact" sample_table
           reply_with_string_confidence).
  - reflexivity.
  - vm_compute. reflexivity.
Defined.

(** C3 as stated fails: the reply below parses into a record whose
    [confidence] is the string "80"; [process_data] hands that record out,
    while the normaliser would have turned the field into the integer 80. *)
Lemma process_data_skips_normalizer :
  let extracted := [[("name", VStr "kabir"); ("confidence", VStr "80")]] in
  let normalized := [[("name", VStr "kabir"); ("confidence", VInt 80)]] in
  _parse_llm_response reply_with_string_confidence sample_table
  = Return (VStr "scored", of_table extracted) /\
  _normalize_contact_signals extracted = Return normalized /\
  process_data (fun _ => Return reply_with_string_confidence) (fun _ => "")
    "data_transformation" "score each contact" sample_table
  = Return (VStr "scored", of_table extracted) /\
  of_table extracted <> of_table normalized.
Proof.
  repeat split; try (vm_compute; reflexivity).
  intros H. discriminate H.
Qed.

(** ** The response parser *)

Lemma py_get_dict (d : Dict) (key : string) :
  py_get (VDict d) key VNone = Return (get_or_none d key).
Proof. unfold py_get, get_or_none. destruct (dict_lookup d key); reflexivity. Qed.

Lemma extract_keys_dict (d : Dict) (fallback_data : Table) :
  extract_keys (VDict d) fallback_data
  = Return (explanation_of d, first_truthy d fallback_data).
Proof.
  unfold extract_keys, first_truthy, explanation_of.
  rewrite !py_get_dict. unfold py_or. simpl.
  destruct (truthy (get_or_none d "TRANSFORMED_DATA")); simpl.
  - destruct (dict_lookup d "EXPLANATION"); reflexivity.
  - destruct (truthy (get_or_none d "FILTERED_DATA")); simpl.
    + destruct (dict_lookup d "EXPLANATION"); reflexivity.
    + destruct (truthy (get_or_none d "ANALYZED_DATA")); simpl;
        destruct (dict_lookup d "EXPLANATION"); reflexivity.
Qed.

(** Only a dict has [get]: any other decoded value makes the parser raise. *)
Lemma extract_keys_not_dict (jsonData : value) (fallback_data : Table) :
  (forall d, jsonData <> VDict d) ->
  extract_keys jsonData fallback_data = Raise (AttributeError jsonData "get").
Proof.
  intros H. destruct jsonData; try reflexivity.
  exfalso. apply (H items). reflexivity.
Qed.

Lemma parse_llm_response_decoded (raw : string) (fallback_data : Table) (d : Dict) :
  decodes_to raw d ->
  _parse_llm_response raw fallback_data
  = Return (explanation_of d, first_truthy d fallback_data).
Proof.
  unfold _parse_llm_response.
  intros [H | [e [g [H1 [H2 H3]]]]].
  - rewrite H. apply extract_keys_dict.
  - rewrite H1, H2, H3. simpl. apply extract_keys_dict.
Qed.

(** The fallback that does hold: a text that is not JSON and has no brace
    span comes back as the fixed message and the fallback table itself. *)
Lemma parse_llm_response_fallback (raw : string) (fallback_data : Table) (e : exn) :
  json.loads raw = Raise e ->
  re.search_braces raw = None ->
  _parse_llm_response raw fallback_data
  = Return (VStr "Could not parse LLM response as JSON.", of_table fallback_data).
Proof.
  intros H1 H2. unfold _parse_llm_response. rewrite H1, H2. reflexivity.
Qed.

(** Data under the first key is handed out when it is truthy. *)
Lemma parse_llm_response_data (raw : string) (fallback_data : Table) (d : Dict) (v : value) :
  decodes_to raw d ->
  dict_lookup d "TRANSFORMED_DATA" = Some v ->
  truthy v = true ->
  _parse_llm_response raw fallback_data = Return (explanation_of d, v).
Proof.
  intros Hd Hl Ht. rewrite (parse_llm_response_decoded _ _ _ Hd).
  unfold first_truthy, get_or_none. rewrite Hl, Ht. reflexivity.
Qed.

(** When the parser returns and when it raises. *)
Lemma parse_llm_response_returns_iff (raw : string) (fallback_data : Table) :
  returns (_parse_llm_response raw fallback_data) <->
  (exists d, decodes_to raw d) \/
  ((exists e, json.loads raw = Raise e) /\ re.search_braces raw = None).
Proof.
  split.
  - intros [r H]. unfold _parse_llm_response in H.
    destruct (json.loads raw) as [jsonData|e] eqn:Hl.
    + left. destruct jsonData; try discriminate H.
      exists items. left. exact Hl.
    + destruct (re.search_braces raw) as [g|] eqn:Hs.
      * left. destruct (json.loads g) as [jsonData|e'] eqn:Hg; simpl in H;
          [|discriminate H].
        destruct jsonData; try discriminate H.
        exists items. right. exists e, g.
        split; [exact Hl|]. split; [exact Hs|exact Hg].
      * right. split; [exists e; reflexivity|reflexivity].
  - intros [[d Hd] | [[e He] Hs]].
    + eexists. apply (parse_llm_response_decoded _ _ _ Hd).
    + eexists. apply (parse_llm_response_fallback _ _ e He Hs).
Qed.

(** C1, where the code departs from it.  The parser raises on replies a
    model can send: a brace span that is not JSON (the second [json.loads]
    is outside the [try]), a JSON document that is not an object (a list
    has no [get]), and the marker format with two records (the brace span
    then holds two objects). *)
Theorem parse_llm_response_raises (fallback_data : Table) :
  _parse_llm_response "{bad}" fallback_data
  = Raise (Exn "JSONDecodeError"
             "Expecting property name enclosed in double quotes: line 1 column 2 (char 1)") /\
  _parse_llm_response "[1, 2]" fallback_data
  = Raise (Exn "AttributeError" "'list' object has no attribute 'get'") /\
  _parse_llm_response
    (js "FILTERED_DATA: [{'name': 'kabir'}, {'name': 'ivan'}]") fallback_data
  = Raise (Exn "JSONDecodeError" "Extra data: line 1 column 18 (char 17)").
Proof. repeat split; vm_compute; reflexivity. Qed.

(** C4, where the code departs from it.  An empty array under
    [TRANSFORMED_DATA] is falsy, so the chain of [or] passes over it and
    ends at the fallback table: the records returned are the caller's
    table, not the empty array. *)
Theorem parse_llm_response_empty_array (fallback_data : Table) :
  json.loads (js "{'TRANSFORMED_DATA': [], 'EXPLANATION': 'none matched'}")
  = Return (VDict [("TRANSFORMED_DATA", VList []); ("EXPLANATION", VStr "none matched")]) /\
  _parse_llm_response
    (js "{'TRANSFORMED_DATA': [], 'EXPLANATION': 'none matched'}") fallback_data
  = Return (VStr "none matched", of_table fallback_data).
Proof. split; vm_compute; reflexivity. Qed.




(** ** The type normaliser *)

(** *** One field *)

Lemma normalize_field_raises (key : string) (v : value) (e : exn) :
  normalize_field key v = Raise e ->
  key = "confidence" /\ is_str_or_float v = true /\ py_int v = Raise e.
Proof.
  unfold normalize_field.
  destruct (String.eqb key "confidence") eqn:Hk.
  - apply String.eqb_eq in Hk.
    destruct (is_str_or_float v); intros H.
    + repeat split; assumption.
    + discriminate H.
  - destruct (str_in key ["actionTaken"; "isNew"]).
    + intros H. discriminate H.
    + destruct (String.eqb key "timestamp" && is_str v); intros H; discriminate H.
Qed.

Lemma normalize_field_confidence (v : value) :
  normalize_field "confidence" v = if is_str_or_float v then py_int v else Return v.
Proof. reflexivity. Qed.

(** A field that came out of the normaliser goes through it unchanged. *)
Lemma normalize_field_idempotent (key : string) (v v' : value) :
  normalize_field key v = Return v' -> normalize_field key v' = Return v'.
Proof.
  unfold normalize_field.
  destruct (String.eqb key "confidence").
  - destruct v; simpl; intros H; try (injection H as <-; reflexivity).
    + destruct (int_of_float f); simpl in H; [injection H as <-; reflexivity | discriminate H].
    + destruct (int_of_str s); simpl in H; [injection H as <-; reflexivity | discriminate H].
  - destruct (str_in key ["actionTaken"; "isNew"]).
    + destruct v; simpl; intros H; injection H as <-; reflexivity.
    + destruct (String.eqb key "timestamp" && is_str v) eqn:Ht;
        intros H; injection H as <-.
      * unfold py_str. rewrite Ht. reflexivity.
      * rewrite Ht. reflexivity.
Qed.

(** *** One record *)

Lemma dict_set_fresh (d : Dict) (key : string) (v : value) :
  ~ In key (keys d) -> dict_set d key v = (d ++ [(key, v)])%list.
Proof.
  induction d as [|[k w] d IH]; simpl; intros Hn.
  - reflexivity.
  - destruct (String.eqb k key) eqn:Hk.
    + apply String.eqb_eq in Hk. exfalso. apply Hn. left. exact Hk.
    + rewrite IH; [reflexivity|]. intros Hin. apply Hn. right. exact Hin.
Qed.

Lemma dict_set_keys (d : Dict) (key : string) (v : value) :
  In key (keys d) -> keys (dict_set d key v) = keys d.
Proof.
  induction d as [|[k w] d IH]; simpl; intros Hin.
  - contradiction.
  - destruct (String.eqb k key) eqn:Hk.
    + reflexivity.
    + simpl. f_equal. apply IH. destruct Hin as [Hin|Hin]; [|exact Hin].
      apply String.eqb_neq in Hk. contradiction.
Qed.

Lemma dict_set_NoDup (d : Dict) (key : string) (v : value) :
  NoDup (keys d) -> NoDup (keys (dict_set d key v)).
Proof.
  intros Hnd. destruct (in_dec string_dec key (keys d)) as [Hin|Hn].
  - rewrite dict_set_keys by exact Hin. exact Hnd.
  - rewrite dict_set_fresh by exact Hn. unfold keys. rewrite map_app. simpl.
    apply NoDup_app.
    + exact Hnd.
    + constructor; [intros []|constructor].
    + intros x Hx [Hx'|[]]. subst x. apply Hn. exact Hx.
Qed.

Lemma dict_set_stable (d : Dict) (key : string) (v : value) :
  stable d -> normalize_field key v = Return v -> stable (dict_set d key v).
Proof.
  unfold stable. intros Hs Hv.
  induction d as [|[k w] d IH]; simpl.
  - constructor; [exact Hv|constructor].
  - inversion Hs as [|? ? Hk Hd]; subst.
    destruct (String.eqb k key) eqn:Hkey.
    + apply String.eqb_eq in Hkey. subst key.
      constructor; [exact Hv|exact Hd].
    + constructor; [exact Hk|apply IH; exact Hd].
Qed.

(** What the inner loop builds is stable and has distinct keys, whatever
    the items were. *)
Lemma normalize_items_stable (items : list (string * value)) :
  forall acc d',
    stable acc -> NoDup (keys acc) ->
    normalize_items items acc = Return d' ->
    stable d' /\ NoDup (keys d').
Proof.
  induction items as [|[k v] items IH]; simpl; intros acc d' Hs Hnd H.
  - injection H as <-. split; assumption.
  - destruct (normalize_field k v) as [v'|e] eqn:Hf; simpl in H; [|discriminate H].
    apply (IH (dict_set acc k v') d').
    + apply dict_set_stable; [exact Hs|].
      apply (normalize_field_idempotent k v v' Hf).
    + apply dict_set_NoDup. exact Hnd.
    + exact H.
Qed.

(** On items with distinct keys the loop is a field-by-field map. *)
Lemma normalize_items_fieldwise (items : list (string * value)) :
  forall acc d',
    NoDup (keys acc ++ keys items)%list ->
    normalize_items items acc = Return d' ->
    exists items', d' = (acc ++ items')%list /\ fieldwise items items'.
Proof.
  induction items as [|[k v] items IH]; simpl; intros acc d' Hnd H.
  - injection H as <-. exists []. split; [symmetry; apply app_nil_r|constructor].
  - destruct (normalize_field k v) as [v'|e] eqn:Hf; simpl in H; [|discriminate H].
    assert (Hfresh : ~ In k (keys acc)).
    { intros Hin. apply NoDup_remove_2 in Hnd. apply Hnd.
      apply in_or_app. left. exact Hin. }
    rewrite (dict_set_fresh acc k v' Hfresh) in H.
    destruct (IH (acc ++ [(k, v')])%list d') as [items' [Hd Hfw]].
    + unfold keys. rewrite map_app. simpl. rewrite <- app_assoc. simpl. exact Hnd.
    + exact H.
    + exists ((k, v') :: items'). split.
      * rewrite Hd. rewrite <- app_assoc. reflexivity.
      * constructor; [split; [reflexivity|exact Hf]|exact Hfw].
Qed.

(** A stable record with distinct keys is rebuilt as it is. *)
Lemma normalize_items_fixed (d : Dict) :
  forall acc,
    stable d -> NoDup (keys acc ++ keys d)%list ->
    normalize_items d acc = Return (acc ++ d)%list.
Proof.
  induction d as [|[k v] d IH]; simpl; intros acc Hs Hnd.
  - rewrite app_nil_r. reflexivity.
  - inversion Hs as [|? ? Hk Hd]; subst. simpl in Hk. rewrite Hk. simpl.
    assert (Hfresh : ~ In k (keys acc)).
    { intros Hin. apply NoDup_remove_2 in Hnd. apply Hnd.
      apply in_or_app. left. exact Hin. }
    rewrite (dict_set_fresh acc k v Hfresh).
    rewrite IH.
    + rewrite <- app_assoc. reflexivity.
    + exact Hd.
    + unfold keys. rewrite map_app. simpl. rewrite <- app_assoc. simpl. exact Hnd.
Qed.

Lemma normalize_items_idempotent (items : list (string * value)) (d' : Dict) :
  normalize_items items [] = Return d' -> normalize_items d' [] = Return d'.
Proof.
  intros H.
  destruct (normalize_items_stable items [] d') as [Hs Hnd].
  - constructor.
  - constructor.
  - exact H.
  - apply (normalize_items_fixed d' []); [exact Hs|exact Hnd].
Qed.

(** *** The table *)

Lemma normalize_table_idempotent (T T' : Table) :
  _normalize_contact_signals T = Return T' ->
  _normalize_contact_signals T' = Return T'.
Proof.
  revert T'. induction T as [|row T IH]; simpl; intros T' H.
  - injection H as <-. reflexivity.
  - destruct (normalize_items row []) as [row'|e] eqn:Hrow; simpl in H; [|discriminate H].
    destruct (_normalize_contact_signals T) as [T1|e] eqn:HT; simpl in H; [|discriminate H].
    injection H as <-. simpl.
    rewrite (normalize_items_idempotent row row' Hrow). simpl.
    rewrite (IH T1 eq_refl). reflexivity.
Qed.

Lemma fieldwise_keys (items items' : list (string * value)) :
  fieldwise items items' -> keys items' = keys items.
Proof.
  induction 1 as [|kv kv' items items' [Hk _] _ IH]; simpl.
  - reflexivity.
  - rewrite Hk, IH. reflexivity.
Qed.

Lemma fieldwise_lookup (items items' : list (string * value)) (key : string) (v : value) :
  fieldwise items items' ->
  dict_lookup items key = Some v ->
  exists v', dict_lookup items' key = Some v' /\ normalize_field key v = Return v'.
Proof.
  induction 1 as [|[k w] [k' w'] items items' [Hk Hf] _ IH]; simpl; intros Hl.
  - discriminate Hl.
  - simpl in Hk, Hf. subst k'.
    destruct (String.eqb k key) eqn:Hkey.
    + apply String.eqb_eq in Hkey. subst k. injection Hl as <-.
      exists w'. split; [reflexivity|exact Hf].
    + apply IH. exact Hl.
Qed.

Lemma normalize_table_fieldwise (T T' : Table) :
  wf_table T ->
  _normalize_contact_signals T = Return T' ->
  Forall2 fieldwise T T'.
Proof.
  revert T'. induction T as [|row T IH]; simpl; intros T' Hwf H.
  - injection H as <-. constructor.
  - inversion Hwf as [|? ? Hrow_wf HT_wf]; subst.
    destruct (normalize_items row []) as [row'|e] eqn:Hrow; simpl in H; [|discriminate H].
    destruct (_normalize_contact_signals T) as [T1|e] eqn:HT; simpl in H; [|discriminate H].
    injection H as <-.
    constructor.
    + destruct (normalize_items_fieldwise row [] row') as [items' [Hd Hfw]].
      * exact Hrow_wf.
      * exact Hrow.
      * simpl in Hd. subst items'. exact Hfw.
    + apply IH; [exact HT_wf|reflexivity].
Qed.

(** *** When the normaliser raises *)

Lemma normalize_items_raises (items : list (string * value)) :
  forall acc e,
    normalize_items items acc = Raise e ->
    exists v, In ("confidence", v) items /\ is_str_or_float v = true /\ py_int v = Raise e.
Proof.
  induction items as [|[k w] items IH]; simpl; intros acc e H.
  - discriminate H.
  - destruct (normalize_field k w) as [w'|e'] eqn:Hf; simpl in H.
    + destruct (IH _ _ H) as [v [Hin Hv]]. exists v. split; [right; exact Hin|exact Hv].
    + injection H as ->.
      destruct (normalize_field_raises k w e Hf) as [Hk [Hs Hi]]. subst k.
      exists w. split; [left; reflexivity|split; assumption].
Qed.

Lemma normalize_items_invalid (items : list (string * value)) (v : value) :
  In ("confidence", v) items ->
  is_str_or_float v = true ->
  raises (py_int v) ->
  forall acc, raises (normalize_items items acc).
Proof.
  intros Hin Hs [e He].
  induction items as [|[k w] items IH]; simpl; intros acc.
  - contradiction.
  - destruct (normalize_field k w) as [w'|e'] eqn:Hf; simpl.
    + destruct Hin as [Heq|Hin].
      * injection Heq as -> ->.
        rewrite normalize_field_confidence, Hs, He in Hf. discriminate Hf.
      * apply IH. exact Hin.
    + exists e'. reflexivity.
Qed.

Lemma normalize_table_raises (T : Table) (e : exn) :
  _normalize_contact_signals T = Raise e ->
  exists row v,
    In row T /\ In ("confidence", v) row /\
    is_str_or_float v = true /\ py_int v = Raise e.
Proof.
  revert e. induction T as [|row T IH]; simpl; intros e H.
  - discriminate H.
  - destruct (normalize_items row []) as [row'|e'] eqn:Hrow; simpl in H.
    + destruct (_normalize_contact_signals T) as [T1|e1] eqn:HT; simpl in H;
        [discriminate H|].
      injection H as ->.
      destruct (IH e eq_refl) as [r [v [Hr Hv]]].
      exists r, v. split; [right; exact Hr|exact Hv].
    + injection H as ->.
      destruct (normalize_items_raises row [] e Hrow) as [v [Hin [Hs Hi]]].
      exists row, v. split; [left; reflexivity|]. split; [exact Hin|]. split; assumption.
Qed.

Lemma normalize_table_invalid (T : Table) :
  invalid_confidence T -> raises (_normalize_contact_signals T).
Proof.
  intros [row [v [Hr [Hin [Hs Hi]]]]].
  induction T as [|row0 T IH]; simpl.
  - contradiction.
  - destruct (normalize_items row0 []) as [row'|e'] eqn:Hrow; simpl.
    + destruct Hr as [Heq|Hr].
      * subst row0.
        destruct (normalize_items_invalid row v Hin Hs Hi []) as [e He].
        rewrite He in Hrow. discriminate Hrow.
      * destruct (IH Hr) as [e He]. rewrite He. exists e. reflexivity.
    + exists e'. reflexivity.
Qed.

(** C8, as the code has it.  An invalid coercion is not passed through.
    The normaliser raises whenever some record holds, under [confidence],
    a string or a float that [int()] rejects, and when it raises, what it
    raises is the exception of [int()] on such a value.  No other field
    can make it raise, and a value whose type the coercion of its field
    does not cover is left as it is. *)
Theorem normalize_raises_iff_invalid_confidence (T : Table) :
  (invalid_confidence T -> raises (_normalize_contact_signals T)) /\
  (forall e,
      _normalize_contact_signals T = Raise e ->
      exists row v,
        In row T /\ In ("confidence", v) row /\
        is_str_or_float v = true /\ py_int v = Raise e) /\
  (forall key v, key <> "confidence" -> returns (normalize_field key v)) /\
  (forall v, is_str_or_float v = false -> normalize_field "confidence" v = Return v) /\
  (forall key v,
      In key ["actionTaken"; "isNew"] -> is_str_or_int v = false ->
      normalize_field key v = Return v).
Proof.
  split; [|split; [|split; [|split]]].
  - apply normalize_table_invalid.
  - apply normalize_table_raises.
  - intros key v Hk.
    destruct (normalize_field key v) as [v'|e] eqn:Hf.
    + exists v'. reflexivity.
    + destruct (normalize_field_raises key v e Hf) as [Heq _]. contradiction.
  - intros v Hs. rewrite normalize_field_confidence, Hs. reflexivity.
  - intros key v Hk Hs. unfold normalize_field.
    destruct Hk as [<-|[<-|[]]]; simpl; rewrite Hs; reflexivity.
Qed.

Lemma normalize_raises_iff_invalid_confidence_witness :
  invalid_confidence [[("name", VStr "kabir"); ("confidence", VStr "high")]] /\
  raises (_normalize_contact_signals
            [[("name", VStr "kabir"); ("confidence", VStr "high")]]).
Proof.
  assert (H : invalid_confidence [[("name", VStr "kabir"); ("confidence", VStr "high")]]).
  { exists [("name", VStr "kabir"); ("confidence", VStr "high")], (VStr "high").
    split; [left; reflexivity|].
    split; [right; left; reflexivity|].
    split; [reflexivity|].
    eexists. vm_compute. reflexivity. }
  split; [exact H|].
  exact (proj1 (normalize_raises_iff_invalid_confidence
                  [[("name", VStr "kabir"); ("confidence", VStr "high")]]) H).
Defined.

(** C8 as stated fails: a non-numeric string under [confidence] is not
    passed through, the normaliser raises [ValueError]. *)
Lemma normalize_raises_on_bad_confidence :
  _normalize_contact_signals [[("name", VStr "kabir"); ("confidence", VStr "high")]]
  = Raise (Exn "ValueError" "invalid literal for int() with base 10: 'high'").
Proof. vm_compute. reflexivity. Qed.

(** *** Idempotence and shape *)

(** C9.  Normalising a second time changes nothing: the normaliser
    applied to its own result returns that result again (and where the
    first run raises, so does the composition).  On a table of records
    with distinct keys the result has as many records, in the same order,
    each with the same keys in the same order, hence as many fields. *)
Theorem normalize_idempotent (T : Table) :
  bind (_normalize_contact_signals T) _normalize_contact_signals
  = _normalize_contact_signals T /\
  (forall T',
      _normalize_contact_signals T = Return T' ->
      _normalize_contact_signals T' = Return T') /\
  (forall T',
      wf_table T ->
      _normalize_contact_signals T = Return T' ->
      List.length T' = List.length T /\
      Forall2 (fun row row' =>
                 keys row' = keys row /\ List.length row' = List.length row) T T').
Proof.
  split; [|split].
  - destruct (_normalize_contact_signals T) as [T'|e] eqn:H; simpl.
    + apply (normalize_table_idempotent T T' H).
    + reflexivity.
  - apply normalize_table_idempotent.
  - intros T' Hwf H.
    pose proof (normalize_table_fieldwise T T' Hwf H) as Hfw.
    split.
    + symmetry. apply (Forall2_length Hfw).
    + clear H Hwf. induction Hfw as [|row row' T T' Hrow _ IH]; constructor.
      * pose proof (fieldwise_keys row row' Hrow) as Hk. split; [exact Hk|].
        unfold keys in Hk.
        rewrite <- (length_map fst row'), Hk. apply length_map.
      * exact IH.
Qed.

Lemma signals_wf : wf_table signals.
Proof.
  repeat constructor; simpl; intros H;
    repeat (destruct H as [H|H]; [discriminate H|]); exact H.
Qed.

Lemma normalize_idempotent_witness :
  _normalize_contact_signals signals = Return signals_normalized /\
  _normalize_contact_signals signals_normalized = Return signals_normalized /\
  List.length signals_normalized = List.length signals /\
  Forall2 (fun row row' =>
             keys row' = keys row /\ List.length row' = List.length row)
          signals signals_normalized.
Proof.
  assert (H : _normalize_contact_signals signals = Return signals_normalized)
    by (vm_compute; reflexivity).
  split; [exact H|].
  split.
  - exact (proj1 (proj2 (normalize_idempotent signals)) signals_normalized H).
  - exact (proj2 (proj2 (normalize_idempotent signals)) signals_normalized signals_wf H).
Defined.

(** *** The boolean coercion *)

(** C10.  Under [actionTaken] and [isNew] the normaliser applies Python's
    truth value: every non-empty string becomes [True], the string "false"
    included, and every non-zero integer becomes [True]; only the empty
    string and zero become [False].  So it is in every record of a
    normalised table. *)
Theorem bool_coercion_is_truthiness (key : string) :
  In key ["actionTaken"; "isNew"] ->
  (forall s, s <> "" -> normalize_field key (VStr s) = Return (VBool true)) /\
  normalize_field key (VStr "false") = Return (VBool true) /\
  (forall n, n <> 0 -> normalize_field key (VInt n) = Return (VBool true)) /\
  normalize_field key (VStr "") = Return (VBool false) /\
  normalize_field key (VInt 0) = Return (VBool false) /\
  (forall T T',
      wf_table T ->
      _normalize_contact_signals T = Return T' ->
      Forall2 (fun row row' =>
                 (forall s, dict_lookup row key = Some (VStr s) -> s <> "" ->
                            dict_lookup row' key = Some (VBool true)) /\
                 (forall n, dict_lookup row key = Some (VInt n) -> n <> 0 ->
                            dict_lookup row' key = Some (VBool true)))
              T T').
Proof.
  intros Hk.
  assert (Hstr : forall s, s <> "" -> normalize_field key (VStr s) = Return (VBool true)).
  { intros s Hs. unfold normalize_field.
    destruct Hk as [<-|[<-|[]]]; simpl;
      (destruct s; [contradiction Hs; reflexivity | reflexivity]). }
  assert (Hint : forall n, n <> 0 -> normalize_field key (VInt n) = Return (VBool true)).
  { intros n Hn. unfold normalize_field.
    destruct Hk as [<-|[<-|[]]]; simpl;
      (destruct n; [contradiction Hn; reflexivity | reflexivity | reflexivity]). }
  split; [exact Hstr|].
  split; [apply Hstr; discriminate|].
  split; [exact Hint|].
  split; [destruct Hk as [<-|[<-|[]]]; reflexivity|].
  split; [destruct Hk as [<-|[<-|[]]]; reflexivity|].
  intros T T' Hwf H.
  pose proof (normalize_table_fieldwise T T' Hwf H) as Hfw.
  clear H Hwf. induction Hfw as [|row row' T T' Hrow _ IH]; constructor; [|exact IH].
  split.
  - intros s Hl Hs.
    destruct (fieldwise_lookup row row' key (VStr s) Hrow Hl) as [v' [Hl' Hf]].
    rewrite (Hstr s Hs) in Hf. injection Hf as <-. exact Hl'.
  - intros n Hl Hn.
    destruct (fieldwise_lookup row row' key (VInt n) Hrow Hl) as [v' [Hl' Hf]].
    rewrite (Hint n Hn) in Hf. injection Hf as <-. exact Hl'.
Qed.

Lemma bool_coercion_is_truthiness_witness :
  In "actionTaken" ["actionTaken"; "isNew"] /\
  normalize_field "actionTaken" (VStr "false") = Return (VBool true) /\
  normalize_field "actionTaken" (VInt (-3)) = Return (VBool true) /\
  _normalize_contact_signals [[("actionTaken", VStr "false"); ("isNew", VInt 2)]]
  = Return [[("actionTaken", VBool true); ("isNew", VBool true)]].
Proof.
  assert (Hk : In "actionTaken" ["actionTaken"; "isNew"]) by (left; reflexivity).
  split; [exact Hk|].
  split; [exact (proj1 (proj2 (bool_coercion_is_truthiness "actionTaken" Hk)))|].
  split.
  - apply (proj1 (proj2 (proj2 (bool_coercion_is_truthiness "actionTaken" Hk)))).
    discriminate.
  - vm_compute. reflexivity.
Defined.

(** ** Marker-anchored extraction *)

Lemma str_app_assoc (a b c : string) : (a ++ b) ++ c = a ++ (b ++ c).
Proof. induction a as [|x a IH]; simpl; [reflexivity | rewrite IH; reflexivity]. Qed.

(** The loop of the script meets the balancing bracket where the
    specification puts it, and decodes the text read up to there. *)
Lemma scan_brackets_balanced (rest : string) :
  forall seen depth arr v,
    balanced_from depth rest = Some arr ->
    json.loads (seen ++ arr) = Return v ->
    simple_test_parsing.scan_brackets seen rest (Z.of_nat depth) = Return (Some v).
Proof.
  induction rest as [|c rest IH]; simpl; intros seen depth arr v Hb Hl.
  - discriminate Hb.
  - assert (Happ : forall t, (seen ++ str1 c) ++ t = seen ++ String c t).
    { intros t. unfold str1. rewrite str_app_assoc. reflexivity. }
    destruct (Ascii.eqb c "[") eqn:Hopen.
    + destruct (balanced_from (S depth) rest) as [arr'|] eqn:Hb'; [|discriminate Hb].
      injection Hb as <-.
      replace (Z.of_nat depth + 1) with (Z.of_nat (S depth)) by lia.
      apply (IH _ _ arr' v Hb'). rewrite Happ. exact Hl.
    + destruct (Ascii.eqb c "]") eqn:Hclose.
      * destruct depth as [|[|d]].
        -- discriminate Hb.
        -- injection Hb as <-. simpl. rewrite Hl. reflexivity.
        -- destruct (balanced_from (S d) rest) as [arr'|] eqn:Hb'; [|discriminate Hb].
           injection Hb as <-.
           replace (Z.of_nat (S (S d)) - 1) with (Z.of_nat (S d)) by lia.
           replace (Z.of_nat (S d) =? 0) with false by (symmetry; apply Z.eqb_neq; lia).
           apply (IH _ _ arr' v Hb'). rewrite Happ. exact Hl.
      * destruct (balanced_from depth rest) as [arr'|] eqn:Hb'; [|discriminate Hb].
        injection Hb as <-.
        apply (IH _ _ arr' v Hb'). rewrite Happ. exact Hl.
Qed.

(** A text that splits in two at the marker holds it, and the second piece
    is what follows its first occurrence. *)
Lemma split_two_partition (sep raw before after : string) :
  split sep raw = [before; after] -> partition sep raw = Some (before, after).
Proof.
  unfold split. destruct (String.length raw) as [|n]; simpl; intros H.
  - discriminate H.
  - destruct (partition sep raw) as [[a b]|]; [|discriminate H].
    injection H as -> H.
    destruct n as [|n]; simpl in H.
    + injection H as ->. reflexivity.
    + destruct (partition sep b) as [[a' b']|].
      * destruct n; simpl in H; [discriminate H|].
        destruct (partition sep b'); [destruct p|]; discriminate H.
      * injection H as ->. reflexivity.
Qed.

(** The script's parser hands out the decode of the isolated array. *)
Lemma parse_llm_response_isolated
    (raw before after arr : string) (fallback_data : Table) (v : value) :
  split "TRANSFORMED_DATA:" raw = [before; after] ->
  isolated_array "TRANSFORMED_DATA:" raw = Some arr ->
  json.loads arr = Return v ->
  exists explanation,
    simple_test_parsing.parse_llm_response raw fallback_data
    = Return (VStr explanation, v).
Proof.
  intros Hsplit Hiso Hv.
  pose proof (split_two_partition _ _ _ _ Hsplit) as Hpart.
  unfold isolated_array in Hiso. rewrite Hpart in Hiso.
  unfold simple_test_parsing.parse_llm_response.
  replace (contains "TRANSFORMED_DATA:" raw) with true
    by (unfold contains; rewrite Hpart; reflexivity).
  rewrite Hsplit. unfold item. simpl nth.
  destruct (find_char "[" after) as [i|]; [|discriminate Hiso].
  pose proof (scan_brackets_balanced (drop i after) "" 0 arr v Hiso Hv) as Hscan.
  change (Z.of_nat 0) with 0 in Hscan. rewrite Hscan.
  simpl. eexists. reflexivity.
Qed.

Lemma find_char_app (c : ascii) (a rest : string) :
  find_char c a = None ->
  find_char c (a ++ String c rest) = Some (String.length a).
Proof.
  induction a as [|x a IH]; simpl; intros H.
  - rewrite Ascii.eqb_refl. reflexivity.
  - destruct (Ascii.eqb x c); [discriminate H|].
    destruct (find_char c a); [discriminate H|].
    rewrite IH; reflexivity.
Qed.

Lemma drop_app (a b : string) : drop (String.length a) (a ++ b) = b.
Proof. induction a as [|x a IH]; simpl; [reflexivity | exact IH]. Qed.

(** Text after the balancing bracket does not move it. *)
Lemma balanced_from_app (s : string) :
  forall depth arr t,
    balanced_from depth s = Some arr -> balanced_from depth (s ++ t) = Some arr.
Proof.
  induction s as [|c s IH]; simpl; intros depth arr t H.
  - discriminate H.
  - destruct (Ascii.eqb c "[").
    + destruct (balanced_from (S depth) s) as [a|] eqn:Hb; [|discriminate H].
      rewrite (IH _ _ t Hb). exact H.
    + destruct (Ascii.eqb c "]").
      * destruct depth as [|[|d]]; try exact H.
        destruct (balanced_from (S d) s) as [a|] eqn:Hb; [|discriminate H].
        rewrite (IH _ _ t Hb). exact H.
      * destruct (balanced_from depth s) as [a|] eqn:Hb; [|discriminate H].
        rewrite (IH _ _ t Hb). exact H.
Qed.

(** *** Where the marker sits *)

Lemma prefix_app_cases (a : string) :
  forall p t,
    String.prefix p (a ++ t) = true ->
    String.prefix p a = true \/
    ((String.length a < String.length p)%nat /\
     String.prefix (drop (String.length a) p) t = true).
Proof.
  induction a as [|x a IH]; intros p t H.
  - destruct p as [|y p].
    + left. reflexivity.
    + right. split; [simpl; lia | exact H].
  - destruct p as [|y p].
    + left. reflexivity.
    + simpl in H. simpl String.prefix.
      destruct (ascii_dec y x); [|discriminate H].
      destruct (IH p t H) as [Hl | [Hlen Hr]].
      * left. exact Hl.
      * right. split; [simpl; lia | exact Hr].
Qed.

Lemma prefix_refl_app (p t : string) : String.prefix p (p ++ t) = true.
Proof.
  induction p as [|x p IH]; simpl; [destruct t; reflexivity|].
  destruct (ascii_dec x x); [exact IH | contradiction].
Qed.

Lemma drop_length (k : nat) :
  forall s, String.length (drop k s) = (String.length s - k)%nat.
Proof.
  induction k as [|k IH]; intros s; simpl.
  - lia.
  - destruct s as [|c s]; simpl; [reflexivity | apply IH].
Qed.

Lemma contains_false_prefix (sep s : string) :
  contains sep s = false -> String.prefix sep s = false.
Proof.
  unfold contains. intros H.
  destruct (String.prefix sep s) eqn:Hp; [|reflexivity].
  destruct s as [|c s]; cbn [partition] in H; rewrite Hp in H; discriminate H.
Qed.

Lemma contains_false_tail (sep : string) (c : ascii) (s : string) :
  contains sep (String c s) = false -> contains sep s = false.
Proof.
  unfold contains. cbn [partition]. intros H.
  destruct (String.prefix sep (String c s)); [discriminate H|].
  destruct (partition sep s) as [[a b]|]; [discriminate H | reflexivity].
Qed.

Lemma no_border_spec (sep : string) (k : nat) :
  no_border sep = true ->
  (0 < k)%nat -> (k < String.length sep)%nat ->
  String.prefix (drop k sep) sep = false.
Proof.
  unfold no_border. intros H Hk Hlen.
  rewrite forallb_forall in H.
  apply negb_true_iff. apply H. apply in_seq. lia.
Qed.

(** The first occurrence of a borderless separator in [before ++ sep ++
    rest] is the one written out, when [before] holds none. *)
Lemma partition_first (sep rest : string) :
  no_border sep = true ->
  forall before,
    contains sep before = false ->
    partition sep (before ++ sep ++ rest) = Some (before, rest).
Proof.
  intros Hnb before. induction before as [|c b IH]; intros Hc.
  - cbn [append].
    pose proof (prefix_refl_app sep rest) as Hp.
    destruct sep as [|x sep]; [discriminate Hc|].
    cbn [append] in *. cbn [partition]. rewrite Hp.
    cbn [String.length drop]. rewrite drop_app. reflexivity.
  - assert (Hnp : String.prefix sep (String c b ++ sep ++ rest) = false).
    { destruct (String.prefix sep (String c b ++ sep ++ rest)) eqn:Hp; [|reflexivity].
      exfalso.
      destruct (prefix_app_cases (String c b) sep (sep ++ rest) Hp) as [Hl | [Hlen Hr]].
      - rewrite (contains_false_prefix _ _ Hc) in Hl. discriminate Hl.
      - destruct (prefix_app_cases sep (drop (String.length (String c b)) sep) rest Hr)
          as [Hl | [Hlen' _]].
        + rewrite (no_border_spec sep (String.length (String c b)) Hnb) in Hl;
            [discriminate Hl | simpl; lia | exact Hlen].
        + rewrite drop_length in Hlen'. lia. }
    cbn [append] in *. cbn [partition]. rewrite Hnp.
    rewrite (IH (contains_false_tail _ _ _ Hc)). reflexivity.
Qed.

Lemma partition_length (sep : string) :
  forall s a b,
    partition sep s = Some (a, b) ->
    String.length s = (String.length a + String.length sep + String.length b)%nat.
Proof.
  induction s as [|c s IH]; intros a b; cbn [partition].
  - destruct (String.prefix sep "") eqn:Hp; [|discriminate].
    intros H. injection H as <- <-.
    pose proof (prefix_drop_length sep "" Hp). simpl in *. lia.
  - destruct (String.prefix sep (String c s)) eqn:Hp.
    + intros H. injection H as <- <-.
      pose proof (prefix_drop_length sep _ Hp). simpl in *. lia.
    + destruct (partition sep s) as [[a' b']|] eqn:Hs; [|discriminate].
      intros H. injection H as <- <-.
      pose proof (IH a' b' eq_refl) as Hl. simpl. lia.
Qed.

(** [split] never stops for want of rounds: with a non-empty separator
    every budget of at least [length s] cuts gives the same pieces. *)
Lemma split_upto_enough (sep : string) :
  sep <> "" ->
  forall n m s,
    (String.length s <= n)%nat -> (String.length s <= m)%nat ->
    split_upto n sep s = split_upto m sep s.
Proof.
  intros Hsep.
  assert (Hpos : (0 < String.length sep)%nat)
    by (destruct sep; [contradiction Hsep; reflexivity | simpl; lia]).
  induction n as [|n IH]; intros m s Hn Hm.
  - destruct s; [|simpl in Hn; lia].
    destruct m; simpl; [reflexivity|].
    destruct sep; [lia | reflexivity].
  - destruct m as [|m].
    + destruct s; [|simpl in Hm; lia].
      simpl. destruct sep; [lia | reflexivity].
    + simpl. destruct (partition sep s) as [[a b]|] eqn:Hp; [|reflexivity].
      pose proof (partition_length sep s a b Hp).
      f_equal. apply IH; lia.
Qed.

(** A text that holds a borderless separator once splits in two there. *)
Lemma split_once (sep before rest : string) :
  no_border sep = true ->
  contains sep before = false ->
  contains sep rest = false ->
  split sep (before ++ sep ++ rest) = [before; rest].
Proof.
  intros Hnb Hb Hr. unfold split.
  pose proof (partition_first sep rest Hnb before Hb) as Hp.
  destruct (String.length (before ++ sep ++ rest)) as [|n] eqn:Hlen.
  - exfalso. destruct before; [|discriminate Hlen].
    destruct sep; [discriminate Hb | discriminate Hlen].
  - simpl. rewrite Hp.
    assert (Hn : partition sep rest = None).
    { unfold contains in Hr. destruct (partition sep rest); [discriminate Hr|reflexivity]. }
    destruct n; simpl; [reflexivity|]. rewrite Hn. reflexivity.
Qed.

(** C2, as the code has it.  Take a text made of prose, the marker
    [TRANSFORMED_DATA:], text without a bracket, a bracket-balanced array
    and more prose, with no other occurrence of the marker.  The substring
    the specification isolates is that array, and the marker parser of the
    script returns, as the data, its direct JSON decode whenever it
    decodes. *)
Theorem marker_array_extracted
    (before between body after : string) (fallback_data : Table) (v : value) :
  let arr := String "[" body in
  let raw := before ++ "TRANSFORMED_DATA:" ++ between ++ arr ++ after in
  contains "TRANSFORMED_DATA:" before = false ->
  contains "TRANSFORMED_DATA:" (between ++ arr ++ after) = false ->
  find_char "[" between = None ->
  balanced_from 0 arr = Some arr ->
  json.loads arr = Return v ->
  isolated_array "TRANSFORMED_DATA:" raw = Some arr /\
  exists explanation,
    simple_test_parsing.parse_llm_response raw fallback_data
    = Return (VStr explanation, v).
Proof.
  intros arr raw Hbefore Hafter Hbetween Hbal Hv.
  assert (Hsplit : split "TRANSFORMED_DATA:" raw = [before; between ++ arr ++ after]).
  { apply split_once; [reflexivity | exact Hbefore | exact Hafter]. }
  assert (Hiso : isolated_array "TRANSFORMED_DATA:" raw = Some arr).
  { unfold isolated_array.
    rewrite (split_two_partition _ _ _ _ Hsplit).
    change (between ++ arr ++ after) with (between ++ String "[" (body ++ after)).
    rewrite (find_char_app "[" between (body ++ after) Hbetween).
    rewrite drop_app. apply (balanced_from_app arr 0 arr after Hbal). }
  split; [exact Hiso|].
  exact (parse_llm_response_isolated raw before _ arr fallback_data v Hsplit Hiso Hv).
Qed.

Lemma marker_array_extracted_witness :
  reply_with_marker
  = "Here is the result. " ++ "TRANSFORMED_DATA:" ++ " " ++ marker_array ++ " Hope this helps." /\
  contains "TRANSFORMED_DATA:" "Here is the result. " = false /\
  contains "TRANSFORMED_DATA:" (" " ++ marker_array ++ " Hope this helps.") = false /\
  find_char "[" " " = None /\
  balanced_from 0 marker_array = Some marker_array /\
  json.loads marker_array = Return marker_records /\
  isolated_array "TRANSFORMED_DATA:" reply_with_marker = Some marker_array /\
  exists explanation,
    simple_test_parsing.parse_llm_response reply_with_marker sample_table
    = Return (VStr explanation, marker_records).
Proof.
  assert (H1 : contains "TRANSFORMED_DATA:" (" " ++ marker_array ++ " Hope this helps.") = false)
    by (vm_compute; reflexivity).
  assert (H2 : balanced_from 0 marker_array = Some marker_array)
    by (vm_compute; reflexivity).
  assert (H3 : json.loads marker_array = Return marker_records)
    by (vm_compute; reflexivity).
  split; [vm_compute; reflexivity|].
  split; [reflexivity|]. split; [exact H1|]. split; [reflexivity|].
  split; [exact H2|]. split; [exact H3|].
  exact (marker_array_extracted "Here is the result. " " "
           (js "{'name': 'kabir', 'tags': ['a', 'b']}]") " Hope this helps."
           sample_table marker_records eq_refl H1 eq_refl H2 H3).
Defined.

(** C2 as stated fails.  The service's parser has no marker strategy: for
    the reply below, whose array decodes, it returns the fallback table.
    The script's parser knows one marker only: under [FILTERED_DATA:] the
    same array is not extracted either. *)
Lemma marker_array_not_extracted :
  isolated_array "TRANSFORMED_DATA:" reply_with_marker = Some marker_array /\
  isolated_array "FILTERED_DATA:" reply_with_filter_marker = Some marker_array /\
  json.loads marker_array = Return marker_records /\
  _parse_llm_response reply_with_marker sample_table
  = Return (VStr "", of_table sample_table) /\
  simple_test_parsing.parse_llm_response reply_with_filter_marker sample_table
  = Return (VStr "Data processed successfully.", of_table sample_table) /\
  of_table sample_table <> marker_records.
Proof.
  repeat split; try (vm_compute; reflexivity).
  intros H. discriminate H.
Qed.

(** * Further properties *)

(** ** Integers and their decimal text *)

Lemma Z_of_digits_acc (d : Decimal.uint) :
  forall acc : positive,
    fold_left (fun a c => 10 * a + digit_val c)
      (list_ascii_of_string (NilEmpty.string_of_uint d)) (Zpos acc)
    = Zpos (Pos.of_uint_acc d acc).
Proof.
  induction d; intros acc; cbn [NilEmpty.string_of_uint list_ascii_of_string fold_left Pos.of_uint_acc];
    try reflexivity; rewrite <- IHd; f_equal.
  all: match goal with |- 10 * _ + digit_val ?c = _ =>
         let v := eval vm_compute in (digit_val c) in
         change (digit_val c) with v end; lia.
Qed.

Lemma Z_of_digits_of_uint (d : Decimal.uint) :
  Z_of_digits (NilEmpty.string_of_uint d) = Z.of_N (Pos.of_uint d).
Proof.
  unfold Z_of_digits.
  induction d; simpl; try reflexivity; try exact IHd;
    (change (10 * 0 + digit_val _) with (Zpos 1) ||
     change (10 * 0 + digit_val _) with (Zpos 2) ||
     change (10 * 0 + digit_val _) with (Zpos 3) ||
     change (10 * 0 + digit_val _) with (Zpos 4) ||
     change (10 * 0 + digit_val _) with (Zpos 5) ||
     change (10 * 0 + digit_val _) with (Zpos 6) ||
     change (10 * 0 + digit_val _) with (Zpos 7) ||
     change (10 * 0 + digit_val _) with (Zpos 8) ||
     change (10 * 0 + digit_val _) with (Zpos 9));
    apply Z_of_digits_acc.
Qed.

Lemma int_digits_of_uint (d : Decimal.uint) :
  int_digits true (NilEmpty.string_of_uint d) = Some (NilEmpty.string_of_uint d).
Proof.
  induction d; cbn [NilEmpty.string_of_uint int_digits]; try reflexivity;
    match goal with |- context [is_digit ?c] =>
      change (is_digit c) with true end; cbv iota; rewrite IHd; reflexivity.
Qed.

Lemma string_of_uint_length (d : Decimal.uint) :
  String.length (NilEmpty.string_of_uint d) = Decimal.nb_digits d.
Proof. induction d; simpl; try rewrite IHd; reflexivity. Qed.

Lemma of_uint_acc_lower (d : Decimal.uint) :
  forall acc : positive,
    Zpos acc * 10 ^ Z.of_nat (Decimal.nb_digits d) <= Zpos (Pos.of_uint_acc d acc).
Proof.
  induction d; intros acc;
    cbn [Decimal.nb_digits Pos.of_uint_acc];
    try (rewrite Z.pow_0_r; lia);
    rewrite Nat2Z.inj_succ, Z.pow_succ_r by lia;
    match goal with |- _ <= Zpos (Pos.of_uint_acc _ ?a) =>
      specialize (IHd a) end;
    assert (0 < 10 ^ Z.of_nat (Decimal.nb_digits d)) by (apply Z.pow_pos_nonneg; lia);
    nia.
Qed.

(** The decimal text of a positive number is as short as its size allows. *)
Lemma to_uint_length_bound (p : positive) :
  10 ^ (Z.of_nat (Decimal.nb_digits (Pos.to_uint p)) - 1) <= Zpos p.
Proof.
  pose proof (DecimalPos.Unsigned.of_to p) as Hof.
  pose proof (DecimalPos.Unsigned.to_of (Pos.to_uint p)) as Hto.
  rewrite Hof in Hto. simpl N.to_uint in Hto.
  pose proof (DecimalPos.Unsigned.to_uint_nonzero p) as Hnz.
  assert (Hval : Z.of_N (Pos.of_uint (Pos.to_uint p)) = Zpos p) by (rewrite Hof; reflexivity).
  revert Hto Hnz Hval. generalize (Pos.to_uint p) as d. intros d Hto Hnz Hval.
  assert (Hpow : forall n, 0 < 10 ^ Z.of_nat n) by (intros; apply Z.pow_pos_nonneg; lia).
  destruct d; cbn [Decimal.nb_digits]; cbn [Pos.of_uint] in Hval;
    try (rewrite Nat2Z.inj_succ;
         replace (Z.succ (Z.of_nat (Decimal.nb_digits d)) - 1)
           with (Z.of_nat (Decimal.nb_digits d)) by lia;
         match type of Hval with Z.of_N (Npos (Pos.of_uint_acc _ ?a)) = _ =>
           pose proof (of_uint_acc_lower d a) end;
         simpl Z.of_N in Hval; specialize (Hpow (Decimal.nb_digits d)); nia).
  - simpl. lia.
  - exfalso. unfold Decimal.unorm in Hto. cbn [Decimal.nzhead] in Hto.
    destruct (Decimal.nzhead d) eqn:Hh; try discriminate Hto.
    + injection Hto as Hd. subst d. apply Hnz. reflexivity.
    + exact (DecimalFacts.nzhead_nonzero _ _ Hh).
Qed.

(** [int(str(n)) == n] for an integer within the digit limit. *)
Lemma int_of_str_of_Z (n : Z) :
  Z.abs n < 10 ^ 4300 -> int_of_str (str_of_Z n) = Return n.
Proof.
  intros Hn.
  assert (Hpos : forall p : positive,
             Zpos p < 10 ^ 4300 ->
             int_digits false (NilEmpty.string_of_uint (Pos.to_uint p))
             = Some (NilEmpty.string_of_uint (Pos.to_uint p)) /\
             (int_max_str_digits <? String.length (NilEmpty.string_of_uint (Pos.to_uint p)))%nat
             = false /\
             Z_of_digits (NilEmpty.string_of_uint (Pos.to_uint p)) = Zpos p /\
             skip_blanks (NilEmpty.string_of_uint (Pos.to_uint p))
             = NilEmpty.string_of_uint (Pos.to_uint p) /\
             exists c r, NilEmpty.string_of_uint (Pos.to_uint p) = String c r /\
                         is_digit c = true).
  { intros p Hp.
    pose proof (to_uint_length_bound p) as Hlen.
    pose proof (DecimalPos.Unsigned.to_uint_nonnil p) as Hnn.
    pose proof (Z_of_digits_of_uint (Pos.to_uint p)) as Hv.
    rewrite DecimalPos.Unsigned.of_to in Hv.
    pose proof (string_of_uint_length (Pos.to_uint p)) as Hl.
    assert (Hshort : (Decimal.nb_digits (Pos.to_uint p) <= 4300)%nat).
    { destruct (le_lt_dec (Decimal.nb_digits (Pos.to_uint p)) 4300) as [H|H]; [exact H|].
      exfalso.
      assert (10 ^ 4300 <= 10 ^ (Z.of_nat (Decimal.nb_digits (Pos.to_uint p)) - 1))
        by (apply Z.pow_le_mono_r; lia).
      lia. }
    revert Hnn Hv Hl Hshort. generalize (Pos.to_uint p) as d. intros d Hnn Hv Hl Hshort.
    split; [|split; [|split; [|split]]].
    - destruct d; try (contradiction Hnn; reflexivity);
        cbn [NilEmpty.string_of_uint int_digits];
        match goal with |- context [is_digit ?c] =>
          change (is_digit c) with true end; cbv iota;
        rewrite int_digits_of_uint; reflexivity.
    - apply Nat.ltb_ge. rewrite Hl. exact Hshort.
    - exact Hv.
    - destruct d; try (contradiction Hnn; reflexivity); reflexivity.
    - destruct d; try (contradiction Hnn; reflexivity);
        cbn [NilEmpty.string_of_uint]; eexists; eexists; split; reflexivity. }
  unfold int_of_str, str_of_Z.
  destruct n as [|p|p].
  - reflexivity.
  - destruct (Hpos p Hn) as [Hd [Hl [Hv [Hs [c [r [Hc Hdig]]]]]]].
    rewrite Hs.
    assert (Hsign : (match NilEmpty.string_of_uint (Pos.to_uint p) with
                     | String "-" r0 => (true, r0)
                     | String "+" r0 => (false, r0)
                     | _ => (false, NilEmpty.string_of_uint (Pos.to_uint p))
                     end) = (false, NilEmpty.string_of_uint (Pos.to_uint p))).
    { rewrite Hc.
      destruct (Ascii.eqb c "-") eqn:E1;
        [apply Ascii.eqb_eq in E1; subst c; discriminate Hdig|].
      destruct (Ascii.eqb c "+") eqn:E2;
        [apply Ascii.eqb_eq in E2; subst c; discriminate Hdig|].
      destruct c as [[] [] [] [] [] [] [] []]; try reflexivity; discriminate. }
    rewrite Hsign. rewrite Hd, Hl, Hv. reflexivity.
  - destruct (Hpos p Hn) as [Hd [Hl [Hv [Hs [c [r [Hc Hdig]]]]]]].
    cbn [append skip_blanks]. change (is_blank "-") with false. cbv iota.
    rewrite Hd, Hl, Hv. reflexivity.
Qed.

Lemma str_of_Z_inj (a b : Z) :
  Z.abs a < 10 ^ 4300 -> Z.abs b < 10 ^ 4300 -> str_of_Z a = str_of_Z b -> a = b.
Proof.
  intros Ha Hb Heq.
  pose proof (int_of_str_of_Z a Ha) as Ea.
  pose proof (int_of_str_of_Z b Hb) as Eb.
  rewrite Heq in Ea. rewrite Ea in Eb. injection Eb as Eb. exact Eb.
Qed.

(** ** Dictionaries *)

Lemma dget_dset_same {A} (d : list (string * A)) (key : string) (v : A) :
  dget (dset d key v) key = Some v.
Proof.
  induction d as [|[k w] d IH]; simpl.
  - rewrite String.eqb_refl. reflexivity.
  - destruct (String.eqb k key) eqn:E; simpl; rewrite E; [reflexivity | exact IH].
Qed.

Lemma dget_dset_other {A} (d : list (string * A)) (key key' : string) (v : A) :
  key' <> key -> dget (dset d key v) key' = dget d key'.
Proof.
  intros Hne. induction d as [|[k w] d IH]; simpl.
  - destruct (String.eqb key key') eqn:E; [|reflexivity].
    apply String.eqb_eq in E. congruence.
  - destruct (String.eqb k key) eqn:E; simpl.
    + apply String.eqb_eq in E. subst k.
      destruct (String.eqb key key') eqn:E'; [|reflexivity].
      apply String.eqb_eq in E'. congruence.
    + rewrite IH. reflexivity.
Qed.

Lemma dget_In {A} (d : list (string * A)) (key : string) (v : A) :
  dget d key = Some v -> In (key, v) d.
Proof.
  induction d as [|[k w] d IH]; simpl; [discriminate|].
  destruct (String.eqb k key) eqn:E.
  - apply String.eqb_eq in E. intros H. injection H as ->. left. congruence.
  - intros H. right. apply IH. exact H.
Qed.

Lemma dget_None {A} (d : list (string * A)) (key : string) :
  dget d key = None <-> ~ In key (map fst d).
Proof.
  induction d as [|[k w] d IH]; simpl.
  - split; [intros _ []|reflexivity].
  - destruct (String.eqb k key) eqn:E.
    + apply String.eqb_eq in E. split; [discriminate|]. intros H. exfalso. apply H. left. exact E.
    + apply String.eqb_neq in E. rewrite IH. split.
      * intros H [H'|H']; [exact (E H') | exact (H H')].
      * intros H H'. apply H. right. exact H'.
Qed.

Lemma dset_In {A} (d : list (string * A)) (key : string) (v : A) (kv : string * A) :
  In kv (dset d key v) -> kv = (key, v) \/ In kv d.
Proof.
  induction d as [|[k w] d IH]; simpl.
  - intros [H|[]]. left. symmetry. exact H.
  - destruct (String.eqb k key) eqn:E; simpl.
    + apply String.eqb_eq in E. subst k. intros [H|H]; [left; symmetry; exact H | right; right; exact H].
    + intros [H|H]; [right; left; exact H|].
      destruct (IH H) as [H'|H']; [left; exact H' | right; right; exact H'].
Qed.

Lemma dset_keys {A} (d : list (string * A)) (key : string) (v : A) :
  map fst (dset d key v)
  = if existsb (String.eqb key) (map fst d) then map fst d else (map fst d ++ [key])%list.
Proof.
  induction d as [|[k w] d IH]; simpl; [reflexivity|].
  rewrite (String.eqb_sym key k).
  destruct (String.eqb k key) eqn:E; simpl; [reflexivity|].
  rewrite IH. destruct (existsb (String.eqb key) (map fst d)); reflexivity.
Qed.

Lemma existsb_eqb_In (key : string) (l : list string) :
  existsb (String.eqb key) l = true <-> In key l.
Proof.
  rewrite existsb_exists. split.
  - intros [x [Hin Hx]]. apply String.eqb_eq in Hx. subst x. exact Hin.
  - intros H. exists key. split; [exact H | apply String.eqb_refl].
Qed.

Lemma dset_keys_NoDup {A} (d : list (string * A)) (key : string) (v : A) :
  NoDup (map fst d) -> NoDup (map fst (dset d key v)).
Proof.
  intros Hnd. rewrite dset_keys.
  destruct (existsb (String.eqb key) (map fst d)) eqn:E; [exact Hnd|].
  assert (~ In key (map fst d)) as Hn
    by (intros H; apply existsb_eqb_In in H; rewrite H in E; discriminate).
  apply NoDup_rev in Hnd.
  rewrite <- (rev_involutive (map fst d ++ [key])%list). apply NoDup_rev.
  rewrite rev_app_distr. simpl. constructor; [|exact Hnd].
  rewrite <- in_rev. exact Hn.
Qed.

Lemma dset_keys_In {A} (d : list (string * A)) (key : string) (v : A) (k : string) :
  In k (map fst (dset d key v)) <-> k = key \/ In k (map fst d).
Proof.
  rewrite dset_keys.
  destruct (existsb (String.eqb key) (map fst d)) eqn:E.
  - apply existsb_eqb_In in E. split; [intros H; right; exact H|].
    intros [->|H]; [exact E | exact H].
  - rewrite in_app_iff. simpl. split.
    + intros [H|[H|[]]]; [right; exact H | left; symmetry; exact H].
    + intros [->|H]; [right; left; reflexivity | left; exact H].
Qed.

(** On distinct keys [del d[key]] removes every item of that key. *)
Lemma ddel_filter {A} (d : list (string * A)) (key : string) :
  NoDup (map fst d) ->
  ddel d key = filter (fun kv => negb (String.eqb (fst kv) key)) d.
Proof.
  induction d as [|[k w] d IH]; simpl; [reflexivity|].
  intros Hnd. inversion Hnd as [|? ? Hnot Hnd']; subst.
  destruct (String.eqb k key) eqn:E; simpl.
  - apply String.eqb_eq in E. subst k.
    symmetry. clear IH Hnd Hnd'.
    induction d as [|[k' w'] d IH]; simpl; [reflexivity|].
    destruct (String.eqb k' key) eqn:E'.
    + apply String.eqb_eq in E'. subst k'. exfalso. apply Hnot. left. reflexivity.
    + simpl. f_equal. apply IH. intros H. apply Hnot. right. exact H.
  - f_equal. apply IH. exact Hnd'.
Qed.

Lemma filter_keys_NoDup {A} (f : string * A -> bool) (d : list (string * A)) :
  NoDup (map fst d) -> NoDup (map fst (filter f d)).
Proof.
  induction d as [|kv d IH]; simpl; [intros H; exact H|].
  intros Hnd. inversion Hnd as [|? ? Hnot Hnd']; subst.
  destruct (f kv); simpl; [|apply IH; exact Hnd'].
  constructor; [|apply IH; exact Hnd'].
  intros H. apply Hnot. apply in_map_iff in H. destruct H as [x [Hx Hin]].
  apply filter_In in Hin. apply in_map_iff. exists x. split; [exact Hx | apply Hin].
Qed.

Lemma dget_filter {A} (f : string -> bool) (d : list (string * A)) (key : string) :
  dget (filter (fun kv => f (fst kv)) d) key = if f key then dget d key else None.
Proof.
  induction d as [|[k w] d IH]; simpl; [destruct (f key); reflexivity|].
  destruct (f k) eqn:Ef; simpl.
  - destruct (String.eqb k key) eqn:E.
    + apply String.eqb_eq in E. subst k. rewrite Ef. reflexivity.
    + exact IH.
  - destruct (String.eqb k key) eqn:E.
    + apply String.eqb_eq in E. subst k. rewrite Ef in IH. rewrite Ef. exact IH.
    + exact IH.
Qed.

(** ** The rate limit *)

Lemma filter_all {A} (f : A -> bool) (l : list A) :
  (forall x, In x l -> f x = true) -> filter f l = l.
Proof.
  induction l as [|x l IH]; simpl; [reflexivity|].
  intros H. rewrite (H x (or_introl eq_refl)). f_equal. apply IH.
  intros y Hy. apply H. right. exact Hy.
Qed.

Lemma filter_filter {A} (f g : A -> bool) (l : list A) :
  filter f (filter g l) = filter (fun x => g x && f x) l.
Proof.
  induction l as [|x l IH]; simpl; [reflexivity|].
  destruct (g x); simpl; [destruct (f x); rewrite IH; reflexivity | exact IH].
Qed.

Lemma window_key_int (key : string) :
  window_key key -> exists w, int_of_str key = Return w /\ key = str_of_Z w /\ Z.abs w < 10 ^ 4300.
Proof.
  intros [w [-> Hw]]. exists w. split; [apply int_of_str_of_Z; exact Hw | split; [reflexivity | exact Hw]].
Qed.

(** The loop deletes the windows that are old, and nothing else. *)
Lemma clean_windows_filter (minute_window : Z) (windows : list string) :
  forall user_limits : security.Limits,
    NoDup (map fst user_limits) ->
    Forall window_key windows ->
    security.clean_windows windows user_limits minute_window
    = (filter (fun kv => negb (existsb (fun k => String.eqb k (fst kv) && is_old minute_window k)
                                       windows))
              user_limits,
       Return tt).
Proof.
  induction windows as [|window windows IH]; intros user_limits Hnd Hws; simpl.
  - rewrite filter_all; [reflexivity | intros; reflexivity].
  - inversion Hws as [|? ? Hk Hws']; subst.
    destruct (window_key_int window Hk) as [w' [Hint _]].
    rewrite Hint. unfold is_old at 1. rewrite Hint.
    destruct (w' <? minute_window - 1) eqn:Hold.
    + rewrite ddel_filter by exact Hnd.
      rewrite IH; [|apply filter_keys_NoDup; exact Hnd | exact Hws'].
      rewrite filter_filter. f_equal. apply filter_ext. intros [k v]. simpl.
      rewrite (String.eqb_sym window k).
      destruct (String.eqb k window); reflexivity.
    + rewrite IH; [|exact Hnd | exact Hws'].
      f_equal. apply filter_ext. intros [k v]. simpl.
      rewrite Bool.andb_false_r. reflexivity.
Qed.

Lemma clean_windows_all (minute_window : Z) (user_limits : security.Limits) :
  wf_limits user_limits ->
  security.clean_windows (map fst user_limits) user_limits minute_window
  = (filter (fun kv => negb (is_old minute_window (fst kv))) user_limits, Return tt).
Proof.
  intros [Hnd Hws]. rewrite clean_windows_filter by assumption.
  f_equal. apply filter_ext_in. intros [k v] Hin. simpl. f_equal.
  destruct (is_old minute_window k) eqn:Hold.
  - apply existsb_exists. exists k. split.
    + apply in_map_iff. exists (k, v). split; [reflexivity | exact Hin].
    + rewrite String.eqb_refl, Hold. reflexivity.
  - destruct (existsb _ _) eqn:E; [|reflexivity].
    apply existsb_exists in E. destruct E as [x [_ Hx]].
    apply andb_prop in Hx. destruct Hx as [Hx1 Hx2].
    apply String.eqb_eq in Hx1. subst x. congruence.
Qed.

Lemma is_old_current (minute_window w : Z) :
  Z.abs w < 10 ^ 4300 ->
  is_old minute_window (str_of_Z w) = (w <? minute_window - 1).
Proof. intros Hw. unfold is_old. rewrite int_of_str_of_Z by exact Hw. reflexivity. Qed.

(** What one call does to a well-formed storage: the old windows of the
    key go, and the request is counted unless the limit is reached. *)
Lemma check_rate_limit_wf
    (rate_limit : Z) (storage : security.Storage) (api_key : string) (minute_window : Z) :
  wf_limits (limits_of storage api_key) ->
  Z.abs minute_window < 10 ^ 4300 ->
  let kept := filter (fun kv => negb (is_old minute_window (fst kv)))
                     (limits_of storage api_key) in
  let verdict := count_of storage api_key minute_window <? rate_limit in
  snd (security.check_rate_limit rate_limit storage api_key minute_window) = Return verdict /\
  limits_of (fst (security.check_rate_limit rate_limit storage api_key minute_window)) api_key
  = (if verdict
     then dset kept (str_of_Z minute_window) (count_of storage api_key minute_window + 1)
     else kept).
Proof.
  intros Hwf Hw kept verdict.
  unfold security.check_rate_limit. cbv zeta.
  match goal with
  | |- context [security.clean_windows (map fst ?l) _ _] =>
      assert (Hlim : l = limits_of storage api_key)
  end.
  { unfold limits_of. destruct (dget storage api_key) eqn:E.
    - rewrite E. reflexivity.
    - rewrite dget_dset_same. reflexivity. }
  rewrite Hlim.
  rewrite clean_windows_all by exact Hwf. fold kept.
  assert (Hc : match dget kept (str_of_Z minute_window) with
               | Some n => n
               | None => 0
               end = count_of storage api_key minute_window).
  { unfold kept, count_of.
    rewrite (dget_filter (fun k => negb (is_old minute_window k))).
    rewrite is_old_current by exact Hw.
    replace (minute_window <? minute_window - 1) with false by (symmetry; apply Z.ltb_ge; lia).
    reflexivity. }
  rewrite Hc. unfold verdict.
  rewrite Z.leb_antisym.
  destruct (count_of storage api_key minute_window <? rate_limit); simpl;
    unfold limits_of; rewrite dget_dset_same; split; reflexivity.
Qed.

(** No call touches the counters of another key. *)
Lemma check_rate_limit_other
    (rate_limit : Z) (storage : security.Storage) (api_key other : string) (minute_window : Z) :
  other <> api_key ->
  dget (fst (security.check_rate_limit rate_limit storage api_key minute_window)) other
  = dget storage other.
Proof.
  intros Hne. unfold security.check_rate_limit. cbv zeta.
  set (storage1 := match dget storage api_key with
                   | Some _ => storage
                   | None => dset storage api_key []
                   end).
  assert (H1 : dget storage1 other = dget storage other).
  { unfold storage1. destruct (dget storage api_key); [reflexivity|].
    apply dget_dset_other. exact Hne. }
  destruct (security.clean_windows _ _ _) as [user_limits1 [[]|e]]; simpl.
  - destruct (rate_limit <=? _); simpl; rewrite dget_dset_other by exact Hne; exact H1.
  - rewrite dget_dset_other by exact Hne. exact H1.
Qed.

Lemma wf_limits_nil : wf_limits [].
Proof. split; constructor. Qed.

Lemma wf_storage_limits (storage : security.Storage) (api_key : string) :
  wf_storage storage -> wf_limits (limits_of storage api_key).
Proof.
  intros Hwf. unfold limits_of. destruct (dget storage api_key) as [l|] eqn:E.
  - apply dget_In in E. unfold wf_storage in Hwf. rewrite Forall_forall in Hwf.
    exact (Hwf _ E).
  - exact wf_limits_nil.
Qed.

Lemma wf_limits_filter (f : string * Z -> bool) (l : security.Limits) :
  wf_limits l -> wf_limits (filter f l).
Proof.
  intros [Hnd Hws]. split; [apply filter_keys_NoDup; exact Hnd|].
  rewrite Forall_forall in *. intros k Hk. apply Hws.
  apply in_map_iff in Hk. destruct Hk as [x [Hx Hin]]. apply filter_In in Hin.
  apply in_map_iff. exists x. split; [exact Hx | apply Hin].
Qed.

Lemma wf_limits_dset (l : security.Limits) (w n : Z) :
  wf_limits l -> Z.abs w < 10 ^ 4300 -> wf_limits (dset l (str_of_Z w) n).
Proof.
  intros [Hnd Hws] Hw. split; [apply dset_keys_NoDup; exact Hnd|].
  rewrite Forall_forall in *. intros k Hk. apply dset_keys_In in Hk.
  destruct Hk as [->|Hk]; [exists w; split; [reflexivity | exact Hw] | apply Hws; exact Hk].
Qed.

Lemma wf_storage_dset (storage : security.Storage) (api_key : string) (l : security.Limits) :
  wf_storage storage -> wf_limits l -> wf_storage (dset storage api_key l).
Proof.
  unfold wf_storage. rewrite !Forall_forall. intros Hwf Hl kv Hin.
  apply dset_In in Hin. destruct Hin as [->|Hin]; [exact Hl | apply Hwf; exact Hin].
Qed.

Lemma check_rate_limit_preserves_wf
    (rate_limit : Z) (storage : security.Storage) (api_key : string) (minute_window : Z) :
  wf_storage storage ->
  Z.abs minute_window < 10 ^ 4300 ->
  wf_storage (fst (security.check_rate_limit rate_limit storage api_key minute_window)).
Proof.
  intros Hwf Hw.
  pose proof (wf_storage_limits storage api_key Hwf) as Hl.
  destruct (check_rate_limit_wf rate_limit storage api_key minute_window Hl Hw) as [_ Hnew].
  cbv zeta in Hnew.
  assert (Hnewwf : wf_limits
            (limits_of (fst (security.check_rate_limit rate_limit storage api_key minute_window))
                       api_key)).
  { rewrite Hnew. destruct (count_of storage api_key minute_window <? rate_limit).
    - apply wf_limits_dset; [apply wf_limits_filter; exact Hl | exact Hw].
    - apply wf_limits_filter; exact Hl. }
  clear Hnew. revert Hnewwf. unfold security.check_rate_limit. cbv zeta.
  set (storage1 := match dget storage api_key with
                   | Some _ => storage
                   | None => dset storage api_key []
                   end).
  assert (H1 : wf_storage storage1).
  { unfold storage1. destruct (dget storage api_key); [exact Hwf|].
    apply wf_storage_dset; [exact Hwf | exact wf_limits_nil]. }
  destruct (security.clean_windows _ _ _) as [user_limits1 [[]|e]]; simpl.
  - destruct (rate_limit <=? _); simpl; unfold limits_of; rewrite dget_dset_same;
      intros Hn; apply wf_storage_dset; assumption.
  - unfold limits_of. rewrite dget_dset_same. intros Hn. apply wf_storage_dset; assumption.
Qed.

Lemma reachable_wf (rate_limit : Z) (storage : security.Storage) :
  reachable rate_limit storage -> wf_storage storage.
Proof.
  induction 1 as [|storage api_key minute_window _ IH Hw].
  - constructor.
  - apply check_rate_limit_preserves_wf; assumption.
Qed.

(** X1 ([check_rate_limit], verdict).  On every storage the process can
    reach, the call returns a verdict: no [int(window)] of the clean-up
    loop raises, since every window key was written by [str()].  The
    verdict is [True] exactly when the requests already counted for the
    key in the current window are fewer than the limit, and the storage
    reached is again one the process can be in. *)
Theorem check_rate_limit_verdict
    (rate_limit : Z) (storage : security.Storage) (api_key : string) (minute_window : Z) :
  reachable rate_limit storage ->
  Z.abs minute_window < 10 ^ 4300 ->
  snd (security.check_rate_limit rate_limit storage api_key minute_window)
  = Return (count_of storage api_key minute_window <? rate_limit) /\
  wf_storage (fst (security.check_rate_limit rate_limit storage api_key minute_window)).
Proof.
  intros Hr Hw. pose proof (reachable_wf _ _ Hr) as Hwf. split.
  - apply check_rate_limit_wf; [apply wf_storage_limits; exact Hwf | exact Hw].
  - apply check_rate_limit_preserves_wf; assumption.
Qed.

Lemma check_rate_limit_verdict_witness :
  reachable 1 (fst (security.check_rate_limit 1 [] "k1" 29367000)) /\
  Z.abs 29367000 < 10 ^ 4300 /\
  snd (security.check_rate_limit 1 (fst (security.check_rate_limit 1 [] "k1" 29367000))
         "k1" 29367000)
  = Return false.
Proof.
  assert (Hr : reachable 1 (fst (security.check_rate_limit 1 [] "k1" 29367000)))
    by (apply reachable_call; [apply reachable_empty | reflexivity]).
  split; [exact Hr | split; [reflexivity|]].
  exact (proj1 (check_rate_limit_verdict 1 _ "k1" 29367000 Hr eq_refl)).
Defined.

Lemma rate_limit_quota_step
    (rate_limit : Z) (storage : security.Storage) (api_key : string) (minute_window : Z) :
  wf_storage storage ->
  Z.abs minute_window < 10 ^ 4300 ->
  count_of (fst (security.check_rate_limit rate_limit storage api_key minute_window))
           api_key minute_window
  = if count_of storage api_key minute_window <? rate_limit
    then count_of storage api_key minute_window + 1
    else count_of storage api_key minute_window.
Proof.
  intros Hwf Hw.
  pose proof (wf_storage_limits storage api_key Hwf) as Hl.
  destruct (check_rate_limit_wf rate_limit storage api_key minute_window Hl Hw) as [_ Hnew].
  cbv zeta in Hnew. unfold count_of at 1. rewrite Hnew.
  destruct (count_of storage api_key minute_window <? rate_limit).
  - rewrite dget_dset_same. reflexivity.
  - rewrite (dget_filter (fun k => negb (is_old minute_window k))).
    rewrite is_old_current by exact Hw.
    replace (minute_window <? minute_window - 1) with false
      by (symmetry; apply Z.ltb_ge; lia).
    reflexivity.
Qed.

Lemma calls_quota (rate_limit : Z) (api_key : string) (minute_window : Z) (n : nat) :
  Z.abs minute_window < 10 ^ 4300 ->
  forall storage,
    wf_storage storage ->
    snd (calls rate_limit storage api_key minute_window n)
    = map (fun i => Return (count_of storage api_key minute_window + Z.of_nat i <? rate_limit))
          (seq 0 n) /\
    count_of (fst (calls rate_limit storage api_key minute_window n)) api_key minute_window
    = Z.max (count_of storage api_key minute_window)
            (Z.min (count_of storage api_key minute_window + Z.of_nat n) rate_limit) /\
    wf_storage (fst (calls rate_limit storage api_key minute_window n)).
Proof.
  intros Hw. induction n as [|n IH]; intros storage Hwf.
  - simpl. split; [reflexivity | split; [lia | exact Hwf]].
  - cbn [calls].
    pose proof (wf_storage_limits storage api_key Hwf) as Hl.
    destruct (check_rate_limit_wf rate_limit storage api_key minute_window Hl Hw)
      as [Hverdict Hnew]. cbv zeta in Hnew.
    pose proof (check_rate_limit_preserves_wf rate_limit storage api_key minute_window Hwf Hw)
      as Hwf1.
    destruct (security.check_rate_limit rate_limit storage api_key minute_window)
      as [storage1 answer]. simpl in Hverdict, Hnew, Hwf1. subst answer.
    assert (Hc1 : count_of storage1 api_key minute_window
                  = if count_of storage api_key minute_window <? rate_limit
                    then count_of storage api_key minute_window + 1
                    else count_of storage api_key minute_window).
    { unfold count_of at 1. rewrite Hnew.
      destruct (count_of storage api_key minute_window <? rate_limit).
      - rewrite dget_dset_same. reflexivity.
      - rewrite (dget_filter (fun k => negb (is_old minute_window k))).
        rewrite is_old_current by exact Hw.
        replace (minute_window <? minute_window - 1) with false
          by (symmetry; apply Z.ltb_ge; lia).
        reflexivity. }
    destruct (IH storage1 Hwf1) as [Hans [Hcount Hwf2]].
    destruct (calls rate_limit storage1 api_key minute_window n) as [storage2 answers].
    simpl in Hans, Hcount, Hwf2. simpl fst. simpl snd.
    split; [|split; [|exact Hwf2]].
    + cbn [seq map]. rewrite Z.add_0_r. f_equal.
      rewrite Hans. rewrite <- seq_shift, map_map. apply map_ext. intros i.
      rewrite Hc1. f_equal.
      destruct (count_of storage api_key minute_window <? rate_limit) eqn:E.
      * f_equal. lia.
      * apply Z.ltb_ge in E.
        transitivity false; [apply Z.ltb_ge | symmetry; apply Z.ltb_ge]; lia.
    + rewrite Hcount, Hc1.
      destruct (count_of storage api_key minute_window <? rate_limit) eqn:E.
      * apply Z.ltb_lt in E. lia.
      * apply Z.ltb_ge in E. lia.
Qed.

(** X2 ([check_rate_limit], quota).  Within one minute window, of [n]
    successive calls for a key the [i]-th (from 0) is allowed exactly when
    the count it started from plus [i] is below the limit: a key gets
    [RATE_LIMIT_PER_MINUTE] requests through and no more, a refused call
    does not raise the count, and with a limit of zero or less every call
    is refused. *)
Theorem rate_limit_quota
    (rate_limit : Z) (storage : security.Storage) (api_key : string)
    (minute_window : Z) (n : nat) :
  wf_storage storage ->
  Z.abs minute_window < 10 ^ 4300 ->
  snd (calls rate_limit storage api_key minute_window n)
  = map (fun i => Return (count_of storage api_key minute_window + Z.of_nat i <? rate_limit))
        (seq 0 n) /\
  count_of (fst (calls rate_limit storage api_key minute_window n)) api_key minute_window
  = Z.max (count_of storage api_key minute_window)
          (Z.min (count_of storage api_key minute_window + Z.of_nat n) rate_limit) /\
  (rate_limit <= 0 ->
   count_of storage api_key minute_window = 0 ->
   Forall (fun answer => answer = Return false)
          (snd (calls rate_limit storage api_key minute_window n))).
Proof.
  intros Hwf Hw.
  destruct (calls_quota rate_limit api_key minute_window n Hw storage Hwf) as [Hans [Hcount _]].
  split; [exact Hans | split; [exact Hcount|]].
  intros Hrl Hc. rewrite Hans. apply Forall_forall. intros answer Hin.
  apply in_map_iff in Hin. destruct Hin as [i [<- _]]. f_equal. apply Z.ltb_ge. lia.
Qed.

Lemma rate_limit_quota_witness :
  wf_storage [] /\
  Z.abs 29367000 < 10 ^ 4300 /\
  snd (calls 2 [] "k1" 29367000 4)
  = [Return true; Return true; Return false; Return false] /\
  count_of (fst (calls 2 [] "k1" 29367000 4)) "k1" 29367000 = 2.
Proof.
  assert (Hwf : wf_storage []) by constructor.
  split; [exact Hwf | split; [reflexivity|]].
  split.
  - exact (proj1 (rate_limit_quota 2 [] "k1" 29367000 4 Hwf eq_refl)).
  - exact (proj1 (proj2 (rate_limit_quota 2 [] "k1" 29367000 4 Hwf eq_refl))).
Defined.

Lemma kept_keys (minute_window : Z) (l : security.Limits) (key : string) :
  wf_limits l ->
  In key (map fst (filter (fun kv => negb (is_old minute_window (fst kv))) l)) ->
  In key (map fst l) /\
  exists w, key = str_of_Z w /\ Z.abs w < 10 ^ 4300 /\ minute_window - 1 <= w.
Proof.
  intros [_ Hws] Hin. apply in_map_iff in Hin. destruct Hin as [[k v] [Hk Hin]].
  simpl in Hk. subst k. apply filter_In in Hin. destruct Hin as [Hin Hnot]. simpl in Hnot.
  assert (Hkey : In key (map fst l))
    by (apply in_map_iff; exists (key, v); split; [reflexivity | exact Hin]).
  split; [exact Hkey|].
  rewrite Forall_forall in Hws. destruct (Hws key Hkey) as [w [-> Hw]].
  exists w. split; [reflexivity | split; [exact Hw|]].
  rewrite is_old_current in Hnot by exact Hw.
  apply Bool.negb_true_iff, Z.ltb_ge in Hnot. exact Hnot.
Qed.

(** X3 ([check_rate_limit], clean-up).  After a call for a key in window
    [w], the key has counters for no window before [w - 1]; the counter of
    every other window it keeps is unchanged; and when the clock never ran
    ahead of [w], at most two counters are left, so the memory one key
    takes is bounded. *)
Theorem check_rate_limit_cleanup
    (rate_limit : Z) (storage : security.Storage) (api_key : string) (minute_window : Z) :
  wf_storage storage ->
  Z.abs minute_window < 10 ^ 4300 ->
  (forall key,
      In key (map fst (limits_of
                 (fst (security.check_rate_limit rate_limit storage api_key minute_window))
                 api_key)) ->
      exists w, key = str_of_Z w /\ minute_window - 1 <= w) /\
  (forall w,
      Z.abs w < 10 ^ 4300 -> w < minute_window - 1 ->
      count_of (fst (security.check_rate_limit rate_limit storage api_key minute_window))
               api_key w = 0) /\
  (forall w,
      Z.abs w < 10 ^ 4300 -> minute_window - 1 <= w -> w <> minute_window ->
      count_of (fst (security.check_rate_limit rate_limit storage api_key minute_window))
               api_key w
      = count_of storage api_key w) /\
  ((forall w, Z.abs w < 10 ^ 4300 ->
              In (str_of_Z w) (map fst (limits_of storage api_key)) -> w <= minute_window) ->
   (List.length (limits_of
       (fst (security.check_rate_limit rate_limit storage api_key minute_window))
       api_key) <= 2)%nat).
Proof.
  intros Hwf Hw.
  pose proof (wf_storage_limits storage api_key Hwf) as Hl.
  destruct (check_rate_limit_wf rate_limit storage api_key minute_window Hl Hw) as [_ Hnew].
  cbv zeta in Hnew. rewrite Hnew.
  set (kept := filter (fun kv => negb (is_old minute_window (fst kv)))
                      (limits_of storage api_key)) in *.
  assert (Hkeys : forall key,
             In key (map fst (if count_of storage api_key minute_window <? rate_limit
                              then dset kept (str_of_Z minute_window)
                                        (count_of storage api_key minute_window + 1)
                              else kept)) ->
             key = str_of_Z minute_window \/ In key (map fst kept)).
  { intros key Hin. destruct (count_of storage api_key minute_window <? rate_limit).
    - apply dset_keys_In in Hin. exact Hin.
    - right. exact Hin. }
  assert (Hget : forall w, Z.abs w < 10 ^ 4300 -> w <> minute_window ->
             dget (if count_of storage api_key minute_window <? rate_limit
                   then dset kept (str_of_Z minute_window)
                             (count_of storage api_key minute_window + 1)
                   else kept) (str_of_Z w)
             = if w <? minute_window - 1 then None
               else dget (limits_of storage api_key) (str_of_Z w)).
  { intros w Hb Hne.
    assert (Hk : dget kept (str_of_Z w)
                 = if w <? minute_window - 1 then None
                   else dget (limits_of storage api_key) (str_of_Z w)).
    { unfold kept. rewrite (dget_filter (fun k => negb (is_old minute_window k))).
      rewrite is_old_current by exact Hb.
      destruct (w <? minute_window - 1); reflexivity. }
    destruct (count_of storage api_key minute_window <? rate_limit); [|exact Hk].
    rewrite dget_dset_other; [exact Hk|].
    intros Heq. apply Hne. apply str_of_Z_inj; assumption. }
  split; [|split; [|split]].
  - intros key Hin. destruct (Hkeys key Hin) as [->|Hin'].
    + exists minute_window. split; [reflexivity | lia].
    + destruct (kept_keys minute_window _ key Hl Hin') as [_ [w [Hk [_ Hge]]]].
      exists w. split; assumption.
  - intros w Hb Hlt. unfold count_of at 1. rewrite Hnew, Hget by (try assumption; lia).
    apply Z.ltb_lt in Hlt. rewrite Hlt. reflexivity.
  - intros w Hb Hge Hne. unfold count_of at 1. rewrite Hnew, Hget by assumption.
    apply Z.ltb_ge in Hge. rewrite Hge. reflexivity.
  - intros Hclock.
    assert (Hnd : NoDup (map fst (if count_of storage api_key minute_window <? rate_limit
                                  then dset kept (str_of_Z minute_window)
                                            (count_of storage api_key minute_window + 1)
                                  else kept))).
    { assert (Hk : wf_limits kept) by (apply wf_limits_filter; exact Hl).
      destruct (count_of storage api_key minute_window <? rate_limit).
      - apply dset_keys_NoDup. apply Hk.
      - apply Hk. }
    rewrite <- (length_map fst).
    change 2%nat with (List.length [str_of_Z (minute_window - 1); str_of_Z minute_window]).
    apply NoDup_incl_length; [exact Hnd|].
    intros key Hin. destruct (Hkeys key Hin) as [->|Hin'].
    + right. left. reflexivity.
    + destruct (kept_keys minute_window _ key Hl Hin') as [Hold [w [Hk [Hb Hge]]]].
      subst key. pose proof (Hclock w Hb Hold) as Hle.
      assert (Hcase : w = minute_window - 1 \/ w = minute_window) by lia.
      destruct Hcase as [->| ->]; [left | right; left]; reflexivity.
Qed.

Lemma check_rate_limit_cleanup_witness :
  wf_storage [("k1", [("29366990", 7); ("29366999", 3)])] /\
  Z.abs 29367000 < 10 ^ 4300 /\
  count_of (fst (security.check_rate_limit 5 [("k1", [("29366990", 7); ("29366999", 3)])]
                   "k1" 29367000)) "k1" 29366990 = 0 /\
  count_of (fst (security.check_rate_limit 5 [("k1", [("29366990", 7); ("29366999", 3)])]
                   "k1" 29367000)) "k1" 29366999 = 3.
Proof.
  assert (Hwf : wf_storage [("k1", [("29366990", 7); ("29366999", 3)])]).
  { constructor; [|constructor]. split.
    - constructor; [intros [H|[]]; discriminate H|].
      constructor; [intros []|constructor].
    - constructor; [exists 29366990; split; reflexivity|].
      constructor; [exists 29366999; split; reflexivity|constructor]. }
  pose proof (check_rate_limit_cleanup 5 _ "k1" 29367000 Hwf eq_refl) as [_ [Hold [Hkeep _]]].
  split; [exact Hwf | split; [reflexivity|]].
  split.
  - apply Hold; [reflexivity | reflexivity].
  - rewrite Hkeep; [reflexivity | reflexivity | discriminate | discriminate].
Defined.

Lemma check_rate_limit_answer
    (rate_limit : Z) (storage : security.Storage) (api_key : string) (minute_window : Z) :
  snd (security.check_rate_limit rate_limit storage api_key minute_window)
  = match security.clean_windows (map fst (limits_of storage api_key))
                                 (limits_of storage api_key) minute_window with
    | (user_limits1, Return _) =>
        Return (negb (rate_limit <=? match dget user_limits1 (str_of_Z minute_window) with
                                     | Some n => n
                                     | None => 0
                                     end))
    | (_, Raise e) => Raise e
    end.
Proof.
  unfold security.check_rate_limit. cbv zeta.
  match goal with
  | |- context [security.clean_windows (map fst ?l) _ _] =>
      assert (Hlim : l = limits_of storage api_key)
  end.
  { unfold limits_of. destruct (dget storage api_key) eqn:E.
    - rewrite E. reflexivity.
    - rewrite dget_dset_same. reflexivity. }
  rewrite Hlim.
  destruct (security.clean_windows _ _ _) as [user_limits1 [[]|e]]; simpl; [|reflexivity].
  destruct (rate_limit <=? _); reflexivity.
Qed.

(** X4 ([check_rate_limit], one key at a time).  A call for one key
    leaves the counters of every other key as they were; its answer
    depends on the storage only through the counters of its own key; and
    the key is in the storage afterwards whatever the answer: no call
    ever takes a key out. *)
Theorem check_rate_limit_isolation
    (rate_limit : Z) (storage : security.Storage) (api_key : string) (minute_window : Z) :
  (forall other, other <> api_key ->
     dget (fst (security.check_rate_limit rate_limit storage api_key minute_window)) other
     = dget storage other) /\
  (forall storage', limits_of storage' api_key = limits_of storage api_key ->
     snd (security.check_rate_limit rate_limit storage' api_key minute_window)
     = snd (security.check_rate_limit rate_limit storage api_key minute_window)) /\
  dget (fst (security.check_rate_limit rate_limit storage api_key minute_window)) api_key
  <> None.
Proof.
  split; [|split].
  - intros other Hne. apply check_rate_limit_other. exact Hne.
  - intros storage' Heq. rewrite !check_rate_limit_answer, Heq. reflexivity.
  - unfold security.check_rate_limit. cbv zeta.
    destruct (security.clean_windows _ _ _) as [user_limits1 [[]|e]]; simpl.
    + destruct (rate_limit <=? _); simpl; rewrite dget_dset_same; discriminate.
    + rewrite dget_dset_same. discriminate.
Qed.

(** ** API keys *)

Lemma ulstrip_idem_upto (n : nat) :
  forall s, (String.length s <= n)%nat -> ulstrip (ulstrip s) = ulstrip s.
Proof.
  induction n as [|n IH]; intros s Hlen.
  - destruct s; [reflexivity | simpl in Hlen; lia].
  - destruct s as [|a r]; [reflexivity|]. simpl in Hlen.
    cbn [ulstrip]. destruct (is_space a) eqn:Ea; [apply IH; lia|].
    destruct r as [|b r'].
    { cbn [ulstrip]. rewrite Ea. reflexivity. }
    simpl in Hlen.
    destruct (is_space2 a b) eqn:Eb; [apply IH; lia|].
    destruct r' as [|c r''].
    { cbn [ulstrip]. rewrite Ea, Eb. reflexivity. }
    simpl in Hlen.
    destruct (is_space3 a b c) eqn:Ec; [apply IH; lia|].
    cbn [ulstrip]. rewrite Ea, Eb, Ec. reflexivity.
Qed.

Lemma ulstrip_idem (s : string) : ulstrip (ulstrip s) = ulstrip s.
Proof. apply (ulstrip_idem_upto (String.length s)). lia. Qed.

Lemma urstrip_empty (s : string) : urstrip s = "" <-> ulstrip s = "".
Proof.
  destruct s as [|c s']; [split; reflexivity|].
  cbn [urstrip]. destruct (ulstrip (String c s')); split; intros H; try reflexivity; discriminate H.
Qed.

Lemma validate_api_key_missing (api_key : option string) :
  security.validate_api_key api_key = false <-> missing api_key.
Proof.
  destruct api_key as [k|]; simpl; [|split; [intros _; exact I | reflexivity]].
  unfold blank.
  assert (Hs : ustrip k = "" <-> ulstrip k = "").
  { unfold ustrip. rewrite urstrip_empty, ulstrip_idem. reflexivity. }
  destruct (String.eqb k "") eqn:E.
  - apply String.eqb_eq in E. subst k. split; reflexivity.
  - destruct (ustrip k) eqn:Es.
    + split; [intros _; apply Hs; reflexivity | reflexivity].
    + simpl. split; [discriminate|]. intros H. apply Hs in H. discriminate H.
Qed.

Lemma int_of_str_raises (s : string) (e : exn) :
  int_of_str s = Raise e -> exn_class e = "ValueError".
Proof.
  unfold int_of_str.
  destruct (match skip_blanks s with
            | String "-" r => (true, r)
            | String "+" r => (false, r)
            | _ => (false, skip_blanks s)
            end) as [neg body].
  destruct (int_digits false body) as [ds|].
  - destruct (int_max_str_digits <? String.length ds)%nat; [|discriminate].
    intros H. injection H as <-. reflexivity.
  - intros H. injection H as <-. reflexivity.
Qed.

Lemma clean_windows_raises (minute_window : Z) (windows : list string) :
  forall (user_limits user_limits1 : security.Limits) (e : exn),
    security.clean_windows windows user_limits minute_window = (user_limits1, Raise e) ->
    exn_class e = "ValueError".
Proof.
  induction windows as [|window windows IH]; intros user_limits user_limits1 e; simpl.
  - discriminate.
  - destruct (int_of_str window) as [w|e'] eqn:Hint.
    + apply IH.
    + intros H. injection H as _ <-. exact (int_of_str_raises _ _ Hint).
Qed.

Lemma check_rate_limit_raises
    (rate_limit : Z) (storage : security.Storage) (api_key : string) (minute_window : Z)
    (e : exn) :
  snd (security.check_rate_limit rate_limit storage api_key minute_window) = Raise e ->
  exn_class e = "ValueError".
Proof.
  rewrite check_rate_limit_answer.
  destruct (security.clean_windows _ _ _) as [user_limits1 [[]|e']] eqn:Hc; [discriminate|].
  intros H. injection H as <-. exact (clean_windows_raises _ _ _ _ _ Hc).
Qed.

Lemma verify_api_key_missing
    (rate_limit : Z) (storage : security.Storage) (api_key : option string)
    (minute_window : Z) :
  missing api_key ->
  security.verify_api_key rate_limit storage api_key minute_window
  = (storage, Raise unauthorized).
Proof.
  intros Hm. apply validate_api_key_missing in Hm.
  unfold security.verify_api_key. destruct api_key as [k|]; [|reflexivity].
  rewrite Hm. reflexivity.
Qed.

Lemma verify_api_key_present
    (rate_limit : Z) (storage : security.Storage) (api_key : string) (minute_window : Z) :
  wf_storage storage ->
  Z.abs minute_window < 10 ^ 4300 ->
  ~ blank api_key ->
  security.verify_api_key rate_limit storage (Some api_key) minute_window
  = (fst (security.check_rate_limit rate_limit storage api_key minute_window),
     if count_of storage api_key minute_window <? rate_limit
     then Return api_key
     else Raise too_many_requests).
Proof.
  intros Hwf Hw Hk.
  destruct (check_rate_limit_wf rate_limit storage api_key minute_window
              (wf_storage_limits _ _ Hwf) Hw) as [Hverdict _].
  unfold security.verify_api_key.
  destruct (security.validate_api_key (Some api_key)) eqn:Ev.
  - destruct (security.check_rate_limit rate_limit storage api_key minute_window)
      as [storage' answer]. simpl in Hverdict. subst answer. simpl.
    destruct (count_of storage api_key minute_window <? rate_limit); reflexivity.
  - exfalso. apply Hk. apply (validate_api_key_missing (Some api_key)). exact Ev.
Qed.

(** X5 ([verify_api_key], [validate_api_key]: 401).  The answer is
    [401 Invalid or missing API key] exactly when no key was sent or the
    key is empty or white space only, Unicode white space included; the
    request is then not counted, the storage stays as it was. *)
Theorem verify_api_key_unauthorized
    (rate_limit : Z) (storage : security.Storage) (api_key : option string)
    (minute_window : Z) :
  (snd (security.verify_api_key rate_limit storage api_key minute_window) = Raise unauthorized
   <-> missing api_key) /\
  (missing api_key ->
   fst (security.verify_api_key rate_limit storage api_key minute_window) = storage).
Proof.
  pose proof (validate_api_key_missing api_key) as Hv.
  unfold security.verify_api_key.
  destruct api_key as [k|]; [|split; [split; [intros _; exact I | reflexivity] | reflexivity]].
  destruct (security.validate_api_key (Some k)) eqn:Ev.
  - assert (Hnot : ~ missing (Some k)) by (intros H; apply Hv in H; discriminate H).
    split; [|intros H; contradiction].
    split; [|intros H; contradiction].
    pose proof (check_rate_limit_raises rate_limit storage k minute_window) as Hraise.
    destruct (security.check_rate_limit rate_limit storage k minute_window)
      as [storage' [[|]|e]]; simpl in *.
    + discriminate.
    + intros H. injection H as H. discriminate H.
    + intros H. injection H as ->. specialize (Hraise _ eq_refl). discriminate Hraise.
  - split; [split; [intros _; apply Hv; reflexivity | reflexivity] | reflexivity].
Qed.

(** X6 ([verify_api_key], decision).  On a storage the process can reach,
    a key with a visible character is answered in one of two ways only:
    the key itself is returned, as it was sent, when its count in the
    current window is below the limit, and [429 Rate limit exceeded]
    otherwise.  The storage after it is the one [check_rate_limit]
    leaves. *)
Theorem verify_api_key_decision
    (rate_limit : Z) (storage : security.Storage) (api_key : string) (minute_window : Z) :
  reachable rate_limit storage ->
  Z.abs minute_window < 10 ^ 4300 ->
  ~ blank api_key ->
  security.verify_api_key rate_limit storage (Some api_key) minute_window
  = (fst (security.check_rate_limit rate_limit storage api_key minute_window),
     if count_of storage api_key minute_window <? rate_limit
     then Return api_key
     else Raise too_many_requests).
Proof.
  intros Hr Hw Hk.
  apply verify_api_key_present; [|exact Hw | exact Hk].
  apply (reachable_wf rate_limit). exact Hr.
Qed.

Lemma verify_api_key_decision_witness :
  reachable 1 (fst (security.check_rate_limit 1 [] "k1" 29367000)) /\
  Z.abs 29367000 < 10 ^ 4300 /\
  ~ blank "k1" /\
  snd (security.verify_api_key 1 (fst (security.check_rate_limit 1 [] "k1" 29367000))
         (Some "k1") 29367000)
  = Raise too_many_requests.
Proof.
  assert (Hr : reachable 1 (fst (security.check_rate_limit 1 [] "k1" 29367000)))
    by (apply reachable_call; [apply reachable_empty | reflexivity]).
  assert (Hk : ~ blank "k1") by (intros H; discriminate H).
  split; [exact Hr | split; [reflexivity | split; [exact Hk|]]].
  rewrite (verify_api_key_decision 1 _ "k1" 29367000 Hr eq_refl Hk). reflexivity.
Defined.


(** ** The endpoint *)

Section Endpoint.

Variable settings : Settings.
Variable GOOGLE_API_KEY : string.
Variable RATE_LIMIT_PER_MINUTE : Z.
Variable ChatGoogleGenerativeAI : string -> result (list Message -> result string).
Variable str_of_table : Table -> string.
Variable Response : Type.
Variable ProcessResponse : value -> value -> result Response.

Local Abbreviation endpoint :=
  (process.process_data settings GOOGLE_API_KEY RATE_LIMIT_PER_MINUTE
     ChatGoogleGenerativeAI str_of_table Response ProcessResponse).

Lemma endpoint_storage
    (storage : security.Storage) (minute_window : Z)
    (user_prompt : string) (table_data : Table) (api_key : option string) :
  fst (endpoint storage minute_window user_prompt table_data api_key)
  = fst (security.verify_api_key RATE_LIMIT_PER_MINUTE storage
           (security.get_api_key_from_header api_key) minute_window).
Proof.
  unfold process.process_data.
  destruct (security.verify_api_key _ _ _ _) as [storage' verified]. reflexivity.
Qed.

Lemma endpoint_refused
    (storage : security.Storage) (minute_window : Z)
    (user_prompt : string) (table_data : Table) (api_key : option string) (e : exn) :
  snd (security.verify_api_key RATE_LIMIT_PER_MINUTE storage
         (security.get_api_key_from_header api_key) minute_window) = Raise e ->
  snd (endpoint storage minute_window user_prompt table_data api_key)
  = if String.eqb (exn_class e) "HTTPException" then Raise e
    else Raise process.internal_server_error.
Proof.
  unfold process.process_data.
  destruct (security.verify_api_key _ _ _ _) as [storage' verified]. simpl.
  intros ->. reflexivity.
Qed.

Lemma endpoint_admitted
    (storage : security.Storage) (minute_window : Z)
    (user_prompt : string) (table_data : Table) (api_key : option string) (key : string) :
  snd (security.verify_api_key RATE_LIMIT_PER_MINUTE storage
         (security.get_api_key_from_header api_key) minute_window) = Return key ->
  snd (endpoint storage minute_window user_prompt table_data api_key)
  = try_except
      (ainvoke <- process.LLMService GOOGLE_API_KEY ChatGoogleGenerativeAI ;;
       intent <- classify_intent settings ainvoke user_prompt ;;
       '(ai_message, processed_data) <-
          process_data ainvoke str_of_table intent user_prompt table_data ;;
       ProcessResponse ai_message processed_data)
      (fun e =>
         if String.eqb (exn_class e) "HTTPException" then Raise e
         else Raise process.internal_server_error).
Proof.
  unfold process.process_data.
  destruct (security.verify_api_key _ _ _ _) as [storage' verified]. simpl.
  intros ->. reflexivity.
Qed.

(** X8 (endpoint [process_data], 401 first).  A request without a key, or
    with a header that is empty, white space only, or [Bearer] followed by
    nothing but white space, is answered [401] whatever the prompt, the
    table, the settings and the model are: nothing of the service runs and
    the storage of the rate limit stays as it was. *)
Theorem endpoint_unauthorized
    (storage : security.Storage) (minute_window : Z)
    (user_prompt : string) (table_data : Table) (api_key : option string) :
  missing (security.get_api_key_from_header api_key) ->
  endpoint storage minute_window user_prompt table_data api_key
  = (storage, Raise unauthorized).
Proof.
  intros Hm.
  pose proof (verify_api_key_missing RATE_LIMIT_PER_MINUTE storage _ minute_window Hm) as Hv.
  unfold process.process_data. rewrite Hv. reflexivity.
Qed.

(** X9 (endpoint [process_data], error answers).  Whatever is raised
    inside the handler, what leaves it is an [HTTPException].  When the
    client constructor and the response model raise no [HTTPException]
    of their own, it is one of three: [401], [429], or
    [500 Internal server error ...], the last hiding the text of the
    error it replaces. *)
Theorem endpoint_errors
    (storage : security.Storage) (minute_window : Z)
    (user_prompt : string) (table_data : Table) (api_key : option string) (e : exn) :
  snd (endpoint storage minute_window user_prompt table_data api_key) = Raise e ->
  exn_class e = "HTTPException" /\
  ((forall e', ChatGoogleGenerativeAI GOOGLE_API_KEY = Raise e' ->
               exn_class e' <> "HTTPException") ->
   (forall message table e', ProcessResponse message table = Raise e' ->
                             exn_class e' <> "HTTPException") ->
   e = unauthorized \/ e = too_many_requests \/ e = process.internal_server_error).
Proof.
  intros Hraise.
  assert (Hhandler : forall (body : result Response) e0,
             try_except body
               (fun e => if String.eqb (exn_class e) "HTTPException" then Raise e
                         else Raise process.internal_server_error) = Raise e0 ->
             exn_class e0 = "HTTPException" /\
             (e0 = process.internal_server_error \/ body = Raise e0)).
  { intros body e0. destruct body as [r|e1]; simpl; [discriminate|].
    destruct (String.eqb (exn_class e1) "HTTPException") eqn:E; intros H; injection H as <-.
    - apply String.eqb_eq in E. split; [exact E | right; reflexivity].
    - split; [reflexivity | left; reflexivity]. }
  destruct (snd (security.verify_api_key RATE_LIMIT_PER_MINUTE storage
                   (security.get_api_key_from_header api_key) minute_window))
    as [key|e1] eqn:Hv.
  - rewrite (endpoint_admitted _ _ _ _ _ _ Hv) in Hraise.
    apply Hhandler in Hraise. destruct Hraise as [Hclass Hsrc].
    split; [exact Hclass|]. intros Hllm Hresp.
    destruct Hsrc as [->|Hbody]; [right; right; reflexivity|]. exfalso.
    unfold process.LLMService in Hbody.
    destruct (String.eqb GOOGLE_API_KEY "").
    { simpl in Hbody. injection Hbody as <-. discriminate Hclass. }
    destruct (ChatGoogleGenerativeAI GOOGLE_API_KEY) as [ainvoke|e1] eqn:Hc.
    2:{ simpl in Hbody. injection Hbody as <-. exact (Hllm _ eq_refl Hclass). }
    simpl in Hbody.
    destruct (classify_intent settings ainvoke user_prompt) as [intent|e1] eqn:Hi.
    2:{ simpl in Hbody. injection Hbody as Hb. subst e1.
        unfold classify_intent, try_except in Hi.
        destruct settings.(INTENT_CATEGORIES) as [|first others] eqn:Hs.
        - assert (He : e = Exn "IndexError" "list index out of range").
          { destruct (ainvoke _) as [content|e2]; simpl in Hi;
              injection Hi as Hi; symmetry; exact Hi. }
          subst e. discriminate Hclass.
        - destruct (ainvoke _) as [content|e2]; simpl in Hi.
          + destruct (negb _); simpl in Hi; discriminate Hi.
          + discriminate Hi. }
    simpl in Hbody.
    destruct (process_data_returns ainvoke str_of_table intent user_prompt table_data)
      as [[ai_message processed_data] Hp].
    rewrite Hp in Hbody. simpl in Hbody.
    exact (Hresp _ _ _ Hbody Hclass).
  - rewrite (endpoint_refused _ _ _ _ _ _ Hv) in Hraise.
    assert (Hsrc : exn_class e = "HTTPException" /\
                   (e = process.internal_server_error \/ e1 = e)).
    { destruct (String.eqb (exn_class e1) "HTTPException") eqn:E; injection Hraise as <-.
      - apply String.eqb_eq in E. split; [exact E | right; reflexivity].
      - split; [reflexivity | left; reflexivity]. }
    destruct Hsrc as [Hclass Hsrc]. split; [exact Hclass|]. intros _ _.
    destruct Hsrc as [->| ->]; [right; right; reflexivity|].
    unfold security.verify_api_key in Hv.
    destruct (security.get_api_key_from_header api_key) as [key|];
      [|simpl in Hv; injection Hv as <-; left; reflexivity].
    destruct (security.validate_api_key (Some key));
      [|simpl in Hv; injection Hv as <-; left; reflexivity].
    pose proof (check_rate_limit_raises RATE_LIMIT_PER_MINUTE storage key minute_window) as Hc.
    destruct (security.check_rate_limit RATE_LIMIT_PER_MINUTE storage key minute_window)
      as [storage' [[|]|e2]]; simpl in Hv, Hc.
    + discriminate Hv.
    + injection Hv as <-. right. left. reflexivity.
    + injection Hv as <-. specialize (Hc _ eq_refl). rewrite Hc in Hclass. discriminate Hclass.
Qed.

Lemma classify_intent_returns
    (ainvoke : list Message -> result string) (user_prompt first : string)
    (others : list string) :
  settings.(INTENT_CATEGORIES) = first :: others ->
  returns (classify_intent settings ainvoke user_prompt).
Proof.
  intros Hs. unfold classify_intent, try_except. rewrite Hs.
  destruct (ainvoke _) as [content|e]; simpl.
  - destruct (negb _); simpl; eexists; reflexivity.
  - eexists; reflexivity.
Qed.

(** X10 (endpoint [process_data], a failing model).  For a request that
    passed the key check, with a client built and a category configured:
    when the model call raises, or its reply makes the parser raise, the
    endpoint does not answer with an error status.  It builds the normal
    response from the text
    [I encountered an error while processing your request: ...] and the
    table the caller sent, and returns it when the response model accepts
    it. *)
Theorem endpoint_model_failure
    (storage : security.Storage) (minute_window : Z)
    (user_prompt : string) (table_data : Table) (api_key : option string)
    (key first : string) (others : list string)
    (llm : list Message -> result string) (e : exn) :
  snd (security.verify_api_key RATE_LIMIT_PER_MINUTE storage
         (security.get_api_key_from_header api_key) minute_window) = Return key ->
  GOOGLE_API_KEY <> "" ->
  ChatGoogleGenerativeAI GOOGLE_API_KEY = Return llm ->
  settings.(INTENT_CATEGORIES) = first :: others ->
  (llm (transform_messages str_of_table user_prompt table_data) = Raise e \/
   exists content,
     llm (transform_messages str_of_table user_prompt table_data) = Return content /\
     _parse_llm_response content table_data = Raise e) ->
  forall response,
    ProcessResponse
      (VStr ("I encountered an error while processing your request: " ++ exn_str e))
      (of_table table_data) = Return response ->
    snd (endpoint storage minute_window user_prompt table_data api_key) = Return response.
Proof.
  intros Hv Hkey Hllm Hs Hfail response Hresp.
  rewrite (endpoint_admitted _ _ _ _ _ _ Hv).
  unfold process.LLMService. apply String.eqb_neq in Hkey. rewrite Hkey, Hllm. simpl.
  destruct (classify_intent_returns llm user_prompt first others Hs) as [intent ->]. simpl.
  assert (Ht : _transform_data llm str_of_table user_prompt table_data = Raise e).
  { destruct Hfail as [Hcall|[content [Hcall Hparse]]].
    - apply transform_data_invocation_error. exact Hcall.
    - rewrite (transform_data_reply _ _ _ _ _ Hcall). exact Hparse. }
  rewrite (process_data_handler _ _ intent _ _ _ Ht). simpl.
  unfold error_message. rewrite Hresp. reflexivity.
Qed.

(** X11 (endpoint [process_data], no [GOOGLE_API_KEY]).  With the setting
    empty, as it is when the environment does not give it, [LLMService()]
    raises and every request that passed the key check is answered [500];
    the request has been counted by then, so it uses up the quota of its
    key all the same, and once the quota is spent the answer is [429]. *)
Theorem endpoint_without_google_key
    (storage : security.Storage) (minute_window : Z)
    (user_prompt : string) (table_data : Table) (api_key : option string) (key : string) :
  GOOGLE_API_KEY = "" ->
  reachable RATE_LIMIT_PER_MINUTE storage ->
  Z.abs minute_window < 10 ^ 4300 ->
  security.get_api_key_from_header api_key = Some key ->
  ~ blank key ->
  snd (endpoint storage minute_window user_prompt table_data api_key)
  = Raise (if count_of storage key minute_window <? RATE_LIMIT_PER_MINUTE
           then process.internal_server_error
           else too_many_requests) /\
  count_of (fst (endpoint storage minute_window user_prompt table_data api_key))
           key minute_window
  = if count_of storage key minute_window <? RATE_LIMIT_PER_MINUTE
    then count_of storage key minute_window + 1
    else count_of storage key minute_window.
Proof.
  intros Hg Hr Hw Hh Hk.
  pose proof (verify_api_key_present RATE_LIMIT_PER_MINUTE storage key minute_window
                (reachable_wf _ _ Hr) Hw Hk) as Hd.
  pose proof (rate_limit_quota_step RATE_LIMIT_PER_MINUTE storage key minute_window
                (reachable_wf _ _ Hr) Hw) as Hc.
  split.
  - destruct (count_of storage key minute_window <? RATE_LIMIT_PER_MINUTE) eqn:E.
    + assert (Hv : snd (security.verify_api_key RATE_LIMIT_PER_MINUTE storage
                          (security.get_api_key_from_header api_key) minute_window)
                   = Return key) by (rewrite Hh, Hd; reflexivity).
      rewrite (endpoint_admitted _ _ _ _ _ _ Hv).
      unfold process.LLMService. rewrite Hg. reflexivity.
    + assert (Hv : snd (security.verify_api_key RATE_LIMIT_PER_MINUTE storage
                          (security.get_api_key_from_header api_key) minute_window)
                   = Raise too_many_requests) by (rewrite Hh, Hd; reflexivity).
      rewrite (endpoint_refused _ _ _ _ _ _ Hv). reflexivity.
  - rewrite endpoint_storage, Hh, Hd. simpl. exact Hc.
Qed.

End Endpoint.

Lemma endpoint_unauthorized_witness :
  missing (security.get_api_key_from_header (Some "Bearer   ")) /\
  process.process_data config.settings "g" 100
    (fun _ => Return (fun _ => Return "data_transformation")) (fun _ => "")
    (value * value) (fun message table => Return (message, table))
    [] 29367000 "categorize by likely nationality" sample_table (Some "Bearer   ")
  = ([], Raise unauthorized).
Proof.
  assert (Hm : missing (security.get_api_key_from_header (Some "Bearer   ")))
    by reflexivity.
  split; [exact Hm | apply endpoint_unauthorized; exact Hm].
Defined.

Lemma endpoint_errors_witness :
  snd (process.process_data config.settings "" 100
         (fun _ => Return (fun _ => Return "data_transformation")) (fun _ => "")
         (value * value) (fun message table => Return (message, table))
         [] 29367000 "categorize by likely nationality" sample_table (Some "k1"))
  = Raise process.internal_server_error /\
  exn_class process.internal_server_error = "HTTPException".
Proof.
  assert (H : snd (process.process_data config.settings "" 100
                     (fun _ => Return (fun _ => Return "data_transformation")) (fun _ => "")
                     (value * value) (fun message table => Return (message, table))
                     [] 29367000 "categorize by likely nationality" sample_table (Some "k1"))
              = Raise process.internal_server_error) by reflexivity.
  split; [exact H|].
  exact (proj1 (endpoint_errors _ _ _ _ _ _ _ _ _ _ _ _ _ H)).
Defined.

Lemma endpoint_model_failure_witness :
  snd (process.process_data config.settings "g" 100
         (fun _ => Return (fun _ => Raise (Exn "TimeoutError" "deadline exceeded")))
         (fun _ => "")
         (value * value) (fun message table => Return (message, table))
         [] 29367000 "categorize by likely nationality" sample_table (Some "k1"))
  = Return (VStr "I encountered an error while processing your request: deadline exceeded",
            of_table sample_table).
Proof.
  apply (endpoint_model_failure config.settings "g" 100
           (fun _ => Return (fun _ => Raise (Exn "TimeoutError" "deadline exceeded")))
           (fun _ => "") (value * value) (fun message table => Return (message, table))
           [] 29367000 "categorize by likely nationality" sample_table (Some "k1")
           "k1" "data_transformation" []
           (fun _ => Raise (Exn "TimeoutError" "deadline exceeded"))
           (Exn "TimeoutError" "deadline exceeded")).
  - reflexivity.
  - discriminate.
  - reflexivity.
  - reflexivity.
  - left. reflexivity.
  - reflexivity.
Defined.

Lemma endpoint_without_google_key_witness :
  reachable 1 (fst (security.check_rate_limit 1 [] "k1" 29367000)) /\
  Z.abs 29367000 < 10 ^ 4300 /\
  ~ blank "k1" /\
  snd (process.process_data config.settings "" 1
         (fun _ => Return (fun _ => Return "data_transformation")) (fun _ => "")
         (value * value) (fun message table => Return (message, table))
         (fst (security.check_rate_limit 1 [] "k1" 29367000)) 29367000
         "categorize by likely nationality" sample_table (Some "Bearer k1"))
  = Raise too_many_requests.
Proof.
  assert (Hr : reachable 1 (fst (security.check_rate_limit 1 [] "k1" 29367000)))
    by (apply reachable_call; [apply reachable_empty | reflexivity]).
  assert (Hk : ~ blank "k1") by (intros H; discriminate H).
  split; [exact Hr | split; [reflexivity | split; [exact Hk|]]].
  exact (proj1 (endpoint_without_google_key config.settings "" 1
                  (fun _ => Return (fun _ => Return "data_transformation")) (fun _ => "")
                  (value * value) (fun message table => Return (message, table))
                  _ 29367000 "categorize by likely nationality" sample_table
                  (Some "Bearer k1") "k1" eq_refl Hr eq_refl eq_refl Hk)).
Defined.

(** ** The parser of the service, further *)

Lemma from_first_brace_app (before rest : string) :
  find_char "{" before = None ->
  re.from_first_brace (before ++ String "{" rest) = Some (String "{" rest).
Proof.
  induction before as [|c before IH]; simpl; [reflexivity|].
  destruct (Ascii.eqb c "{"); [discriminate|].
  destruct (find_char "{" before); [discriminate|]. intros _. apply IH. reflexivity.
Qed.

Lemma upto_last_brace_none (after : string) :
  find_char "}" after = None -> re.upto_last_brace after = None.
Proof.
  induction after as [|c after IH]; simpl; [reflexivity|].
  destruct (Ascii.eqb c "}"); [discriminate|].
  destruct (find_char "}" after); [discriminate|]. intros _. rewrite IH; reflexivity.
Qed.

Lemma upto_last_brace_app (body after : string) :
  find_char "}" after = None ->
  re.upto_last_brace (body ++ String "}" after) = Some (body ++ "}").
Proof.
  intros Ha. induction body as [|c body IH]; simpl.
  - rewrite (upto_last_brace_none after Ha). reflexivity.
  - rewrite IH. reflexivity.
Qed.

(** X12 ([_parse_llm_response], the embedded object).  When the reply is
    not JSON as a whole but holds an object with text around it, a
    Markdown code fence for one, the parser works on the span from the
    first opening brace to the last closing brace: with no opening brace
    ahead of the object and no closing brace behind it, the result is what
    the object alone gives, its explanation and the data under its first
    truthy data key. *)
Theorem parse_llm_response_embedded
    (before body after : string) (fallback_data : Table) (e : exn) (d : Dict) :
  find_char "{" before = None ->
  find_char "}" after = None ->
  json.loads (before ++ "{" ++ body ++ "}" ++ after) = Raise e ->
  json.loads ("{" ++ body ++ "}") = Return (VDict d) ->
  re.search_braces (before ++ "{" ++ body ++ "}" ++ after) = Some ("{" ++ body ++ "}") /\
  _parse_llm_response (before ++ "{" ++ body ++ "}" ++ after) fallback_data
  = Return (explanation_of d, first_truthy d fallback_data).
Proof.
  intros Hb Ha Hraw Hobj.
  assert (Hs : re.search_braces (before ++ "{" ++ body ++ "}" ++ after)
               = Some ("{" ++ body ++ "}")).
  { unfold re.search_braces.
    change (before ++ "{" ++ body ++ "}" ++ after)
      with (before ++ String "{" (body ++ String "}" after)).
    rewrite (from_first_brace_app before _ Hb).
    rewrite (upto_last_brace_app body after Ha). reflexivity. }
  split; [exact Hs|].
  apply parse_llm_response_decoded. right. exists e, ("{" ++ body ++ "}").
  split; [exact Hraw | split; [exact Hs | exact Hobj]].
Qed.

Lemma parse_llm_response_embedded_witness :
  _parse_llm_response
    (("```json" ++ str1 "010")
     ++ "{" ++ js "'TRANSFORMED_DATA': [{'name': 'kabir'}], 'EXPLANATION': 'done'" ++ "}"
     ++ (str1 "010" ++ "```"))
    sample_table
  = Return (VStr "done", VList [VDict [("name", VStr "kabir")]]).
Proof.
  refine (proj2 (parse_llm_response_embedded
                   ("```json" ++ str1 "010")
                   (js "'TRANSFORMED_DATA': [{'name': 'kabir'}], 'EXPLANATION': 'done'")
                   (str1 "010" ++ "```") sample_table
                   (Exn "JSONDecodeError" "Expecting value: line 1 column 1 (char 0)")
                   [("TRANSFORMED_DATA", VList [VDict [("name", VStr "kabir")]]);
                    ("EXPLANATION", VStr "done")]
                   _ _ _ _)); reflexivity.
Defined.

Lemma first_truthy_source (d : Dict) (fallback_data : Table) :
  first_truthy d fallback_data = of_table fallback_data \/
  exists key,
    In key ["TRANSFORMED_DATA"; "FILTERED_DATA"; "ANALYZED_DATA"] /\
    dict_lookup d key = Some (first_truthy d fallback_data) /\
    truthy (first_truthy d fallback_data) = true.
Proof.
  assert (Hget : forall key, truthy (get_or_none d key) = true ->
                             dict_lookup d key = Some (get_or_none d key)).
  { intros key. unfold get_or_none. destruct (dict_lookup d key); [reflexivity | discriminate]. }
  unfold first_truthy.
  destruct (truthy (get_or_none d "TRANSFORMED_DATA")) eqn:E1.
  { right. exists "TRANSFORMED_DATA". split; [simpl; tauto | split; [apply Hget|]; exact E1]. }
  destruct (truthy (get_or_none d "FILTERED_DATA")) eqn:E2.
  { right. exists "FILTERED_DATA". split; [simpl; tauto | split; [apply Hget|]; exact E2]. }
  destruct (truthy (get_or_none d "ANALYZED_DATA")) eqn:E3.
  { right. exists "ANALYZED_DATA". split; [simpl; tauto | split; [apply Hget|]; exact E3]. }
  left. reflexivity.
Qed.

Lemma extract_keys_returns (jsonData : value) (fallback_data : Table) (r : value * value) :
  extract_keys jsonData fallback_data = Return r ->
  exists d, jsonData = VDict d /\ r = (explanation_of d, first_truthy d fallback_data).
Proof.
  intros H. destruct jsonData as [| | | | | |d];
    try (rewrite extract_keys_not_dict in H by (intros d; discriminate); discriminate H).
  rewrite extract_keys_dict in H. injection H as <-. exists d. split; reflexivity.
Qed.

Lemma parse_llm_response_source
    (raw : string) (fallback_data : Table) (message data : value) :
  _parse_llm_response raw fallback_data = Return (message, data) ->
  (message = VStr could_not_parse /\ data = of_table fallback_data) \/
  exists d,
    decodes_to raw d /\ message = explanation_of d /\ data = first_truthy d fallback_data.
Proof.
  unfold _parse_llm_response.
  destruct (json.loads raw) as [jsonData|e] eqn:Hl.
  - intros H. apply extract_keys_returns in H. destruct H as [d [-> H]].
    injection H as -> ->. right. exists d. split; [left; exact Hl | split; reflexivity].
  - destruct (re.search_braces raw) as [group0|] eqn:Hs.
    + destruct (json.loads group0) as [jsonData|e'] eqn:Hg; simpl; [|discriminate].
      intros H. apply extract_keys_returns in H. destruct H as [d [-> H]].
      injection H as -> ->. right. exists d.
      split; [right; exists e, group0; repeat split; assumption | split; reflexivity].
    + intros H. injection H as <- <-. left. split; reflexivity.
Qed.

Section Provenance.

Variable ainvoke : list Message -> result string.
Variable str_of_table : Table -> string.

(** X13 ([process_data] of the service, where the table comes from).  The
    call always returns, and the table it returns is never made up: it is
    the table the caller sent, or a truthy value that the reply of the
    model holds under [TRANSFORMED_DATA], [FILTERED_DATA] or
    [ANALYZED_DATA] in the object the parser decoded.  Nothing checks that
    this value is a list of records. *)
Theorem process_data_provenance
    (intent user_prompt : string) (table_data : Table) :
  exists message data,
    process_data ainvoke str_of_table intent user_prompt table_data
    = Return (message, data) /\
    (data = of_table table_data \/
     exists content d key,
       ainvoke (transform_messages str_of_table user_prompt table_data) = Return content /\
       decodes_to content d /\
       In key ["TRANSFORMED_DATA"; "FILTERED_DATA"; "ANALYZED_DATA"] /\
       dict_lookup d key = Some data /\
       truthy data = true).
Proof.
  destruct (_transform_data ainvoke str_of_table user_prompt table_data)
    as [[message data]|e] eqn:Ht.
  - exists message, data. split; [apply process_data_pass; exact Ht|].
    unfold _transform_data in Ht.
    destruct (ainvoke (transform_messages str_of_table user_prompt table_data))
      as [content|e] eqn:Hc; simpl in Ht; [|discriminate Ht].
    apply parse_llm_response_source in Ht.
    destruct Ht as [[_ ->]|[d [Hd [_ ->]]]]; [left; reflexivity|].
    destruct (first_truthy_source d table_data) as [->|[key [Hin [Hk Ht]]]];
      [left; reflexivity|].
    right. exists content, d, key. repeat split; assumption.
  - exists (VStr (error_message e)), (of_table table_data).
    split; [apply process_data_handler; exact Ht | left; reflexivity].
Qed.

End Provenance.

(** X19 ([_parse_llm_response], what it raises).  The parser raises in two
    ways only.  Either the text, or else its span from the first opening
    to the last closing brace, decodes to something that is no object,
    and [.get] raises [AttributeError]; or the whole text does not decode
    and the decode of the span, which stands outside the [try], raises:
    the exception is then the one [json.loads] raised on the span. *)
Theorem parse_llm_response_failures
    (raw : string) (fallback_data : Table) (e : exn) :
  _parse_llm_response raw fallback_data = Raise e ->
  (exists v,
      (json.loads raw = Return v \/
       exists e0 group0,
         json.loads raw = Raise e0 /\ re.search_braces raw = Some group0 /\
         json.loads group0 = Return v) /\
      (forall d, v <> VDict d) /\ e = AttributeError v "get") \/
  (exists e0 group0,
      json.loads raw = Raise e0 /\ re.search_braces raw = Some group0 /\
      json.loads group0 = Raise e).
Proof.
  assert (Hx : forall jsonData,
             extract_keys jsonData fallback_data = Raise e ->
             (forall d, jsonData <> VDict d) /\ e = AttributeError jsonData "get").
  { intros jsonData H.
    destruct jsonData as [| | | | | |d];
      try (rewrite extract_keys_not_dict in H by (intros d; discriminate);
           injection H as <-; split; [intros d; discriminate | reflexivity]).
    rewrite extract_keys_dict in H. discriminate H. }
  unfold _parse_llm_response.
  destruct (json.loads raw) as [jsonData|e0] eqn:Hl.
  - intros H. destruct (Hx _ H) as [Hnd ->].
    left. exists jsonData. split; [left; reflexivity | split; [exact Hnd | reflexivity]].
  - destruct (re.search_braces raw) as [group0|] eqn:Hs; [|discriminate].
    destruct (json.loads group0) as [jsonData|e1] eqn:Hg; simpl.
    + intros H. destruct (Hx _ H) as [Hnd ->].
      left. exists jsonData.
      split; [right; exists e0, group0; repeat split; assumption
             | split; [exact Hnd | reflexivity]].
    + intros H. injection H as <-.
      right. exists e0, group0. repeat split; assumption.
Qed.

Lemma parse_llm_response_failures_witness :
  _parse_llm_response "{bad}" sample_table
  = Raise (Exn "JSONDecodeError"
             "Expecting property name enclosed in double quotes: line 1 column 2 (char 1)") /\
  exists e0 group0,
    json.loads "{bad}" = Raise e0 /\ re.search_braces "{bad}" = Some group0 /\
    json.loads group0
    = Raise (Exn "JSONDecodeError"
               "Expecting property name enclosed in double quotes: line 1 column 2 (char 1)").
Proof.
  assert (H : _parse_llm_response "{bad}" sample_table
              = Raise (Exn "JSONDecodeError"
                         "Expecting property name enclosed in double quotes: line 1 column 2 (char 1)"))
    by reflexivity.
  split; [exact H|].
  destruct (parse_llm_response_failures _ _ _ H) as [[v [_ [_ Hv]]]|Hspan].
  - discriminate Hv.
  - exact Hspan.
Defined.

(** ** The marker parser, further *)

Lemma scan_brackets_escapes (rest : string) :
  forall seen bracket_count,
    raised_class (simple_test_parsing.scan_brackets seen rest bracket_count)
    <> Some "JSONDecodeError".
Proof.
  induction rest as [|char rest IH]; intros seen bracket_count; simpl; [discriminate|].
  destruct (Ascii.eqb char "["); [apply IH|].
  destruct (Ascii.eqb char "]"); [|apply IH].
  destruct (bracket_count - 1 =? 0); [|apply IH].
  destruct (json.loads (seen ++ str1 char)) as [data|e]; [discriminate|].
  destruct (String.eqb (exn_class e) "JSONDecodeError") eqn:E; [apply IH|].
  simpl. intros H. injection H as H. rewrite H in E. discriminate E.
Qed.


(** X14 ([parse_llm_response] of the marker parser, exceptions).  No
    [JSONDecodeError] leaves the parser: a candidate array that does not
    decode is logged and the scan goes on.  Other exceptions of
    [json.loads] are not caught by [except json.JSONDecodeError] and do
    leave it: an array holding a number of 4301 digits makes the parser
    raise the [ValueError] of the digit limit. *)
Theorem marker_parser_exceptions (response_content : string) (fallback_data : Table) :
  raised_class (simple_test_parsing.parse_llm_response response_content fallback_data)
  <> Some "JSONDecodeError" /\
  raised_class
    (simple_test_parsing.parse_llm_response
       ("TRANSFORMED_DATA: [" ++ string_of_list_ascii (repeat "1"%char 4301) ++ "]")
       fallback_data)
  = Some "ValueError".
Proof.
  split; [|vm_compute; reflexivity].
  unfold simple_test_parsing.parse_llm_response.
  destruct (contains "TRANSFORMED_DATA:" response_content); [|discriminate].
  destruct (find_char "[" _) as [bracket_start|]; [|discriminate].
  pose proof (scan_brackets_escapes
                (drop bracket_start
                   (item (split "TRANSFORMED_DATA:" response_content) 1)) "" 0) as H.
  destruct (simple_test_parsing.scan_brackets _ _ _) as [[parsed|]|e];
    [discriminate | discriminate | exact H].
Qed.



(** ** The normaliser, further *)

Lemma fieldwise_lookup_back
    (items items' : list (string * value)) (key : string) (v' : value) :
  fieldwise items items' ->
  dict_lookup items' key = Some v' ->
  exists v, dict_lookup items key = Some v /\ normalize_field key v = Return v'.
Proof.
  unfold fieldwise. induction 1 as [|[k v] [k' w] items items' [Hk Hn] _ IH]; simpl.
  - discriminate.
  - simpl in Hk, Hn. subst k'.
    destruct (String.eqb k key) eqn:E.
    + apply String.eqb_eq in E. subst k. intros H. injection H as <-.
      exists v. split; [reflexivity | exact Hn].
    + exact IH.
Qed.

Lemma normalize_field_confidence_type (v v' : value) :
  normalize_field "confidence" v = Return v' -> is_str_or_float v' = false.
Proof.
  rewrite normalize_field_confidence.
  destruct (is_str_or_float v) eqn:E.
  - destruct v; try discriminate E; simpl.
    + destruct (int_of_float f); simpl; intros H; [injection H as <-; reflexivity | discriminate H].
    + destruct (int_of_str s); simpl; intros H; [injection H as <-; reflexivity | discriminate H].
  - intros H. injection H as <-. exact E.
Qed.

Lemma normalize_field_flag_type (key : string) (v v' : value) :
  In key ["actionTaken"; "isNew"] ->
  normalize_field key v = Return v' ->
  match v' with VStr _ | VInt _ => False | _ => True end.
Proof.
  intros Hin. unfold normalize_field.
  assert (Hc : String.eqb key "confidence" = false)
    by (destruct Hin as [<-|[<-|[]]]; reflexivity).
  assert (Hf : str_in key ["actionTaken"; "isNew"] = true)
    by (destruct Hin as [<-|[<-|[]]]; reflexivity).
  rewrite Hc, Hf. intros H. injection H as <-.
  destruct v; simpl; exact I.
Qed.

(** X16 ([_normalize_contact_signals], the types afterwards).  In every
    record of a normalised table the value under [confidence] is no string
    and no float, and the values under [actionTaken] and [isNew] are no
    strings and no plain integers: each is the integer or the boolean the
    coercion made, or a value of a type the coercion does not touch. *)
Theorem normalize_types (T T' : Table) :
  wf_table T ->
  _normalize_contact_signals T = Return T' ->
  Forall (fun row' =>
            (forall v, dict_lookup row' "confidence" = Some v ->
                       is_str_or_float v = false) /\
            (forall key v, In key ["actionTaken"; "isNew"] ->
                           dict_lookup row' key = Some v ->
                           match v with VStr _ | VInt _ => False | _ => True end))
         T'.
Proof.
  intros Hwf Hn. pose proof (normalize_table_fieldwise T T' Hwf Hn) as Hf.
  clear Hwf Hn. induction Hf as [|row row' T T' Hrow _ IH]; constructor; [|exact IH].
  split.
  - intros v Hv. destruct (fieldwise_lookup_back _ _ _ _ Hrow Hv) as [v0 [_ H0]].
    exact (normalize_field_confidence_type _ _ H0).
  - intros key v Hin Hv. destruct (fieldwise_lookup_back _ _ _ _ Hrow Hv) as [v0 [_ H0]].
    exact (normalize_field_flag_type _ _ _ Hin H0).
Qed.

Lemma normalize_types_witness :
  wf_table signals /\
  _normalize_contact_signals signals = Return signals_normalized /\
  Forall (fun row' =>
            (forall v, dict_lookup row' "confidence" = Some v ->
                       is_str_or_float v = false) /\
            (forall key v, In key ["actionTaken"; "isNew"] ->
                           dict_lookup row' key = Some v ->
                           match v with VStr _ | VInt _ => False | _ => True end))
         signals_normalized.
Proof.
  split; [exact signals_wf | split; [reflexivity|]].
  exact (normalize_types signals signals_normalized signals_wf eq_refl).
Defined.




(** X18 ([_normalize_contact_signals], [confidence] as text).  A
    confidence that is the decimal text of an integer within the digit
    limit of [int()] becomes that integer: [int(str(n)) == n]. *)
Theorem normalize_confidence_text (n : Z) :
  Z.abs n < 10 ^ 4300 ->
  normalize_field "confidence" (VStr (str_of_Z n)) = Return (VInt n) /\
  _normalize_contact_signals [[("confidence", VStr (str_of_Z n))]]
  = Return [[("confidence", VInt n)]].
Proof.
  intros Hn.
  assert (H : normalize_field "confidence" (VStr (str_of_Z n)) = Return (VInt n)).
  { rewrite normalize_field_confidence. simpl.
    rewrite (int_of_str_of_Z n Hn). reflexivity. }
  split; [exact H|].
  cbn [_normalize_contact_signals normalize_items]. rewrite H. reflexivity.
Qed.

Lemma normalize_confidence_text_witness :
  Z.abs (-83) < 10 ^ 4300 /\
  normalize_field "confidence" (VStr "-83") = Return (VInt (-83)).
Proof.
  split; [reflexivity|].
  exact (proj1 (normalize_confidence_text (-83) eq_refl)).
Defined.
